(** * Copy-on-write virtual memory manager of sce213-pa4-2020s/pa4.c

    A shallow embedding of [alloc_page], [free_page], [handle_page_fault] and
    [switch_process], and the properties of them that the specification
    states.

    The header vm.h is not among the sources.  What the code needs of it is
    either a parameter of the development ([NR_PTES_PER_PAGE],
    [NR_PAGEFRAMES]) or modelled as noted at the definition. *)

From stdpp Require Import base numbers option list.

Local Open Scope Z_scope.
#[local] Set Warnings "-clear-no-such-hyp".

(** ** Machine integers and C-level failures *)

(** [unsigned int] arithmetic wraps around at 2^32. *)
Definition to_uint (z : Z) : Z := z `mod` 2 ^ 32.

(** What the C standard leaves undefined and the code can run into: reading
    through a null directory pointer, and indexing an array outside of it. *)
Inductive fault : Set :=
  | NullDereference
  | OutOfBounds.

Inductive result (A : Type) : Type :=
  | Ok (a : A)
  | Err (e : fault).
Arguments Ok {A} a.
Arguments Err {A} e.

#[global] Instance result_ret : MRet result := λ A a, Ok a.
#[global] Instance result_bind : MBind result := λ A B f m,
  match m with
  | Ok a => f a
  | Err e => Err e
  end.

(** [a[i]] as an rvalue and [a[i] = x], for an array held as a list. *)
Definition load {A} (a : list A) (i : Z) : result A :=
  if decide (0 ≤ i) then
    match a !! Z.to_nat i with
    | Some x => Ok x
    | None => Err OutOfBounds
    end
  else Err OutOfBounds.

Definition store {A} (a : list A) (i : Z) (x : A) : result (list A) :=
  if decide (0 ≤ i < Z.of_nat (length a)) then Ok (<[Z.to_nat i := x]> a)
  else Err OutOfBounds.

(** [p->...] for a pointer that may be NULL. *)
Definition deref {A} (p : option A) : result A :=
  match p with
  | Some x => Ok x
  | None => Err NullDereference
  end.

Definition is_null {A} (p : option A) : bool :=
  match p with
  | Some _ => false
  | None => true
  end.

(** ** Data model *)

(** Modelled from the spec: [struct pte] is declared in vm.h, which is
    missing.  Section 3 of the specification gives the entry as
    [{valid: bool, writable: bool, cow: bool, pfn: FrameId}]; the code calls
    the copy-on-write marker [private] and compares it with 0 and 1 only. *)
Record pte : Set := PTE {
  valid : bool;
  writable : bool;
  pfn : Z;
  private : bool
}.

#[global] Instance pte_eq_dec : EqDecision pte.
Proof. solve_decision. Defined.

Definition set_valid (b : bool) (e : pte) : pte :=
  PTE b (writable e) (pfn e) (private e).
Definition set_writable (b : bool) (e : pte) : pte :=
  PTE (valid e) b (pfn e) (private e).
Definition set_pfn (f : Z) (e : pte) : pte :=
  PTE (valid e) (writable e) f (private e).
Definition set_private (b : bool) (e : pte) : pte :=
  PTE (valid e) (writable e) (pfn e) b.

(** [struct pte_directory { struct pte ptes[NR_PTES_PER_PAGE]; }] and
    [struct pagetable { struct pte_directory *outer_ptes[NR_PTES_PER_PAGE]; }]:
    a directory is owned by the one slot that points to it. *)
Abbreviation pte_directory := (list pte).
Abbreviation pagetable := (list (option (list pte))).

Record process : Type := Process {
  pid : Z;
  pagetable_of : pagetable
}.

(** The globals of pa4.c.  [ptbr] always points to the page table of
    [current] (both are assigned together), so it is not a field of its own. *)
Record state : Type := State {
  processes : list process;
  current : process;
  mapcounts : list Z
}.

Definition ptbr (st : state) : pagetable := pagetable_of (current st).

Definition set_ptbr (pt : pagetable) (st : state) : state :=
  State (processes st) (Process (pid (current st)) pt) (mapcounts st).
Definition set_mapcounts (mc : list Z) (st : state) : state :=
  State (processes st) (current st) mc.

(** Modelled from the spec: the access flags of vm.h.  [alloc_page] spells
    the two encodings that carry write permission as the literals 2 and 3. *)
Definition RW_READ : Z := 1.
Definition RW_WRITE : Z := 2.

Definition zero_pte : pte := PTE false false 0 false.

(** Modelled from the spec: the constants of vm.h, "number of outer-index
    bits, number of inner-index bits, total physical frame count -- fixed at
    system build".  The code takes [NR_PTES_PER_PAGE] for the size of both
    levels. *)
Class vm_config : Set := VmConfig {
  NR_PTES_PER_PAGE : nat;
  NR_PAGEFRAMES : nat
}.

Section VM.

Context {cfg : vm_config}.

Definition outer_index_of (vpn : Z) : Z := vpn / Z.of_nat NR_PTES_PER_PAGE.
Definition inner_index_of (vpn : Z) : Z := vpn `mod` Z.of_nat NR_PTES_PER_PAGE.

(** ** alloc_page *)

(** The scan [for (ppn_index = 0; ppn_index < NR_PAGEFRAMES; ppn_index++)
    if (mapcounts[ppn_index] == 0) break;] with [n] iterations left. *)
Fixpoint scan_free (n : nat) (ppn_index : Z) (mc : list Z) : result Z :=
  match n with
  | O => Ok ppn_index
  | S n' =>
      c ← load mc ppn_index;
      if decide (c = 0) then Ok ppn_index
      else scan_free n' (ppn_index + 1) mc
  end.

(** [fresh] is the block that [malloc(sizeof(struct pte_directory))] hands
    back should the directory be missing; C leaves its contents
    indeterminate. *)
Definition alloc_page (fresh : pte_directory) (vpn rw : Z) (st : state)
  : result (Z * state) :=
  let outer_index := outer_index_of vpn in
  let inner_index := inner_index_of vpn in
  ppn_index ← scan_free NR_PAGEFRAMES 0 (mapcounts st);
  if decide (Z.of_nat NR_PAGEFRAMES ≤ ppn_index) then Ok (to_uint (-1), st)
  else
    slot ← load (ptbr st) outer_index;
    let dir := default fresh slot in
    e ← load dir inner_index;
    let e := set_pfn ppn_index (set_valid true e) in
    c ← load (mapcounts st) ppn_index;
    mc ← store (mapcounts st) ppn_index (to_uint (c + 1));
    let e :=
      if decide (rw = 2 ∨ rw = 3) then set_writable (bool_decide (rw ≠ 0)) e
      else e in
    dir ← store dir inner_index e;
    pt ← store (ptbr st) outer_index (Some dir);
    Ok (ppn_index, set_mapcounts mc (set_ptbr pt st)).

(** ** free_page *)

Definition free_page (vpn : Z) (st : state) : result state :=
  let outer_index := outer_index_of vpn in
  let inner_index := inner_index_of vpn in
  slot ← load (ptbr st) outer_index;
  dir ← deref slot;
  e ← load dir inner_index;
  let ppn_index := pfn e in
  let e := set_pfn 0 (set_writable false (set_valid false e)) in
  dir ← store dir inner_index e;
  pt ← store (ptbr st) outer_index (Some dir);
  c ← load (mapcounts st) ppn_index;
  mc ← store (mapcounts st) ppn_index (to_uint (c - 1));
  Ok (set_mapcounts mc (set_ptbr pt st)).

(** ** handle_page_fault *)

(** The function has no [return] after its last [if]: when control gets
    there the caller receives no value, which is [None] here. *)
Definition handle_page_fault (fresh : pte_directory) (vpn rw : Z) (st : state)
  : result (option bool * state) :=
  let outer_index := outer_index_of vpn in
  let inner_index := inner_index_of vpn in
  slot ← load (ptbr st) outer_index;
  (* ppn_index = ptbr->outer_ptes[outer_index]->ptes[inner_index].pfn *)
  dir ← deref slot;
  e ← load dir inner_index;
  let ppn_index := pfn e in
  if is_null slot || negb (valid e) then Ok (Some false, st)
  else if decide (rw = RW_WRITE ∧ writable e = false ∧ private e = false)
  then Ok (Some false, st)
  else if private e then
    c ← load (mapcounts st) ppn_index;
    if decide (1 < c) then
      mc ← store (mapcounts st) ppn_index (to_uint (c - 1));
      '(_, st') ← alloc_page fresh vpn RW_WRITE (set_mapcounts mc st);
      Ok (Some true, st')
    else if decide (c = 1) then
      dir ← store dir inner_index (set_writable true e);
      pt ← store (ptbr st) outer_index (Some dir);
      Ok (Some true, set_ptbr pt st)
    else Ok (None, st)
  else Ok (None, st).

(** ** switch_process *)

(** [list_for_each] over the ready list, leaving at the first process whose
    pid is [target]: its position and the process. *)
Fixpoint find_process (target : Z) (k : nat) (l : list process)
  : option (nat * process) :=
  match l with
  | [] => None
  | temp :: l' =>
      if decide (pid temp = target) then Some (k, temp)
      else find_process target (S k) l'
  end.

(** The loop over [j] of the fork, on the parent's directory [pdir], the
    child's [cdir] and the share counts, with [n] iterations left. *)
Fixpoint fork_ptes (n : nat) (j : Z) (pdir cdir : pte_directory) (mc : list Z)
  : result (pte_directory * pte_directory * list Z) :=
  match n with
  | O => Ok (pdir, cdir, mc)
  | S n' =>
      p ← load pdir j;
      if valid p then
        '(pdir, cdir) ←
          (if writable p || private p then
             pdir ← store pdir j (set_private true (set_writable false p));
             c ← load cdir j;
             cdir ← store cdir j (set_private true c);
             Ok (pdir, cdir)
           else Ok (pdir, cdir));
        c ← load cdir j;
        cdir ← store cdir j (set_pfn (pfn p) (set_valid true c));
        k ← load mc (pfn p);
        mc ← store mc (pfn p) (to_uint (k + 1));
        fork_ptes n' (j + 1) pdir cdir mc
      else fork_ptes n' (j + 1) pdir cdir mc
  end.

(** The loop over [i]: [fresh i] is the block [malloc] hands back for the
    child's directory number [i]. *)
Fixpoint fork_dirs (fresh : Z → pte_directory) (n : nat) (i : Z)
    (pt ct : pagetable) (mc : list Z)
  : result (pagetable * pagetable * list Z) :=
  match n with
  | O => Ok (pt, ct, mc)
  | S n' =>
      slot ← load pt i;
      match slot with
      | Some pdir =>
          '(pdir, cdir, mc) ← fork_ptes NR_PTES_PER_PAGE 0 pdir (fresh i) mc;
          pt ← store pt i (Some pdir);
          ct ← store ct i (Some cdir);
          fork_dirs fresh n' (i + 1) pt ct mc
      | None => fork_dirs fresh n' (i + 1) pt ct mc
      end
  end.

(** [child] is the block of [malloc(sizeof(struct process))].  The parent is
    changed through [ptbr] before it is queued, so the ready list gets the
    changed parent. *)
Definition switch_process (child : process) (fresh : Z → pte_directory)
    (target : Z) (st : state) : result state :=
  match find_process target 0 (processes st) with
  | Some (k, temp) =>
      Ok (State (delete k (processes st ++ [current st])) temp (mapcounts st))
  | None =>
      '(pt, ct, mc) ← fork_dirs fresh NR_PTES_PER_PAGE 0 (ptbr st)
                        (pagetable_of child) (mapcounts st);
      Ok (State (processes st ++ [Process (pid (current st)) pt])
                (Process target ct) mc)
  end.

(** ** Reading the tables *)

(** The two-level walk: the entry of [vpn], if its directory is there. *)
Definition lookup_pte (pt : pagetable) (vpn : Z) : option pte :=
  if decide (0 ≤ vpn) then
    slot ← pt !! Z.to_nat (outer_index_of vpn);
    dir ← slot;
    dir !! Z.to_nat (inner_index_of vpn)
  else None.

(** When the framework calls [handle_page_fault], by the comment above that
    function: the directory is missing, the entry is invalid, or the entry
    is not writable and the access is a write. *)
Definition translation_fails (pt : pagetable) (vpn rw : Z) : bool :=
  match lookup_pte pt vpn with
  | Some e => negb (valid e) || (bool_decide (rw = RW_WRITE) && negb (writable e))
  | None => true
  end.

Definition count_of (mc : list Z) (f : Z) : option Z :=
  if decide (0 ≤ f) then mc !! Z.to_nat f else None.

Definition is_free (mc : list Z) (f : Z) : Prop := count_of mc f = Some 0.

(** Memory as the code expects [malloc] to hand it out. *)
Definition zero_directory : pte_directory := replicate NR_PTES_PER_PAGE zero_pte.
Definition zero_process : process := Process 0 (replicate NR_PTES_PER_PAGE None).

(** The arrays have the sizes vm.h declares, and a share count is an
    [unsigned int]. *)
Definition wf_directory (dir : pte_directory) : Prop :=
  length dir = NR_PTES_PER_PAGE.
Definition wf_pagetable (pt : pagetable) : Prop :=
  length pt = NR_PTES_PER_PAGE ∧ Forall (from_option wf_directory True) pt.
Definition wf_state (st : state) : Prop :=
  length (mapcounts st) = NR_PAGEFRAMES ∧
  Forall (λ c, 0 ≤ c < 2 ^ 32) (mapcounts st) ∧
  wf_pagetable (ptbr st) ∧
  Forall (λ p, wf_pagetable (pagetable_of p)) (processes st).

(** The constants are [int]s, and there is at least one entry per
    directory. *)
Definition wf_config : Prop :=
  (0 < NR_PTES_PER_PAGE)%nat ∧ Z.of_nat NR_PAGEFRAMES ≤ 2 ^ 31 - 1.

#[global] Instance wf_directory_dec dir : Decision (wf_directory dir).
Proof. unfold wf_directory. apply _. Defined.
#[global] Instance wf_slot_dec (slot : option pte_directory) :
  Decision (from_option wf_directory True slot).
Proof. destruct slot; simpl; apply _. Defined.
#[global] Instance wf_pagetable_dec pt : Decision (wf_pagetable pt).
Proof. unfold wf_pagetable. apply _. Defined.
#[global] Instance wf_state_dec st : Decision (wf_state st).
Proof. unfold wf_state. apply _. Defined.
#[global] Instance wf_config_dec : Decision wf_config.
Proof. unfold wf_config. apply _. Defined.

(** [vpn] is a page of the address space the two levels span. *)
Definition in_address_space (vpn : Z) : Prop :=
  0 ≤ vpn < Z.of_nat NR_PTES_PER_PAGE * Z.of_nat NR_PTES_PER_PAGE.

(** ** Counting the references to a frame *)

Definition refers (f : Z) (e : pte) : bool := valid e && bool_decide (pfn e = f).

Definition refs_dir (f : Z) (dir : pte_directory) : nat :=
  sum_list_with (λ e, if refers f e then 1%nat else 0%nat) dir.
Definition refs_table (f : Z) (pt : pagetable) : nat :=
  sum_list_with (λ slot, from_option (refs_dir f) 0%nat slot) pt.
Definition refs (f : Z) (st : state) : nat :=
  (refs_table f (ptbr st)
   + sum_list_with (λ p, refs_table f (pagetable_of p)) (processes st))%nat.

Definition valid_in_dir (dir : pte_directory) : nat :=
  sum_list_with (λ e, if valid e then 1%nat else 0%nat) dir.
Definition valid_in_table (pt : pagetable) : nat :=
  sum_list_with (λ slot, from_option valid_in_dir 0%nat slot) pt.
Definition valid_ptes (st : state) : nat :=
  (valid_in_table (ptbr st)
   + sum_list_with (λ p, valid_in_table (pagetable_of p)) (processes st))%nat.

Definition sum_counts (mc : list Z) : Z := foldr Z.add 0 mc.

(** The two forms of share-count conservation, as checks that compute. *)
Definition counts_match_refs (st : state) : bool :=
  forallb (λ f, bool_decide (mapcounts st !! f = Some (Z.of_nat (refs (Z.of_nat f) st))))
          (seq 0 (length (mapcounts st))).
Definition counts_sum_to_valid (st : state) : bool :=
  bool_decide (sum_counts (mapcounts st) = Z.of_nat (valid_ptes st)).

(** The lowest-numbered frame nobody maps. *)
Definition least_free (mc : list Z) (f : Z) : Prop :=
  is_free mc f ∧ ∀ g, 0 ≤ g < f → ¬ is_free mc g.

(** What [alloc_page] writes into the entry it maps to frame [f]. *)
Definition alloc_entry (f rw : Z) (e : pte) : pte :=
  let e := set_pfn f (set_valid true e) in
  if decide (rw = 2 ∨ rw = 3) then set_writable true e else e.

(** ** The fork, entry by entry *)

(** What the fork leaves in the parent's entry [p], and what it writes over
    the child's entry [c], which comes from [malloc]. *)
Definition cow_parent (p : pte) : pte :=
  if valid p && (writable p || private p)
  then set_private true (set_writable false p)
  else p.
Definition cow_child (p c : pte) : pte :=
  if valid p then
    set_pfn (pfn p)
      (set_valid true (if writable p || private p then set_private true c else c))
  else c.

(** [mapcounts[p.pfn]++] for a valid entry [p]. *)
Definition bump (mc : list Z) (p : pte) : list Z :=
  if valid p then
    match mc !! Z.to_nat (pfn p) with
    | Some k => <[Z.to_nat (pfn p) := to_uint (k + 1)]> mc
    | None => mc
    end
  else mc.
Definition bump_slot (mc : list Z) (slot : option pte_directory) : list Z :=
  from_option (foldl bump mc) mc slot.

(** The child's table: a directory for each one of the parent, the slots of
    the block of [malloc] elsewhere. *)
Fixpoint fork_child (fresh : Z → pte_directory) (i : Z) (pt ct : pagetable)
  : pagetable :=
  match pt, ct with
  | slot :: pt', cslot :: ct' =>
      match slot with
      | Some pdir => Some (zip_with cow_child pdir (fresh i))
      | None => cslot
      end :: fork_child fresh (i + 1) pt' ct'
  | _, _ => []
  end.

(** The parent's table after the fork. *)
Definition fork_parent (pt : pagetable) : pagetable :=
  (λ slot : option pte_directory, (λ dir : pte_directory, cow_parent <$> dir) <$> slot)
    <$> pt.

(** The frames that valid entries name are frames of the machine. *)
Definition frames_in_range (m : nat) (dir : pte_directory) : Prop :=
  Forall (λ p, valid p = true → 0 ≤ pfn p < Z.of_nat m) dir.
Definition table_in_range (m : nat) (pt : pagetable) : Prop :=
  Forall (from_option (frames_in_range m) True) pt.

(** A state the code keeps its books on: the arrays have their sizes, valid
    entries name frames of the machine, and the share count of a frame is
    the number of valid entries, of all processes, that name it. *)
Definition consistent (st : state) : Prop :=
  wf_state st ∧
  table_in_range NR_PAGEFRAMES (ptbr st) ∧
  Forall (λ p, table_in_range NR_PAGEFRAMES (pagetable_of p)) (processes st) ∧
  ∀ f c, count_of (mapcounts st) f = Some c → c = Z.of_nat (refs f st).

#[global] Instance frames_in_range_dec m dir : Decision (frames_in_range m dir).
Proof. unfold frames_in_range. apply _. Defined.
#[global] Instance slot_in_range_dec m (slot : option pte_directory) :
  Decision (from_option (frames_in_range m) True slot).
Proof. destruct slot; simpl; apply _. Defined.
#[global] Instance table_in_range_dec m pt : Decision (table_in_range m pt).
Proof. unfold table_in_range. apply _. Defined.

End VM.

(** * Example systems

    Two entries per directory, so four pages, and four page frames. *)

Definition small_vm : vm_config := VmConfig 2 4.

(** The system before the first command: one process, nothing mapped. *)
Definition boot : state := State [] (Process 0 [None; None]) [0; 0; 0; 0].

(** After [alloc 0 w]: page 0 is in frame 0, writable. *)
Definition one_page : state :=
  State [] (Process 0 [Some [PTE true true 0 false; zero_pte]; None])
        [1; 0; 0; 0].

(** After [alloc 0 w] and the fork of process 1: both map page 0 to frame 0,
    copy-on-write; the child runs. *)
Definition forked : state :=
  State [Process 0 [Some [PTE true false 0 true; zero_pte]; None]]
        (Process 1 [Some [PTE true false 0 true; zero_pte]; None])
        [2; 0; 0; 0].

(** After the child of [forked] wrote to page 0 and the parent was switched
    back in: the parent is the only one left on frame 0, its entry still
    copy-on-write. *)
Definition parent_alone : state :=
  State [Process 1 [Some [PTE true true 1 true; zero_pte]; None]]
        (Process 0 [Some [PTE true false 0 true; zero_pte]; None])
        [1; 1; 0; 0].

(** After [alloc 0 w] ... [alloc 3 w] and the fork of process 1: every frame
    is shared by parent and child, none is free. *)
Definition forked_full : state :=
  State [Process 0 [Some [PTE true false 0 true; PTE true false 1 true];
                    Some [PTE true false 2 true; PTE true false 3 true]]]
        (Process 1 [Some [PTE true false 0 true; PTE true false 1 true];
                    Some [PTE true false 2 true; PTE true false 3 true]])
        [2; 2; 2; 2].

(** After [alloc 0 r]: page 0 is in frame 0, read-only. *)
Definition read_only_page : state :=
  State [] (Process 0 [Some [PTE true false 0 false; zero_pte]; None])
        [1; 0; 0; 0].

(** * Proofs *)

Section VM_facts.

Context {cfg : vm_config}.

(** ** The error monad and the array accesses *)

Lemma bind_Ok {A B} (m : result A) (f : A → result B) (b : B) :
  m ≫= f = Ok b ↔ ∃ a, m = Ok a ∧ f a = Ok b.
Proof.
  destruct m as [a|e]; simpl; split.
  - eauto.
  - by intros (a' & [= ->] & ?).
  - done.
  - by intros (a' & ? & ?).
Qed.

Lemma load_Ok {A} (a : list A) (i : Z) (x : A) :
  load a i = Ok x ↔ 0 ≤ i ∧ a !! Z.to_nat i = Some x.
Proof.
  unfold load. case_decide.
  - destruct (a !! Z.to_nat i) eqn:E; naive_solver.
  - naive_solver.
Qed.

Lemma load_nat {A} (a : list A) (i : nat) (x : A) :
  a !! i = Some x → load a (Z.of_nat i) = Ok x.
Proof. intros H. apply load_Ok. rewrite Nat2Z.id. split; [lia | done]. Qed.

Lemma load_in_range {A} (a : list A) (i : Z) :
  0 ≤ i < Z.of_nat (length a) → ∃ x, load a i = Ok x ∧ a !! Z.to_nat i = Some x.
Proof.
  intros Hi. destruct (lookup_lt_is_Some_2 a (Z.to_nat i)) as [x Hx]; [lia |].
  exists x. split; [| done]. apply load_Ok. split; [lia | done].
Qed.

Lemma store_Ok {A} (a a' : list A) (i : Z) (x : A) :
  store a i x = Ok a' ↔ 0 ≤ i < Z.of_nat (length a) ∧ a' = <[Z.to_nat i := x]> a.
Proof. unfold store. case_decide; naive_solver. Qed.

Lemma store_in_range {A} (a : list A) (i : Z) (x : A) :
  0 ≤ i < Z.of_nat (length a) → store a i x = Ok (<[Z.to_nat i := x]> a).
Proof. intros. by apply store_Ok. Qed.

Lemma to_uint_bounds (z : Z) : 0 ≤ to_uint z < 2 ^ 32.
Proof. unfold to_uint. apply Z.mod_pos_bound. lia. Qed.

Lemma to_uint_small (z : Z) : 0 ≤ z < 2 ^ 32 → to_uint z = z.
Proof. apply Z.mod_small. Qed.

Lemma to_uint_add_l (a b : Z) : to_uint (to_uint a + b) = to_uint (a + b).
Proof. unfold to_uint. apply Zplus_mod_idemp_l. Qed.

Lemma count_of_nat (mc : list Z) (f : nat) : count_of mc (Z.of_nat f) = mc !! f.
Proof. unfold count_of. rewrite decide_True by lia. by rewrite Nat2Z.id. Qed.

Lemma count_of_Some (mc : list Z) (f c : Z) :
  count_of mc f = Some c ↔ 0 ≤ f ∧ mc !! Z.to_nat f = Some c.
Proof. unfold count_of. case_decide; naive_solver. Qed.

Lemma count_of_load (mc : list Z) (f c : Z) :
  count_of mc f = Some c ↔ load mc f = Ok c.
Proof. by rewrite count_of_Some, load_Ok. Qed.

Lemma count_of_range (mc : list Z) (f c : Z) :
  count_of mc f = Some c → 0 ≤ f < Z.of_nat (length mc).
Proof.
  intros [? H]%count_of_Some. apply lookup_lt_Some in H. lia.
Qed.

Lemma count_of_insert (mc : list Z) (f g c : Z) :
  0 ≤ f < Z.of_nat (length mc) → 0 ≤ g →
  count_of (<[Z.to_nat f := c]> mc) g =
    if decide (g = f) then Some c else count_of mc g.
Proof.
  intros Hf Hg. unfold count_of. repeat case_decide; try lia.
  - subst g. apply list_lookup_insert_eq. lia.
  - apply list_lookup_insert_ne. lia.
Qed.

(** ** The indices of a page *)

Lemma indices_in_range (vpn : Z) :
  wf_config → in_address_space vpn →
  0 ≤ outer_index_of vpn < Z.of_nat NR_PTES_PER_PAGE ∧
  0 ≤ inner_index_of vpn < Z.of_nat NR_PTES_PER_PAGE.
Proof.
  intros [Hn _] [H0 H1]. unfold outer_index_of, inner_index_of. split.
  - split; [apply Z.div_pos; lia | apply Z.div_lt_upper_bound; lia].
  - apply Z.mod_pos_bound. lia.
Qed.

Lemma lookup_pte_Some (pt : pagetable) (vpn : Z) (e : pte) :
  wf_config → 0 ≤ vpn →
  lookup_pte pt vpn = Some e ↔
  ∃ dir, load pt (outer_index_of vpn) = Ok (Some dir) ∧
         load dir (inner_index_of vpn) = Ok e.
Proof.
  intros [Hn _] Hv. unfold lookup_pte. rewrite decide_True by done.
  assert (0 ≤ outer_index_of vpn) by (apply Z.div_pos; lia).
  assert (0 ≤ inner_index_of vpn) by (apply Z.mod_pos_bound; lia).
  setoid_rewrite load_Ok.
  destruct (pt !! Z.to_nat (outer_index_of vpn)) as [[dir|]|]; simpl;
    naive_solver.
Qed.

(** ** alloc_page *)

Lemma scan_free_spec (n : nat) (k : Z) (mc : list Z) :
  0 ≤ k → k + Z.of_nat n ≤ Z.of_nat (length mc) →
  ∃ r, scan_free n k mc = Ok r ∧ k ≤ r ≤ k + Z.of_nat n ∧
       (∀ g, k ≤ g < r → ¬ is_free mc g) ∧
       (r < k + Z.of_nat n → is_free mc r).
Proof.
  revert k. induction n as [|n IH]; intros k Hk Hlen.
  - exists k. simpl. repeat split; intros; lia.
  - destruct (load_in_range mc k) as (c & Hc & Hc'); [lia |].
    simpl. rewrite Hc. simpl. case_decide as E.
    + subst c. exists k. repeat split; try lia.
      intros _. apply count_of_Some. split; [lia | done].
    + destruct (IH (k + 1)) as (r & Hr & Hb & Hlow & Hfree); [lia | lia |].
      exists r. split; [done |]. split; [lia |]. split.
      * intros g Hg. destruct (decide (g = k)) as [-> | ?].
        -- unfold is_free. rewrite (proj2 (count_of_Some mc k c)); naive_solver.
        -- apply Hlow. lia.
      * intros ?. apply Hfree. lia.
Qed.

Lemma scan_free_least (mc : list Z) (f : Z) :
  length mc = NR_PAGEFRAMES → least_free mc f →
  scan_free NR_PAGEFRAMES 0 mc = Ok f.
Proof.
  intros Hlen [Hf Hlow].
  destruct (scan_free_spec NR_PAGEFRAMES 0 mc) as (r & Hr & Hb & Hl & Hfree);
    [lia | lia |].
  rewrite Hr. f_equal.
  pose proof (count_of_range _ _ _ Hf) as Hrange.
  destruct (Z.lt_trichotomy r f) as [? | [? | ?]]; [| done |].
  - exfalso. apply (Hlow r); [lia |]. apply Hfree. lia.
  - exfalso. apply (Hl f); [lia | done].
Qed.

Lemma scan_free_full (mc : list Z) :
  length mc = NR_PAGEFRAMES → (∀ g, ¬ is_free mc g) →
  scan_free NR_PAGEFRAMES 0 mc = Ok (Z.of_nat NR_PAGEFRAMES).
Proof.
  intros Hlen Hfull.
  destruct (scan_free_spec NR_PAGEFRAMES 0 mc) as (r & Hr & Hb & Hl & Hfree);
    [lia | lia |].
  rewrite Hr. f_equal.
  destruct (decide (r < Z.of_nat NR_PAGEFRAMES)) as [Hlt | ?]; [| lia].
  destruct (Hfull r). apply Hfree. lia.
Qed.

Lemma least_free_exists (mc : list Z) (g : Z) :
  is_free mc g → ∃ f, least_free mc f.
Proof.
  intros Hg. pose proof (count_of_range _ _ _ Hg) as Hrange.
  destruct (scan_free_spec (length mc) 0 mc) as (r & Hr & Hb & Hl & Hfree);
    [lia | lia |].
  assert (r < Z.of_nat (length mc)) as Hlt.
  { destruct (decide (r < Z.of_nat (length mc))); [done |].
    destruct (Hl g); [lia | done]. }
  exists r. split; [apply Hfree; lia | done].
Qed.

Lemma least_free_unique (mc : list Z) (f g : Z) :
  least_free mc f → least_free mc g → f = g.
Proof.
  intros [Hf Hlf] [Hg Hlg].
  pose proof (count_of_range _ _ _ Hf). pose proof (count_of_range _ _ _ Hg).
  destruct (Z.lt_trichotomy f g) as [? | [? | ?]]; [| done |].
  - destruct (Hlg f); [lia | done].
  - destruct (Hlf g); [lia | done].
Qed.

(** The call that finds a free frame, in full. *)
Lemma alloc_page_installs (fresh : pte_directory) (vpn rw : Z) (st : state)
    (f : Z) (slot : option pte_directory) (e : pte) :
  length (mapcounts st) = NR_PAGEFRAMES →
  least_free (mapcounts st) f →
  load (ptbr st) (outer_index_of vpn) = Ok slot →
  load (default fresh slot) (inner_index_of vpn) = Ok e →
  alloc_page fresh vpn rw st =
    Ok (f, set_mapcounts (<[Z.to_nat f := 1]> (mapcounts st))
             (set_ptbr (<[Z.to_nat (outer_index_of vpn) :=
                           Some (<[Z.to_nat (inner_index_of vpn) :=
                                     alloc_entry f rw e]> (default fresh slot))]>
                          (ptbr st)) st)).
Proof.
  intros Hlen Hf Hslot He. unfold alloc_page.
  rewrite (scan_free_least _ f Hlen Hf). simpl.
  pose proof (count_of_range _ _ _ (proj1 Hf)) as Hrange.
  rewrite decide_False by lia.
  rewrite Hslot. simpl. rewrite He. simpl.
  rewrite (proj1 (count_of_load _ _ _) (proj1 Hf)). simpl.
  rewrite (store_in_range _ _ _ Hrange). simpl.
  apply load_Ok in Hslot as [? Hslot%lookup_lt_Some].
  apply load_Ok in He as [? He%lookup_lt_Some].
  rewrite store_in_range by lia. simpl.
  rewrite store_in_range by lia. simpl.
  change (to_uint (0 + 1)) with 1. unfold alloc_entry.
  case_decide as Hrw; [| done].
  by rewrite bool_decide_true by lia.
Qed.

(** The call that finds none. *)
Lemma alloc_page_full (fresh : pte_directory) (vpn rw : Z) (st : state) :
  length (mapcounts st) = NR_PAGEFRAMES →
  (∀ g, ¬ is_free (mapcounts st) g) →
  alloc_page fresh vpn rw st = Ok (to_uint (-1), st).
Proof.
  intros Hlen Hfull. unfold alloc_page.
  rewrite (scan_free_full _ Hlen Hfull). simpl.
  by rewrite decide_True by lia.
Qed.

(** Whatever [alloc_page] returns, it is the out-of-memory value with the
    state untouched, or the lowest free frame. *)
Lemma alloc_page_inv (fresh : pte_directory) (vpn rw : Z) (st st' : state) (r : Z) :
  length (mapcounts st) = NR_PAGEFRAMES →
  alloc_page fresh vpn rw st = Ok (r, st') →
  (r = to_uint (-1) ∧ st' = st ∧ ∀ g, ¬ is_free (mapcounts st) g) ∨
  least_free (mapcounts st) r.
Proof.
  intros Hlen. unfold alloc_page.
  destruct (scan_free_spec NR_PAGEFRAMES 0 (mapcounts st))
    as (r0 & Hr & Hb & Hl & Hfree); [lia | lia |].
  rewrite Hr. simpl. case_decide as Hfull.
  - intros [= <- <-]. left. repeat split.
    intros g Hg. pose proof (count_of_range _ _ _ Hg).
    apply (Hl g); [lia | done].
  - intros H. right.
    repeat (apply bind_Ok in H as (? & _ & H)).
    injection H as <- _. split; [apply Hfree; lia |].
    intros g Hg. apply Hl. lia.
Qed.

(** ** handle_page_fault *)

(** The function once the directory of [vpn] is there. *)
Lemma handle_page_fault_present (fresh : pte_directory) (vpn rw : Z)
    (st : state) (dir : pte_directory) (e : pte) :
  load (ptbr st) (outer_index_of vpn) = Ok (Some dir) →
  load dir (inner_index_of vpn) = Ok e →
  handle_page_fault fresh vpn rw st =
    if negb (valid e) then Ok (Some false, st)
    else if decide (rw = RW_WRITE ∧ writable e = false ∧ private e = false)
    then Ok (Some false, st)
    else if private e then
      c ← load (mapcounts st) (pfn e);
      if decide (1 < c) then
        mc ← store (mapcounts st) (pfn e) (to_uint (c - 1));
        '(_, st') ← alloc_page fresh vpn RW_WRITE (set_mapcounts mc st);
        Ok (Some true, st')
      else if decide (c = 1) then
        Ok (Some true,
            set_ptbr (<[Z.to_nat (outer_index_of vpn) :=
                          Some (<[Z.to_nat (inner_index_of vpn) :=
                                    set_writable true e]> dir)]> (ptbr st)) st)
      else Ok (None, st)
    else Ok (None, st).
Proof.
  intros Hdir He. unfold handle_page_fault.
  rewrite Hdir. simpl. rewrite He. simpl.
  destruct (valid e); simpl; [| done].
  case_decide; [done |].
  destruct (private e); [| done].
  destruct (load (mapcounts st) (pfn e)) as [c|]; simpl; [| done].
  case_decide; [done |]. case_decide; [| done].
  apply load_Ok in Hdir as [? Hdir%lookup_lt_Some].
  apply load_Ok in He as [? He%lookup_lt_Some].
  rewrite store_in_range by lia. simpl.
  by rewrite store_in_range by lia.
Qed.

(** The first statement of the function reads through the directory
    pointer, whatever it is. *)
Lemma handle_page_fault_absent (fresh : pte_directory) (vpn rw : Z) (st : state) :
  load (ptbr st) (outer_index_of vpn) = Ok None →
  handle_page_fault fresh vpn rw st = Err NullDereference.
Proof. intros H. unfold handle_page_fault. by rewrite H. Qed.

(** A table with another entry for [vpn]. *)
Lemma lookup_pte_insert (pt : pagetable) (dir : pte_directory) (vpn : Z) (x : pte) :
  wf_config → 0 ≤ vpn →
  (Z.to_nat (outer_index_of vpn) < length pt)%nat →
  (Z.to_nat (inner_index_of vpn) < length dir)%nat →
  lookup_pte (<[Z.to_nat (outer_index_of vpn) :=
                 Some (<[Z.to_nat (inner_index_of vpn) := x]> dir)]> pt) vpn
  = Some x.
Proof.
  intros Hc Hv Ho Hi. unfold lookup_pte. rewrite decide_True by done.
  rewrite list_lookup_insert_eq by done. simpl.
  by rewrite list_lookup_insert_eq.
Qed.

Lemma vpn_of_indices (vpn vpn' : Z) :
  wf_config →
  outer_index_of vpn = outer_index_of vpn' →
  inner_index_of vpn = inner_index_of vpn' →
  vpn = vpn'.
Proof.
  intros [Hn _]. unfold outer_index_of, inner_index_of. intros Ho Hi.
  rewrite (Z.div_mod vpn (Z.of_nat NR_PTES_PER_PAGE)) by lia.
  rewrite (Z.div_mod vpn' (Z.of_nat NR_PTES_PER_PAGE)) by lia.
  by rewrite Ho, Hi.
Qed.

Lemma lookup_pte_insert_ne (pt : pagetable) (dir : pte_directory)
    (vpn vpn' : Z) (x : pte) :
  wf_config → 0 ≤ vpn → 0 ≤ vpn' → vpn ≠ vpn' →
  pt !! Z.to_nat (outer_index_of vpn) = Some (Some dir) →
  lookup_pte (<[Z.to_nat (outer_index_of vpn) :=
                 Some (<[Z.to_nat (inner_index_of vpn) := x]> dir)]> pt) vpn'
  = lookup_pte pt vpn'.
Proof.
  intros Hc Hv Hv' Hne Hdir. unfold lookup_pte. rewrite !decide_True by done.
  assert (0 ≤ outer_index_of vpn ∧ 0 ≤ outer_index_of vpn' ∧
          0 ≤ inner_index_of vpn ∧ 0 ≤ inner_index_of vpn') as (? & ? & ? & ?).
  { destruct Hc as [Hn _]. unfold outer_index_of, inner_index_of.
    repeat split; try (apply Z.div_pos; lia); apply Z.mod_pos_bound; lia. }
  destruct (decide (outer_index_of vpn = outer_index_of vpn')) as [Eo | Eo].
  - rewrite <- Eo. rewrite list_lookup_insert_eq by by eapply lookup_lt_Some.
    rewrite Hdir. simpl. apply list_lookup_insert_ne.
    intros Ei%Z2Nat.inj; [| done | done].
    by destruct Hne; apply vpn_of_indices.
  - rewrite list_lookup_insert_ne; [done |].
    intros E%Z2Nat.inj; done.
Qed.

(** With the directory there, [false] comes back for an invalid entry and
    for a write to an entry that is neither writable nor copy-on-write, and
    for nothing else. *)
Lemma handle_page_fault_false_iff (fresh : pte_directory) (vpn rw : Z)
    (st : state) (dir : pte_directory) (e : pte) :
  load (ptbr st) (outer_index_of vpn) = Ok (Some dir) →
  load dir (inner_index_of vpn) = Ok e →
  (∃ st', handle_page_fault fresh vpn rw st = Ok (Some false, st')) ↔
  valid e = false ∨ (rw = RW_WRITE ∧ writable e = false ∧ private e = false).
Proof.
  intros Hdir He. rewrite (handle_page_fault_present _ _ _ _ _ _ Hdir He).
  destruct (valid e); simpl; [| naive_solver].
  case_decide as Hw; [naive_solver |].
  split; [| naive_solver]. intros [st' Hst']. exfalso.
  destruct (private e); [| done].
  apply bind_Ok in Hst' as (c & _ & Hst').
  case_decide.
  - apply bind_Ok in Hst' as (mc & _ & Hst').
    apply bind_Ok in Hst' as ([] & _ & Hst'). done.
  - by case_decide.
Qed.

(** A write to a valid, writable entry that is not copy-on-write runs off
    the end of the function. *)
Lemma handle_page_fault_no_return (fresh : pte_directory) (vpn rw : Z)
    (st : state) (e : pte) :
  wf_config →
  lookup_pte (ptbr st) vpn = Some e →
  valid e = true → writable e = true → private e = false →
  handle_page_fault fresh vpn rw st = Ok (None, st).
Proof.
  intros Hc He Hv Hw Hp.
  assert (0 ≤ vpn) as H0.
  { unfold lookup_pte in He. by case_decide. }
  apply lookup_pte_Some in He as (dir & Hdir & He); [| done | done].
  rewrite (handle_page_fault_present _ _ _ _ _ _ Hdir He).
  rewrite Hv, Hp. simpl. rewrite decide_False; [done |].
  rewrite Hw. naive_solver.
Qed.

(** The break of a shared copy-on-write page when a frame is free, in full.
    The function does not look at [rw] here. *)
Lemma handle_page_fault_shared (fresh : pte_directory) (vpn rw : Z) (st : state)
    (dir : pte_directory) (e : pte) (c f : Z) :
  length (mapcounts st) = NR_PAGEFRAMES →
  load (ptbr st) (outer_index_of vpn) = Ok (Some dir) →
  load dir (inner_index_of vpn) = Ok e →
  valid e = true → private e = true →
  count_of (mapcounts st) (pfn e) = Some c → 1 < c < 2 ^ 32 →
  least_free (mapcounts st) f →
  f ≠ pfn e ∧
  handle_page_fault fresh vpn rw st =
    Ok (Some true,
        State (processes st)
          (Process (pid (current st))
             (<[Z.to_nat (outer_index_of vpn) :=
                  Some (<[Z.to_nat (inner_index_of vpn) :=
                            alloc_entry f RW_WRITE e]> dir)]> (ptbr st)))
          (<[Z.to_nat f := 1]> (<[Z.to_nat (pfn e) := c - 1]> (mapcounts st)))).
Proof.
  intros Hlen Hdir He Hv Hp Hcnt Hshared [Hf Hlow].
  pose proof (count_of_range _ _ _ Hcnt) as Hrange.
  pose proof (count_of_range _ _ _ Hf) as Hfrange.
  assert (f ≠ pfn e) as Hne.
  { intros ->. unfold is_free in Hf. rewrite Hcnt in Hf. naive_solver lia. }
  split; [done |].
  set (mc1 := <[Z.to_nat (pfn e) := c - 1]> (mapcounts st)).
  assert (least_free mc1 f) as Hleast.
  { split.
    - unfold is_free, mc1. rewrite count_of_insert by lia.
      by rewrite decide_False.
    - intros g Hg. unfold is_free, mc1. rewrite count_of_insert by lia.
      case_decide; [naive_solver lia | by apply Hlow]. }
  rewrite (handle_page_fault_present _ _ _ _ _ _ Hdir He).
  rewrite Hv, Hp. simpl. rewrite decide_False by naive_solver.
  rewrite (proj1 (count_of_load _ _ _) Hcnt). simpl.
  rewrite decide_True by lia. rewrite (store_in_range _ _ _ Hrange). simpl.
  rewrite to_uint_small by lia. fold mc1.
  erewrite (alloc_page_installs fresh vpn RW_WRITE (set_mapcounts mc1 st) f (Some dir) e);
    [reflexivity | | done | done | done].
  simpl. unfold mc1. by rewrite length_insert.
Qed.

(** What the break of a shared page changes and what it leaves. *)
Lemma cow_break_shared (fresh : pte_directory) (vpn : Z) (st : state)
    (e : pte) (c f : Z) :
  wf_config → wf_state st →
  lookup_pte (ptbr st) vpn = Some e →
  valid e = true → private e = true →
  count_of (mapcounts st) (pfn e) = Some c → 1 < c →
  least_free (mapcounts st) f →
  ∃ st',
    handle_page_fault fresh vpn RW_WRITE st = Ok (Some true, st') ∧
    f ≠ pfn e ∧
    count_of (mapcounts st') (pfn e) = Some (c - 1) ∧
    count_of (mapcounts st') f = Some 1 ∧
    (∀ g, g ≠ pfn e → g ≠ f →
          count_of (mapcounts st') g = count_of (mapcounts st) g) ∧
    lookup_pte (ptbr st') vpn = Some (PTE true true f true) ∧
    (∀ vpn', vpn' ≠ vpn →
          lookup_pte (ptbr st') vpn' = lookup_pte (ptbr st) vpn') ∧
    processes st' = processes st ∧
    pid (current st') = pid (current st).
Proof.
  intros Hc (Hlen & Hty & _) He Hv Hp Hcnt Hshared Hf.
  assert (0 ≤ vpn) as H0.
  { unfold lookup_pte in He. by case_decide. }
  apply lookup_pte_Some in He as (dir & Hdir & He); [| done | done].
  pose proof (count_of_range _ _ _ Hcnt) as Hrange.
  pose proof (count_of_range _ _ _ (proj1 Hf)) as Hfrange.
  assert (c < 2 ^ 32) as Hty'.
  { apply count_of_Some in Hcnt as [_ Hcnt].
    apply (Forall_lookup_1 _ _ _ _ Hty Hcnt). }
  destruct (handle_page_fault_shared fresh vpn RW_WRITE st dir e c f)
    as [Hne Hrun]; try done.
  eexists. split; [exact Hrun |].
  apply load_Ok in Hdir as [? Hdir]. apply load_Ok in He as [? He].
  pose proof (lookup_lt_Some _ _ _ Hdir). pose proof (lookup_lt_Some _ _ _ He).
  simpl. split; [done |]. split.
  { rewrite count_of_insert by (rewrite ?length_insert; lia).
    rewrite decide_False by done.
    rewrite count_of_insert by lia. by rewrite decide_True. }
  split.
  { rewrite count_of_insert by (rewrite ?length_insert; lia).
    by rewrite decide_True. }
  split.
  { intros g Hg1 Hg2. destruct (decide (0 ≤ g)) as [Hg | Hg].
    - rewrite count_of_insert by (rewrite ?length_insert; lia).
      rewrite decide_False by done.
      rewrite count_of_insert by lia. by rewrite decide_False.
    - unfold count_of. by rewrite !decide_False. }
  split.
  { unfold ptbr. simpl. rewrite lookup_pte_insert by done.
    unfold alloc_entry, RW_WRITE. rewrite decide_True by lia.
    unfold set_writable, set_pfn, set_valid. simpl. by rewrite Hp. }
  split; [| done].
  intros vpn' Hne'. unfold ptbr. simpl. unfold lookup_pte at 2.
  case_decide as Hv'.
  - rewrite lookup_pte_insert_ne; try done.
    unfold lookup_pte. by rewrite decide_True.
  - unfold lookup_pte. by rewrite decide_False.
Qed.

(** The break by the last sharer. *)
Lemma cow_break_last (fresh : pte_directory) (vpn : Z) (st : state) (e : pte) :
  wf_config →
  lookup_pte (ptbr st) vpn = Some e →
  valid e = true → private e = true →
  count_of (mapcounts st) (pfn e) = Some 1 →
  ∃ st',
    handle_page_fault fresh vpn RW_WRITE st = Ok (Some true, st') ∧
    mapcounts st' = mapcounts st ∧
    lookup_pte (ptbr st') vpn = Some (set_writable true e) ∧
    (∀ vpn', vpn' ≠ vpn →
          lookup_pte (ptbr st') vpn' = lookup_pte (ptbr st) vpn') ∧
    processes st' = processes st ∧
    pid (current st') = pid (current st).
Proof.
  intros Hc He Hv Hp Hcnt.
  assert (0 ≤ vpn) as H0.
  { unfold lookup_pte in He. by case_decide. }
  apply lookup_pte_Some in He as (dir & Hdir & He); [| done | done].
  eexists. split.
  { rewrite (handle_page_fault_present _ _ _ _ _ _ Hdir He).
    rewrite Hv, Hp. simpl. rewrite decide_False by naive_solver.
    rewrite (proj1 (count_of_load _ _ _) Hcnt). reflexivity. }
  apply load_Ok in Hdir as [? Hdir]. apply load_Ok in He as [? He].
  pose proof (lookup_lt_Some _ _ _ Hdir). pose proof (lookup_lt_Some _ _ _ He).
  simpl. split; [done |]. split.
  { unfold ptbr. simpl. by rewrite lookup_pte_insert. }
  split; [| done].
  intros vpn' Hne'. unfold ptbr. simpl. unfold lookup_pte at 2.
  case_decide as Hv'.
  - rewrite lookup_pte_insert_ne; try done.
    unfold lookup_pte. by rewrite decide_True.
  - unfold lookup_pte. by rewrite decide_False.
Qed.

(** ** switch_process *)

Lemma load_middle {A} (l1 l2 : list A) (x : A) :
  load (l1 ++ x :: l2) (Z.of_nat (length l1)) = Ok x.
Proof. apply load_nat. by apply list_lookup_middle. Qed.

Lemma store_middle {A} (l1 l2 : list A) (x y : A) :
  store (l1 ++ x :: l2) (Z.of_nat (length l1)) y = Ok (l1 ++ y :: l2).
Proof.
  rewrite store_in_range by (rewrite length_app; simpl; lia).
  rewrite Nat2Z.id. f_equal.
  rewrite <- (Nat.add_0_r (length l1)) at 1. by rewrite insert_app_r.
Qed.

Lemma length_bump (mc : list Z) (p : pte) : length (bump mc p) = length mc.
Proof.
  unfold bump. destruct (valid p); [| done].
  destruct (mc !! _); [| done]. by rewrite length_insert.
Qed.

Lemma length_foldl_bump (dir : pte_directory) (mc : list Z) :
  length (foldl bump mc dir) = length mc.
Proof.
  revert mc. induction dir as [|p dir IH]; intros mc; simpl; [done |].
  by rewrite IH, length_bump.
Qed.

(** The loop over [j] from the entry after [P1] on. *)
Lemma fork_ptes_spec (P2 : pte_directory) :
  ∀ (P1 C1 C2 : pte_directory) (mc : list Z),
  length C1 = length P1 → length C2 = length P2 →
  frames_in_range (length mc) P2 →
  fork_ptes (length P2) (Z.of_nat (length P1)) (P1 ++ P2) (C1 ++ C2) mc =
  Ok (P1 ++ (cow_parent <$> P2), C1 ++ zip_with cow_child P2 C2, foldl bump mc P2).
Proof.
  induction P2 as [|p P2 IH]; intros P1 C1 C2 mc HC1 HC2 Hrange.
  - destruct C2; [| done]. simpl. by rewrite !app_nil_r.
  - destruct C2 as [|c C2]; [done |]. simpl in HC2.
    apply Forall_cons in Hrange as [Hp Hrange].
    assert (∀ x y mc', length mc' = length mc →
              fork_ptes (length P2) (Z.of_nat (length P1) + 1)
                (P1 ++ x :: P2) (C1 ++ y :: C2) mc' =
              Ok (P1 ++ x :: (cow_parent <$> P2),
                  C1 ++ y :: zip_with cow_child P2 C2, foldl bump mc' P2)) as Hnext.
    { intros x y mc' Hmc'.
      replace (Z.of_nat (length P1) + 1) with (Z.of_nat (length (P1 ++ [x])))
        by (rewrite length_app; simpl; lia).
      rewrite (cons_middle x P1 P2), (cons_middle y C1 C2), !app_assoc.
      rewrite IH; [by rewrite <- !app_assoc | | lia |].
      - rewrite !length_app. simpl. lia.
      - unfold frames_in_range. by rewrite Hmc'. }
    simpl fork_ptes. rewrite load_middle. simpl.
    unfold cow_parent, cow_child, bump.
    destruct (valid p) eqn:Hv; simpl; [| by apply Hnext].
    destruct (load_in_range mc (pfn p)) as (k & Hk & Hk'); [by apply Hp |].
    rewrite Hk'.
    destruct (writable p || private p) eqn:Hw; simpl.
    + rewrite store_middle. simpl. rewrite <- HC1.
      rewrite load_middle. simpl. rewrite store_middle. simpl.
      rewrite load_middle. simpl. rewrite store_middle. simpl.
      rewrite Hk. simpl. rewrite store_in_range by (by apply Hp). simpl.
      rewrite HC1. apply Hnext. by rewrite length_insert.
    + rewrite <- HC1.
      rewrite load_middle. simpl. rewrite store_middle. simpl.
      rewrite Hk. simpl. rewrite store_in_range by (by apply Hp). simpl.
      rewrite HC1. apply Hnext. by rewrite length_insert.
Qed.

(** The loop over [i] from the slot after [T1] on. *)
Lemma fork_dirs_spec (fresh : Z → pte_directory) (T2 : pagetable) :
  ∀ (T1 D1 D2 : pagetable) (mc : list Z),
  length D1 = length T1 → length D2 = length T2 →
  Forall (from_option wf_directory True) T2 →
  (∀ i, wf_directory (fresh i)) →
  table_in_range (length mc) T2 →
  fork_dirs fresh (length T2) (Z.of_nat (length T1)) (T1 ++ T2) (D1 ++ D2) mc =
  Ok (T1 ++ fork_parent T2,
      D1 ++ fork_child fresh (Z.of_nat (length T1)) T2 D2,
      foldl bump_slot mc T2).
Proof.
  induction T2 as [|slot T2 IH]; intros T1 D1 D2 mc HD1 HD2 Hwf Hfresh Hrange.
  - destruct D2; [| done]. simpl. by rewrite !app_nil_r.
  - destruct D2 as [|cslot D2]; [done |]. simpl in HD2.
    apply Forall_cons in Hwf as [Hdir Hwf].
    apply Forall_cons in Hrange as [Hp Hrange].
    assert (∀ x y mc', length mc' = length mc →
              fork_dirs fresh (length T2) (Z.of_nat (length T1) + 1)
                (T1 ++ x :: T2) (D1 ++ y :: D2) mc' =
              Ok (T1 ++ x :: fork_parent T2,
                  D1 ++ y :: fork_child fresh (Z.of_nat (length T1) + 1) T2 D2,
                  foldl bump_slot mc' T2)) as Hnext.
    { intros x y mc' Hmc'.
      replace (Z.of_nat (length T1) + 1) with (Z.of_nat (length (T1 ++ [x])))
        by (rewrite length_app; simpl; lia).
      rewrite (cons_middle x T1 T2), (cons_middle y D1 D2), !app_assoc.
      rewrite IH; [by rewrite <- !app_assoc | | lia | done | done |].
      - rewrite !length_app. simpl. lia.
      - unfold table_in_range. by rewrite Hmc'. }
    simpl fork_dirs. rewrite load_middle. simpl.
    destruct slot as [pdir|]; simpl; [| by apply Hnext].
    simpl in Hdir, Hp. unfold wf_directory in Hdir. rewrite <- Hdir.
    pose proof (fork_ptes_spec pdir [] [] (fresh (Z.of_nat (length T1))) mc) as Hin.
    simpl in Hin. change (Z.of_nat 0) with 0 in Hin.
    rewrite Hin; [| done | by rewrite Hfresh | done].
    simpl. rewrite store_middle. simpl. rewrite <- HD1.
    rewrite store_middle. simpl. rewrite HD1.
    apply Hnext. apply length_foldl_bump.
Qed.

Lemma find_process_None (target : Z) (k : nat) (l : list process) :
  find_process target k l = None ↔ ∀ p, p ∈ l → pid p ≠ target.
Proof.
  revert k. induction l as [|q l IH]; intros k; simpl.
  - split; [| done]. by intros _ p ?%elem_of_nil.
  - case_decide as E.
    + split; [done |]. intros Hall. destruct (Hall q); [left | done].
    + rewrite IH. split.
      * intros Hall p [-> | ?]%elem_of_cons; [done | by apply Hall].
      * intros Hall p ?. apply Hall. by right.
Qed.

(** The fork in one step. *)
Lemma switch_process_fork (child : process) (fresh : Z → pte_directory)
    (target : Z) (st : state) :
  find_process target 0 (processes st) = None →
  wf_pagetable (ptbr st) →
  length (pagetable_of child) = NR_PTES_PER_PAGE →
  (∀ i, wf_directory (fresh i)) →
  table_in_range (length (mapcounts st)) (ptbr st) →
  switch_process child fresh target st =
  Ok (State (processes st ++ [Process (pid (current st)) (fork_parent (ptbr st))])
            (Process target (fork_child fresh 0 (ptbr st) (pagetable_of child)))
            (foldl bump_slot (mapcounts st) (ptbr st))).
Proof.
  intros Hfind [Hlen Hwf] Hchild Hfresh Hrange. unfold switch_process.
  rewrite Hfind. rewrite <- Hlen.
  pose proof (fork_dirs_spec fresh (ptbr st) [] [] (pagetable_of child)
                (mapcounts st)) as Hloop.
  simpl in Hloop. change (Z.of_nat 0) with 0 in Hloop.
  rewrite Hloop; [done | done | lia | done | done | done].
Qed.

(** The switch to a process of the ready list. *)
Lemma switch_process_found (child : process) (fresh : Z → pte_directory)
    (target : Z) (st : state) (k : nat) (temp : process) :
  find_process target 0 (processes st) = Some (k, temp) →
  switch_process child fresh target st =
  Ok (State (delete k (processes st ++ [current st])) temp (mapcounts st)).
Proof. intros Hfind. unfold switch_process. by rewrite Hfind. Qed.

Lemma lookup_pte_fork_parent (pt : pagetable) (vpn : Z) :
  lookup_pte (fork_parent pt) vpn = cow_parent <$> lookup_pte pt vpn.
Proof.
  unfold lookup_pte, fork_parent. case_decide; [| done].
  rewrite list_lookup_fmap.
  destruct (pt !! Z.to_nat (outer_index_of vpn)) as [[dir|]|]; simpl; try done.
  by rewrite list_lookup_fmap.
Qed.

Lemma fork_child_lookup (fresh : Z → pte_directory) (pt : pagetable) :
  ∀ (k : Z) (ct : pagetable) (j : nat),
  length ct = length pt →
  fork_child fresh k pt ct !! j =
    match pt !! j with
    | Some (Some pdir) =>
        Some (Some (zip_with cow_child pdir (fresh (k + Z.of_nat j))))
    | Some None => ct !! j
    | None => None
    end.
Proof.
  induction pt as [|slot pt IH]; intros k ct j Hlen.
  - by destruct ct.
  - destruct ct as [|cslot ct]; [done |]. simpl in Hlen.
    destruct j as [|j]; simpl.
    + destruct slot; [| done]. by rewrite Z.add_0_r.
    + rewrite IH by lia.
      by replace (k + 1 + Z.of_nat j) with (k + Z.pos (Pos.of_succ_nat j)) by lia.
Qed.

Lemma lookup_pte_fork_child (fresh : Z → pte_directory) (pt ct : pagetable)
    (vpn : Z) (e c : pte) :
  wf_config →
  length ct = length pt →
  lookup_pte pt vpn = Some e →
  fresh (outer_index_of vpn) !! Z.to_nat (inner_index_of vpn) = Some c →
  lookup_pte (fork_child fresh 0 pt ct) vpn = Some (cow_child e c).
Proof.
  intros [Hn _] Hlen He Hc. unfold lookup_pte in *.
  case_decide as Hv; [| done].
  assert (0 ≤ outer_index_of vpn) by (apply Z.div_pos; lia).
  rewrite fork_child_lookup by done.
  destruct (pt !! Z.to_nat (outer_index_of vpn)) as [[dir|]|]; simpl in *;
    try done.
  rewrite Z.add_0_l, Z2Nat.id by done.
  rewrite lookup_zip_with, He. simpl. by rewrite Hc.
Qed.

(** The share counts after the increments for a directory. *)
Lemma count_of_foldl_bump (dir : pte_directory) :
  ∀ (mc : list Z) (f c : Z),
  frames_in_range (length mc) dir →
  count_of mc f = Some c → 0 ≤ c < 2 ^ 32 →
  count_of (foldl bump mc dir) f = Some (to_uint (c + Z.of_nat (refs_dir f dir))).
Proof.
  induction dir as [|p dir IH]; intros mc f c Hrange Hc Hty; simpl.
  - rewrite Hc. f_equal. rewrite Z.add_0_r. by rewrite to_uint_small.
  - apply Forall_cons in Hrange as [Hp Hrange].
    assert (frames_in_range (length (bump mc p)) dir) as Hrange'
      by by rewrite length_bump.
    unfold refers, bump in *. destruct (valid p) eqn:Hv; simpl.
    + destruct (load_in_range mc (pfn p)) as (k & _ & Hk); [by apply Hp |].
      rewrite Hk in *.
      pose proof (count_of_range _ _ _ Hc) as Hf.
      case_bool_decide as E.
      * subst f. apply count_of_Some in Hc as [_ Hc]. simplify_eq.
        rewrite (IH _ (pfn p) (to_uint (c + 1))); [| done | | apply to_uint_bounds].
        2:{ rewrite count_of_insert by lia. by rewrite decide_True. }
        f_equal. rewrite !to_uint_add_l. f_equal. lia.
      * rewrite (IH _ f c); [done | done | | done].
        rewrite count_of_insert by lia. by rewrite decide_False.
    + by rewrite (IH _ f c).
Qed.

Lemma length_foldl_bump_slot (pt : pagetable) (mc : list Z) :
  length (foldl bump_slot mc pt) = length mc.
Proof.
  revert mc. induction pt as [|slot pt IH]; intros mc; simpl; [done |].
  rewrite IH. destruct slot; simpl; [apply length_foldl_bump | done].
Qed.

(** The share counts after the fork of a table. *)
Lemma count_of_foldl_bump_slot (pt : pagetable) :
  ∀ (mc : list Z) (f c : Z),
  table_in_range (length mc) pt →
  count_of mc f = Some c → 0 ≤ c < 2 ^ 32 →
  count_of (foldl bump_slot mc pt) f =
    Some (to_uint (c + Z.of_nat (refs_table f pt))).
Proof.
  induction pt as [|slot pt IH]; intros mc f c Hrange Hc Hty; simpl.
  - rewrite Hc. f_equal. rewrite Z.add_0_r. by rewrite to_uint_small.
  - apply Forall_cons in Hrange as [Hp Hrange].
    destruct slot as [dir|]; simpl in *.
    + rewrite (IH _ f (to_uint (c + Z.of_nat (refs_dir f dir))));
        [| by rewrite length_foldl_bump
         | by apply count_of_foldl_bump | apply to_uint_bounds].
      f_equal. rewrite !to_uint_add_l. f_equal. lia.
    + by rewrite (IH _ f c).
Qed.

(** ** free_page *)

Lemma free_page_present (vpn : Z) (st : state) (dir : pte_directory) (e : pte) (c : Z) :
  load (ptbr st) (outer_index_of vpn) = Ok (Some dir) →
  load dir (inner_index_of vpn) = Ok e →
  count_of (mapcounts st) (pfn e) = Some c →
  free_page vpn st =
    Ok (set_mapcounts (<[Z.to_nat (pfn e) := to_uint (c - 1)]> (mapcounts st))
          (set_ptbr (<[Z.to_nat (outer_index_of vpn) :=
                        Some (<[Z.to_nat (inner_index_of vpn) :=
                                  PTE false false 0 (private e)]> dir)]>
                       (ptbr st)) st)).
Proof.
  intros Hdir He Hcnt. unfold free_page.
  rewrite Hdir. simpl. rewrite He. simpl.
  pose proof (count_of_range _ _ _ Hcnt) as Hrange.
  apply count_of_load in Hcnt.
  apply load_Ok in Hdir as [? Hdir%lookup_lt_Some].
  apply load_Ok in He as [? He%lookup_lt_Some].
  rewrite store_in_range by lia. simpl.
  rewrite store_in_range by lia. simpl.
  rewrite Hcnt. simpl. by rewrite (store_in_range _ _ _ Hrange).
Qed.

(** ** The two checks of share-count conservation *)

Lemma counts_match_refs_spec (st : state) :
  counts_match_refs st = true ↔
  ∀ f c, count_of (mapcounts st) f = Some c → c = Z.of_nat (refs f st).
Proof.
  unfold counts_match_refs. rewrite forallb_forall. split.
  - intros Hall f c Hc. pose proof (count_of_range _ _ _ Hc) as Hf.
    apply count_of_Some in Hc as [_ Hc].
    specialize (Hall (Z.to_nat f)). rewrite Z2Nat.id in Hall by lia.
    apply bool_decide_eq_true in Hall; [congruence |].
    apply in_seq. lia.
  - intros Hall f [_ Hf]%in_seq. simpl in Hf.
    apply bool_decide_eq_true.
    destruct (lookup_lt_is_Some_2 (mapcounts st) f) as [c Hc]; [done |].
    rewrite Hc. f_equal. apply Hall. by rewrite count_of_nat.
Qed.

Lemma counts_sum_to_valid_spec (st : state) :
  counts_sum_to_valid st = true ↔
  sum_counts (mapcounts st) = Z.of_nat (valid_ptes st).
Proof. unfold counts_sum_to_valid. apply bool_decide_eq_true. Qed.

(** ** Where the code keeps the share counts right *)

Lemma sum_list_with_insert {A} (h : A → nat) (l : list A) (i : nat) (x y : A) :
  l !! i = Some x →
  (sum_list_with h (<[i:=y]> l) + h x = sum_list_with h l + h y)%nat.
Proof.
  revert i. induction l as [|z l IH]; intros [|i] Hi; simplify_eq/=.
  - lia.
  - specialize (IH i Hi). lia.
Qed.

Lemma sum_list_with_delete {A} (h : A → nat) (l : list A) (i : nat) (x : A) :
  l !! i = Some x →
  (sum_list_with h (delete i l) + h x = sum_list_with h l)%nat.
Proof.
  revert i. induction l as [|z l IH]; intros [|i] Hi; simplify_eq/=.
  - lia.
  - specialize (IH i Hi). lia.
Qed.

(** The references of a table with the entry [e] of a page replaced by [x].
    The directory may be one made for the occasion, which then has no valid
    entry. *)
Lemma refs_table_update (g : Z) (pt : pagetable) (o i : nat)
    (slot : option pte_directory) (fresh : pte_directory) (e x : pte) :
  pt !! o = Some slot →
  (slot = None → refs_dir g fresh = 0%nat) →
  default fresh slot !! i = Some e →
  (refs_table g (<[o := Some (<[i := x]> (default fresh slot))]> pt)
   + (if refers g e then 1 else 0)
   = refs_table g pt + (if refers g x then 1 else 0))%nat.
Proof.
  intros Hslot Hfresh He. unfold refs_table.
  pose proof (sum_list_with_insert (λ slot, from_option (refs_dir g) 0%nat slot)
                pt o slot (Some (<[i := x]> (default fresh slot))) Hslot) as H1.
  assert (refs_dir g (<[i := x]> (default fresh slot))
          + (if refers g e then 1 else 0)
          = refs_dir g (default fresh slot) + (if refers g x then 1 else 0))%nat
    as H2
    by exact (sum_list_with_insert (λ e, if refers g e then 1%nat else 0%nat)
                _ i e x He).
  assert (from_option (refs_dir g) 0%nat slot = refs_dir g (default fresh slot))
    as H3 by (destruct slot; simpl; [done | symmetry; by apply Hfresh]).
  simpl in H1. rewrite H3 in H1.
  destruct (refers g e), (refers g x); lia.
Qed.

Lemma refs_dir_zero_directory (g : Z) : refs_dir g zero_directory = 0%nat.
Proof.
  unfold zero_directory, refs_dir.
  induction NR_PTES_PER_PAGE as [|n IH]; simpl; [done | by rewrite IH].
Qed.

Lemma zero_directory_in_range (m : nat) : frames_in_range m zero_directory.
Proof. apply Forall_replicate. by intros ?%Is_true_true. Qed.

(** The state after a change of one entry of the running process and of
    the share counts is consistent, when the counts follow the entry. *)
Lemma consistent_update (st : state) (o i : nat) (slot : option pte_directory)
    (e x : pte) (mc' : list Z) :
  consistent st →
  ptbr st !! o = Some slot →
  default zero_directory slot !! i = Some e →
  (valid x = true → 0 ≤ pfn x < Z.of_nat NR_PAGEFRAMES) →
  length mc' = NR_PAGEFRAMES →
  Forall (λ c, 0 ≤ c < 2 ^ 32) mc' →
  (∀ g c', count_of mc' g = Some c' →
     ∃ c, count_of (mapcounts st) g = Some c ∧
          c' + (if refers g e then 1 else 0) = c + (if refers g x then 1 else 0)) →
  consistent
    (State (processes st)
       (Process (pid (current st))
          (<[o := Some (<[i := x]> (default zero_directory slot))]> (ptbr st)))
       mc').
Proof.
  unfold consistent, wf_state, wf_pagetable, refs, ptbr. simpl.
  intros ((Hlen & Hty & [Hptlen Hpt] & Hprocs) & Hrange & Hrprocs & Hcount)
    Hslot He Hx Hlen' Hty' Hmc'.
  assert (from_option wf_directory True slot) as Hwfslot
    by apply (Forall_lookup_1 _ _ _ _ Hpt Hslot).
  assert (from_option (frames_in_range NR_PAGEFRAMES) True slot) as Hrslot
    by apply (Forall_lookup_1 _ _ _ _ Hrange Hslot).
  split; [| split; [| split]].
  - repeat split; try done.
    + by rewrite length_insert.
    + apply Forall_insert; [done |]. simpl. unfold wf_directory.
      rewrite length_insert. destruct slot; simpl; [done |].
      apply length_replicate.
  - apply Forall_insert; [done |]. simpl.
    apply Forall_insert; [| done].
    destruct slot; simpl; [done | apply zero_directory_in_range].
  - done.
  - intros g c' Hc'. destruct (Hmc' g c' Hc') as (c & Hc & Hrel).
    apply Hcount in Hc.
    pose proof (refs_table_update g _ o i slot zero_directory e x
                  Hslot (λ _, refs_dir_zero_directory g) He) as Hupd.
    destruct (refers g e), (refers g x); lia.
Qed.

Lemma set_mapcounts_set_ptbr (mc : list Z) (pt : pagetable) (st : state) :
  set_mapcounts mc (set_ptbr pt st) =
  State (processes st) (Process (pid (current st)) pt) mc.
Proof. reflexivity. Qed.

Lemma set_ptbr_state (pt : pagetable) (st : state) :
  set_ptbr pt st = State (processes st) (Process (pid (current st)) pt) (mapcounts st).
Proof. reflexivity. Qed.

Lemma least_free_or_full (mc : list Z) :
  (∃ f, least_free mc f) ∨ (∀ g, ¬ is_free mc g).
Proof.
  destruct (scan_free_spec (length mc) 0 mc) as (r & Hr & Hb & Hl & Hfree);
    [lia | lia |].
  destruct (decide (r < Z.of_nat (length mc))) as [Hlt | Hge].
  - left. exists r. split; [apply Hfree; lia | done].
  - right. intros g Hg. pose proof (count_of_range _ _ _ Hg).
    apply (Hl g); [lia | done].
Qed.

(** In a consistent state the frame of a valid entry of the running
    process has a share count of 1 at least. *)
Lemma consistent_valid_entry (st : state) (o i : nat) (dir : pte_directory) (e : pte) :
  consistent st →
  ptbr st !! o = Some (Some dir) → dir !! i = Some e → valid e = true →
  ∃ c, count_of (mapcounts st) (pfn e) = Some c ∧ 1 ≤ c < 2 ^ 32 ∧
       0 ≤ pfn e < Z.of_nat NR_PAGEFRAMES.
Proof.
  intros ((Hlen & Hty & _) & Hrange & _ & Hcount) Hdir He Hv.
  pose proof (Forall_lookup_1 _ _ _ _ Hrange Hdir) as Hdrange. simpl in Hdrange.
  pose proof (Forall_lookup_1 _ _ _ _ Hdrange He Hv) as Hpfn. simpl in Hpfn.
  destruct (load_in_range (mapcounts st) (pfn e)) as (c & Hc%count_of_load & Hc');
    [lia |].
  exists c. split; [done |].
  pose proof (Forall_lookup_1 _ _ _ _ Hty Hc') as Hcty. simpl in Hcty.
  pose proof (Hcount _ _ Hc) as Hrefs. unfold refs in Hrefs.
  pose proof (refs_table_update (pfn e) (ptbr st) o i (Some dir) [] e zero_pte
                Hdir (λ H, eq_ind (Some dir) (λ s, if s is Some _ then True else _)
                                  I None H) He) as Hupd.
  unfold refers at 1 in Hupd. rewrite Hv, bool_decide_true in Hupd by done.
  simpl in Hupd. lia.
Qed.

Lemma alloc_page_consistent (vpn rw : Z) (st : state) :
  wf_config → consistent st → in_address_space vpn →
  (∀ e, lookup_pte (ptbr st) vpn = Some e → valid e = false) →
  ∃ r st', alloc_page zero_directory vpn rw st = Ok (r, st') ∧ consistent st'.
Proof.
  intros Hc Hst Hvpn Hunmapped.
  pose proof Hst as ((Hlen & Hty & [Hptlen Hpt] & _) & _ & _ & Hcount).
  destruct (least_free_or_full (mapcounts st)) as [[f Hf] | Hfull].
  2:{ exists (to_uint (-1)), st. split; [by apply alloc_page_full | done]. }
  destruct (indices_in_range vpn Hc Hvpn) as [Ho Hi].
  destruct (load_in_range (ptbr st) (outer_index_of vpn)) as (slot & Hslot & Hslot');
    [lia |].
  assert (length (default zero_directory slot) = NR_PTES_PER_PAGE) as Hdlen.
  { pose proof (Forall_lookup_1 _ _ _ _ Hpt Hslot') as Hw.
    destruct slot; simpl in *; [done | apply length_replicate]. }
  destruct (load_in_range (default zero_directory slot) (inner_index_of vpn))
    as (e & He & He'); [lia |].
  assert (valid e = false) as Hv.
  { destruct slot as [dir|]; simpl in *.
    - apply Hunmapped, lookup_pte_Some; [done | apply Hvpn | eauto].
    - by apply lookup_replicate_1 in He' as [-> _]. }
  pose proof (count_of_range _ _ _ (proj1 Hf)) as Hfrange.
  eexists _, _. split; [by eapply alloc_page_installs |].
  rewrite set_mapcounts_set_ptbr.
  apply consistent_update with (e := e); try done.
  - intros _. unfold alloc_entry. case_decide; simpl; lia.
  - by rewrite length_insert.
  - apply Forall_insert; [done | lia].
  - intros g c' Hc'. pose proof (count_of_range _ _ _ Hc') as Hg.
    rewrite length_insert in Hg. rewrite count_of_insert in Hc' by lia.
    assert (refers g e = false) as -> by (unfold refers; by rewrite Hv).
    assert (refers g (alloc_entry f rw e) = bool_decide (f = g)) as ->
      by (unfold refers, alloc_entry; by destruct (decide (rw = 2 ∨ rw = 3))).
    case_decide as E.
    + subst g. injection Hc' as <-. exists 0. split; [apply Hf |].
      by rewrite bool_decide_true.
    + exists c'. split; [done |]. by rewrite bool_decide_false.
Qed.

Lemma free_page_consistent (vpn : Z) (st : state) (e : pte) :
  wf_config → consistent st →
  lookup_pte (ptbr st) vpn = Some e → valid e = true →
  ∃ st', free_page vpn st = Ok st' ∧ consistent st'.
Proof.
  intros Hc Hst He Hv.
  pose proof Hst as ((Hlen & Hty & _) & _).
  assert (0 ≤ vpn) as H0 by (unfold lookup_pte in He; by case_decide).
  apply lookup_pte_Some in He as (dir & Hdir & He); [| done | done].
  pose proof Hdir as [_ Hdir']%load_Ok. pose proof He as [_ He']%load_Ok.
  destruct (consistent_valid_entry st _ _ dir e Hst Hdir' He' Hv)
    as (c & Hcnt & Hc1 & Hpfn).
  eexists. split; [by apply (free_page_present vpn st dir e c) |].
  rewrite set_mapcounts_set_ptbr.
  apply (consistent_update st _ _ (Some dir) e); try done.
  - by rewrite length_insert.
  - apply Forall_insert; [done | apply to_uint_bounds].
  - intros g c' Hc'. pose proof (count_of_range _ _ _ Hc') as Hg.
    rewrite length_insert in Hg. rewrite count_of_insert in Hc' by lia.
    unfold refers. rewrite Hv. simpl.
    case_decide as E.
    + subst g. injection Hc' as <-. exists c. split; [done |].
      rewrite bool_decide_true by done. rewrite to_uint_small by lia. lia.
    + exists c'. split; [done |]. by rewrite bool_decide_false.
Qed.

Lemma handle_page_fault_consistent (fresh : pte_directory) (vpn rw : Z)
    (st : state) (e : pte) :
  wf_config → consistent st →
  lookup_pte (ptbr st) vpn = Some e →
  (valid e = true → private e = true →
   count_of (mapcounts st) (pfn e) ≠ Some 1 → ∃ f, is_free (mapcounts st) f) →
  ∃ r st', handle_page_fault fresh vpn rw st = Ok (r, st') ∧ consistent st'.
Proof.
  intros Hc Hst He Hfree.
  pose proof Hst as ((Hlen & Hty & _) & _).
  assert (0 ≤ vpn) as H0 by (unfold lookup_pte in He; by case_decide).
  apply lookup_pte_Some in He as (dir & Hdir & He); [| done | done].
  pose proof Hdir as [_ Hdir']%load_Ok. pose proof He as [_ He']%load_Ok.
  destruct (valid e) eqn:Hv.
  2:{ exists (Some false), st.
      rewrite (handle_page_fault_present _ _ _ _ _ _ Hdir He), Hv. done. }
  destruct (decide (rw = RW_WRITE ∧ writable e = false ∧ private e = false))
    as [Hillegal | Hlegal].
  { exists (Some false), st.
    rewrite (handle_page_fault_present _ _ _ _ _ _ Hdir He), Hv. simpl.
    by rewrite decide_True. }
  destruct (private e) eqn:Hp.
  2:{ exists None, st.
      rewrite (handle_page_fault_present _ _ _ _ _ _ Hdir He), Hv, Hp. simpl.
      by rewrite decide_False. }
  destruct (consistent_valid_entry st _ _ dir e Hst Hdir' He' Hv)
    as (c & Hcnt & Hc1 & Hpfn).
  destruct (decide (c = 1)) as [-> | Hshared].
  - eexists _, _. split.
    { rewrite (handle_page_fault_present _ _ _ _ _ _ Hdir He), Hv, Hp. simpl.
      rewrite decide_False by done.
      rewrite (proj1 (count_of_load _ _ _) Hcnt). reflexivity. }
    rewrite set_ptbr_state.
    apply (consistent_update st _ _ (Some dir) e); try done.
    intros g c' Hc'. by exists c'.
  - destruct Hfree as [f0 Hf0]; [done | done | naive_solver |].
    destruct (least_free_exists _ _ Hf0) as [f Hf].
    destruct (handle_page_fault_shared fresh vpn rw st dir e c f)
      as [Hne Hrun]; try done; [lia |].
    pose proof (count_of_range _ _ _ (proj1 Hf)) as Hfrange.
    eexists _, _. split; [exact Hrun |].
    apply (consistent_update st _ _ (Some dir) e); try done.
    + intros _. unfold alloc_entry, RW_WRITE. simpl. lia.
    + by rewrite !length_insert.
    + apply Forall_insert; [apply Forall_insert; [done | lia] | lia].
    + intros g c' Hc'. pose proof (count_of_range _ _ _ Hc') as Hg.
      rewrite !length_insert in Hg.
      rewrite count_of_insert in Hc' by (rewrite ?length_insert; lia).
      assert (refers g (alloc_entry f RW_WRITE e) = bool_decide (f = g)) as ->
        by (unfold refers, alloc_entry, RW_WRITE; by simpl).
      unfold refers. rewrite Hv. simpl.
      case_decide as E.
      * subst g. injection Hc' as <-. exists 0. split; [apply Hf |].
        rewrite (bool_decide_true (f = f)) by done.
        by rewrite (bool_decide_false (pfn e = f)) by congruence.
      * rewrite count_of_insert in Hc' by lia.
        rewrite (bool_decide_false (f = g)) by congruence.
        case_decide as E'.
        -- subst g. injection Hc' as <-. exists c. split; [done |].
           rewrite bool_decide_true by done. lia.
        -- exists c'. split; [done |]. by rewrite bool_decide_false by congruence.
Qed.

Lemma find_process_Some (target : Z) (l : list process) :
  ∀ (k0 k : nat) (temp : process),
  find_process target k0 l = Some (k, temp) →
  (k0 ≤ k)%nat ∧ l !! (k - k0)%nat = Some temp ∧ pid temp = target.
Proof.
  induction l as [|q l IH]; intros k0 k temp; simpl; [done |].
  case_decide as E.
  - intros [= <- <-]. by rewrite Nat.sub_diag.
  - intros (Hle & Hk & Hpid)%IH. split; [lia |]. split; [| done].
    by replace (k - k0)%nat with (S (k - S k0)) by lia.
Qed.

Lemma switch_process_found_consistent (st : state) (k : nat) (temp : process) :
  consistent st → processes st !! k = Some temp →
  consistent (State (delete k (processes st ++ [current st])) temp (mapcounts st)).
Proof.
  unfold consistent, wf_state, refs, ptbr. simpl.
  intros ((Hlen & Hty & Hpt & Hprocs) & Hrange & Hrprocs & Hcount) Htemp.
  split; [| split; [| split]].
  - repeat split; try done.
    + apply (Forall_lookup_1 _ _ _ _ Hprocs Htemp).
    + apply (Forall_lookup_1 _ _ _ _ Hprocs Htemp).
    + apply Forall_delete, Forall_app. split; [done |]. by apply Forall_singleton.
  - apply (Forall_lookup_1 _ _ _ _ Hrprocs Htemp).
  - apply Forall_delete, Forall_app. split; [done |]. by apply Forall_singleton.
  - intros g c Hc. rewrite (Hcount g c Hc).
    pose proof (sum_list_with_delete (λ p, refs_table g (pagetable_of p))
                  (processes st ++ [current st]) k temp
                  (lookup_app_l_Some _ _ _ _ Htemp)) as Hsum.
    rewrite sum_list_with_app in Hsum. simpl in Hsum. lia.
Qed.

Lemma switch_process_switch_consistent (child : process)
    (fresh : Z → pte_directory) (target : Z) (st : state) (p : process) :
  consistent st → p ∈ processes st → pid p = target →
  ∃ st', switch_process child fresh target st = Ok st' ∧
         pid (current st') = target ∧ mapcounts st' = mapcounts st ∧
         consistent st'.
Proof.
  intros Hst Hp Hpid.
  destruct (find_process target 0 (processes st)) as [[k temp]|] eqn:Hfind.
  - apply find_process_Some in Hfind as Hk. destruct Hk as (_ & Hk & Htemp).
    rewrite Nat.sub_0_r in Hk. eexists. split; [by apply switch_process_found |].
    simpl. split; [done |]. split; [done |].
    by apply switch_process_found_consistent.
  - destruct (proj1 (find_process_None _ _ _) Hfind p Hp Hpid).
Qed.

(** The fork leaves in both tables what the parent's table refers to. *)
Lemma refers_cow_parent (g : Z) (p : pte) : refers g (cow_parent p) = refers g p.
Proof.
  unfold refers, cow_parent.
  destruct (valid p) eqn:Hv, (writable p), (private p); simpl;
    by rewrite ?Hv.
Qed.

Lemma refers_cow_child (g : Z) (p : pte) :
  refers g (cow_child p zero_pte) = refers g p.
Proof.
  unfold refers, cow_child.
  destruct (valid p) eqn:Hv, (writable p), (private p); simpl;
    by rewrite ?Hv.
Qed.

Lemma refs_dir_cow_parent (g : Z) (dir : pte_directory) :
  refs_dir g (cow_parent <$> dir) = refs_dir g dir.
Proof.
  unfold refs_dir. induction dir as [|p dir IH]; csimpl; [done |].
  by rewrite IH, refers_cow_parent.
Qed.

Lemma refs_table_fork_parent (g : Z) (pt : pagetable) :
  refs_table g (fork_parent pt) = refs_table g pt.
Proof.
  unfold refs_table, fork_parent. induction pt as [|slot pt IH]; csimpl; [done |].
  rewrite IH. destruct slot; csimpl; [| done]. by rewrite refs_dir_cow_parent.
Qed.

Lemma refs_dir_cow_child (g : Z) (dir : pte_directory) :
  ∀ n, (length dir ≤ n)%nat →
  refs_dir g (zip_with cow_child dir (replicate n zero_pte)) = refs_dir g dir.
Proof.
  unfold refs_dir. induction dir as [|p dir IH]; intros [|n] Hn; simpl in *;
    try done; try lia.
  rewrite IH by lia. by rewrite refers_cow_child.
Qed.

Lemma refs_table_fork_child (g : Z) (pt : pagetable) :
  ∀ k, Forall (from_option wf_directory True) pt →
  refs_table g (fork_child (λ _, zero_directory) k pt (replicate (length pt) None))
  = refs_table g pt.
Proof.
  unfold refs_table. induction pt as [|slot pt IH]; intros k Hwf; simpl; [done |].
  apply Forall_cons in Hwf as [Hslot Hwf]. rewrite IH by done.
  destruct slot as [dir|]; simpl in *; [| done].
  unfold zero_directory. rewrite refs_dir_cow_child; [done |].
  unfold wf_directory in Hslot. lia.
Qed.

Lemma length_fork_child (fresh : Z → pte_directory) (pt : pagetable) :
  ∀ k ct, length ct = length pt → length (fork_child fresh k pt ct) = length pt.
Proof.
  induction pt as [|slot pt IH]; intros k [|cslot ct] Hlen; simpl in *;
    try done.
  rewrite IH; [done | lia].
Qed.

Lemma Forall_fork_child (P : option pte_directory → Prop)
    (fresh : Z → pte_directory) (pt : pagetable) :
  ∀ k ct,
  Forall (λ slot, ∀ pdir i, slot = Some pdir →
                            P (Some (zip_with cow_child pdir (fresh i)))) pt →
  Forall P ct →
  Forall P (fork_child fresh k pt ct).
Proof.
  induction pt as [|slot pt IH]; intros k [|cslot ct] Hpt Hct; simpl;
    try by constructor.
  apply Forall_cons in Hpt as [Hslot Hpt]. apply Forall_cons in Hct as [Hc Hct].
  constructor; [| by apply IH].
  destruct slot; [by apply Hslot | done].
Qed.

Lemma frames_in_range_cow_child (m n : nat) (dir : pte_directory) :
  frames_in_range m dir →
  frames_in_range m (zip_with cow_child dir (replicate n zero_pte)).
Proof.
  unfold frames_in_range. revert n.
  induction dir as [|p dir IH]; intros [|n] Hdir; simpl; try by constructor.
  apply Forall_cons in Hdir as [Hp Hdir]. constructor; [| by apply IH].
  unfold cow_child. destruct (valid p); simpl; [by intros _; apply Hp | done].
Qed.

Lemma table_in_range_fork_parent (m : nat) (pt : pagetable) :
  table_in_range m pt → table_in_range m (fork_parent pt).
Proof.
  unfold table_in_range, fork_parent. intros Hpt. apply Forall_fmap.
  eapply Forall_impl; [exact Hpt |]. intros [dir|]; simpl; [| done].
  unfold frames_in_range. intros Hdir. apply Forall_fmap.
  eapply Forall_impl; [exact Hdir |]. intros p Hp. simpl.
  unfold cow_parent. by destruct (valid p && (writable p || private p)).
Qed.

Lemma wf_pagetable_fork_parent (pt : pagetable) :
  wf_pagetable pt → wf_pagetable (fork_parent pt).
Proof.
  unfold wf_pagetable, fork_parent. intros [Hlen Hpt]. split.
  - by rewrite length_fmap.
  - apply Forall_fmap. eapply Forall_impl; [exact Hpt |].
    intros [dir|]; simpl; [| done]. unfold wf_directory.
    by rewrite length_fmap.
Qed.

Lemma switch_process_fork_consistent (target : Z) (st : state) :
  wf_config → consistent st →
  (∀ p, p ∈ processes st → pid p ≠ target) →
  (∀ g, Z.of_nat (refs g st) + Z.of_nat (refs_table g (ptbr st)) < 2 ^ 32) →
  ∃ st', switch_process zero_process (λ _, zero_directory) target st = Ok st' ∧
         consistent st'.
Proof.
  intros Hc ((Hlen & Hty & Hpt & Hprocs) & Hrange & Hrprocs & Hcount)
    Hfresh Hroom.
  eexists. split.
  { apply switch_process_fork; try done.
    - by apply find_process_None.
    - simpl. apply length_replicate.
    - intros _. apply length_replicate.
    - by rewrite Hlen. }
  unfold consistent, wf_state, refs, ptbr. simpl.
  assert (length (replicate NR_PTES_PER_PAGE (@None pte_directory))
          = length (pagetable_of (current st))) as Hclen.
  { rewrite length_replicate. symmetry. apply Hpt. }
  split; [| split; [| split]].
  - split; [by rewrite length_foldl_bump_slot |]. split; [| split].
    + apply Forall_lookup_2. intros i x Hx.
      destruct (lookup_lt_is_Some_2 (mapcounts st) i) as [c Hc'].
      { apply lookup_lt_Some in Hx. by rewrite length_foldl_bump_slot in Hx. }
      rewrite <- count_of_nat in Hx, Hc'.
      rewrite (count_of_foldl_bump_slot _ _ _ c) in Hx; try done.
      * injection Hx as <-. apply to_uint_bounds.
      * by rewrite Hlen.
      * rewrite count_of_nat in Hc'. apply (Forall_lookup_1 _ _ _ _ Hty Hc').
    + split.
      * rewrite length_fork_child by done. apply Hpt.
      * apply Forall_fork_child; [| by apply Forall_replicate].
        eapply Forall_impl; [apply Hpt |]. intros slot Hslot pdir i ->.
        simpl in *. unfold wf_directory in *.
        rewrite length_zip_with, Hslot. unfold zero_directory.
        rewrite length_replicate. lia.
    + apply Forall_app. split; [done |]. apply Forall_singleton. simpl.
      by apply wf_pagetable_fork_parent.
  - apply Forall_fork_child; [| by apply Forall_replicate].
    eapply Forall_impl; [apply Hrange |]. intros slot Hslot pdir i ->.
    simpl in *. by apply frames_in_range_cow_child.
  - apply Forall_app. split; [done |]. apply Forall_singleton. simpl.
    by apply table_in_range_fork_parent.
  - intros g c' Hc'.
    destruct (lookup_lt_is_Some_2 (mapcounts st) (Z.to_nat g)) as [c Hcg].
    { apply count_of_range in Hc'. rewrite length_foldl_bump_slot in Hc'. lia. }
    assert (count_of (mapcounts st) g = Some c) as Hcnt.
    { apply count_of_Some. split; [| done]. apply count_of_range in Hc'. lia. }
    rewrite (count_of_foldl_bump_slot _ _ _ c) in Hc'; try done.
    2:{ by rewrite Hlen. }
    2:{ apply (Forall_lookup_1 _ _ _ _ Hty Hcg). }
    injection Hc' as <-.
    pose proof (Hcount g c Hcnt) as Hrefs. unfold refs, ptbr in Hrefs.
    specialize (Hroom g). unfold refs, ptbr in Hroom.
    rewrite sum_list_with_app. simpl.
    rewrite refs_table_fork_parent.
    pose proof (refs_table_fork_child g (pagetable_of (current st)) 0
                  (proj2 Hpt)) as Hchild.
    destruct Hpt as [Hptlen _]. unfold ptbr in Hptlen.
    rewrite Hptlen in Hchild. rewrite Hchild.
    rewrite to_uint_small by lia. lia.
Qed.

(** ** The sum of the share counts *)

Lemma sum_list_with_add {A} (a b : A → nat) (l : list A) :
  sum_list_with (λ x, a x + b x)%nat l = (sum_list_with a l + sum_list_with b l)%nat.
Proof. induction l as [|x l IH]; simpl; [done | rewrite IH; lia]. Qed.

Lemma sum_list_with_ext_in {A} (h h' : A → nat) (l : list A) :
  Forall (λ x, h x = h' x) l → sum_list_with h l = sum_list_with h' l.
Proof. induction 1 as [|x l Hx _ IH]; simpl; [done | by rewrite Hx, IH]. Qed.

Lemma sum_list_with_swap {A B} (h : A → B → nat) (la : list A) (lb : list B) :
  sum_list_with (λ a, sum_list_with (h a) lb) la =
  sum_list_with (λ b, sum_list_with (λ a, h a b) la) lb.
Proof.
  induction lb as [|b lb IH]; simpl.
  - induction la as [|a la IHa]; simpl; [done | by rewrite IHa].
  - by rewrite sum_list_with_add, IH.
Qed.

(** An entry is counted for one frame if it is valid, for none if not. *)
Lemma refers_total (e : pte) (n : nat) :
  ∀ k : nat,
  sum_list_with (λ f : nat, if refers (Z.of_nat f) e then 1 else 0)%nat (seq k n) =
  if valid e && bool_decide (Z.of_nat k ≤ pfn e < Z.of_nat (k + n)) then 1%nat
  else 0%nat.
Proof.
  unfold refers. induction n as [|n IH]; intros k; simpl.
  - rewrite bool_decide_false by lia. by rewrite andb_false_r.
  - rewrite IH. destruct (valid e); simpl; [| done].
    repeat case_bool_decide; lia.
Qed.

Lemma refs_dir_total (dir : pte_directory) (m : nat) :
  frames_in_range m dir →
  sum_list_with (λ f : nat, refs_dir (Z.of_nat f) dir) (seq 0 m) = valid_in_dir dir.
Proof.
  intros Hrange. unfold refs_dir, valid_in_dir.
  rewrite (sum_list_with_swap (λ (f : nat) e, if refers (Z.of_nat f) e then 1 else 0)%nat).
  apply sum_list_with_ext_in. eapply Forall_impl; [exact Hrange |].
  intros e He. simpl in *. rewrite refers_total.
  destruct (valid e); simpl; [| done].
  rewrite bool_decide_true; [done |]. specialize (He eq_refl). lia.
Qed.

Lemma refs_table_total (pt : pagetable) (m : nat) :
  table_in_range m pt →
  sum_list_with (λ f : nat, refs_table (Z.of_nat f) pt) (seq 0 m) = valid_in_table pt.
Proof.
  intros Hrange. unfold refs_table, valid_in_table.
  rewrite (sum_list_with_swap
             (λ (f : nat) slot, from_option (refs_dir (Z.of_nat f)) 0%nat slot)).
  apply sum_list_with_ext_in. eapply Forall_impl; [exact Hrange |].
  intros [dir|] Hdir; simpl in *.
  - by apply refs_dir_total.
  - induction (seq 0 m) as [|f l IH]; simpl; [done | by rewrite IH].
Qed.

Lemma sum_counts_refs (r : nat → nat) (mc : list Z) :
  ∀ k : nat,
  (∀ i c, mc !! i = Some c → c = Z.of_nat (r (k + i)%nat)) →
  sum_counts mc = Z.of_nat (sum_list_with r (seq k (length mc))).
Proof.
  unfold sum_counts. induction mc as [|c mc IH]; intros k Hmc; simpl; [done |].
  rewrite (IH (S k)).
  - rewrite (Hmc 0%nat c eq_refl). rewrite Nat.add_0_r. lia.
  - intros i c' Hc'. rewrite (Hmc (S i) c' Hc'). f_equal. f_equal. lia.
Qed.

(** In a consistent state the share counts add up to the number of valid
    entries of all processes. *)
Lemma consistent_sum (st : state) :
  consistent st → sum_counts (mapcounts st) = Z.of_nat (valid_ptes st).
Proof.
  intros ((Hlen & _) & Hrange & Hrprocs & Hcount).
  rewrite (sum_counts_refs (λ f, refs (Z.of_nat f) st) _ 0).
  2:{ intros i c Hc. apply Hcount. by rewrite count_of_nat. }
  f_equal. rewrite Hlen. unfold refs, valid_ptes.
  rewrite sum_list_with_add. f_equal; [by apply refs_table_total |].
  rewrite (sum_list_with_swap
             (λ (f : nat) p, refs_table (Z.of_nat f) (pagetable_of p))).
  apply sum_list_with_ext_in. eapply Forall_impl; [exact Hrprocs |].
  intros p Hp. by apply refs_table_total.
Qed.

(** Both checks pass on a consistent state. *)
Lemma consistent_checks (st : state) :
  consistent st → counts_match_refs st = true ∧ counts_sum_to_valid st = true.
Proof.
  intros Hst. split.
  - apply counts_match_refs_spec, Hst.
  - by apply counts_sum_to_valid_spec, consistent_sum.
Qed.

End VM_facts.

(** * The statements of the specification *)

Section Claims.

Context {cfg : vm_config}.

(** C1, as amended.  A write fault on a page whose entry is valid and
    copy-on-write succeeds in these two cases.  The frame is shared (share
    count above 1) and some frame is free: the share count of the old frame
    goes down by one and the entry is mapped, writable, to the lowest free
    frame, which is another frame than the old one and now has share count 1.
    The frame has share count 1: the entry becomes writable, nothing is
    allocated and no share count changes.  In both cases a write to the page
    translates afterwards. *)
Theorem cow_write_fault_resolved (fresh : pte_directory) (vpn : Z) (st : state)
    (e : pte) (c : Z) :
  wf_config → wf_state st →
  lookup_pte (ptbr st) vpn = Some e → valid e = true → private e = true →
  count_of (mapcounts st) (pfn e) = Some c →
  (1 < c → ∀ f, least_free (mapcounts st) f →
     ∃ st', handle_page_fault fresh vpn RW_WRITE st = Ok (Some true, st') ∧
            count_of (mapcounts st') (pfn e) = Some (c - 1) ∧
            f ≠ pfn e ∧
            count_of (mapcounts st') f = Some 1 ∧
            lookup_pte (ptbr st') vpn = Some (PTE true true f true) ∧
            translation_fails (ptbr st') vpn RW_WRITE = false) ∧
  (c = 1 →
     ∃ st', handle_page_fault fresh vpn RW_WRITE st = Ok (Some true, st') ∧
            mapcounts st' = mapcounts st ∧
            lookup_pte (ptbr st') vpn = Some (set_writable true e) ∧
            translation_fails (ptbr st') vpn RW_WRITE = false).
Proof.
  intros Hc Hwf He Hv Hp Hcnt. split.
  - intros Hshared f Hf.
    destruct (cow_break_shared fresh vpn st e c f)
      as (st' & Hrun & Hne & Hold & Hnew & _ & Hpte & _); try done.
    exists st'. repeat split; try done.
    unfold translation_fails. by rewrite Hpte.
  - intros ->.
    destruct (cow_break_last fresh vpn st e)
      as (st' & Hrun & Hmc & Hpte & _); try done.
    exists st'. repeat split; try done.
    unfold translation_fails. rewrite Hpte. simpl. by rewrite Hv.
Qed.

(** C10.  [alloc_page] returns -1 (as an [unsigned int]) exactly when every
    frame has a share count of at least 1, and then the state is the one it
    was called in. *)
Theorem alloc_page_out_of_memory (fresh : pte_directory) (vpn rw : Z) (st : state) :
  wf_config → wf_state st →
  ((∃ st', alloc_page fresh vpn rw st = Ok (to_uint (-1), st')) ↔
   (∀ f c, count_of (mapcounts st) f = Some c → 1 ≤ c)) ∧
  (∀ st', alloc_page fresh vpn rw st = Ok (to_uint (-1), st') → st' = st).
Proof.
  intros [_ Hframes] (Hlen & Hty & _).
  assert (∀ st', alloc_page fresh vpn rw st = Ok (to_uint (-1), st') →
                 st' = st ∧ ∀ g, ¬ is_free (mapcounts st) g) as Hinv.
  { intros st' Hrun.
    destruct (alloc_page_inv _ _ _ _ _ _ Hlen Hrun) as [(_ & ? & ?) | [Hf _]];
      [done |].
    apply count_of_range in Hf. change (to_uint (-1)) with 4294967295 in Hf.
    lia. }
  split; [split |].
  - intros [st' Hrun] f c Hcnt. destruct (Hinv _ Hrun) as [_ Hfull].
    assert (c ≠ 0) by (intros ->; by apply (Hfull f)).
    apply count_of_Some in Hcnt as [_ Hcnt].
    pose proof (Forall_lookup_1 _ _ _ _ Hty Hcnt). simpl in *. lia.
  - intros Hall. exists st. apply alloc_page_full; [done |].
    intros g Hg. apply Hall in Hg. lia.
  - intros st' Hrun. by destruct (Hinv _ Hrun).
Qed.

(** X26.  Called with a pid that no process of the ready list has, and with
    [malloc] handing out zeroed blocks, [switch_process] makes a child with
    that pid current and queues the parent.  For every page valid in the
    parent the child's entry is valid and names the same frame as the
    parent's; the share count of that frame has gone up by one for every
    valid entry of the parent that names it (in [unsigned int] arithmetic),
    so by one when this page is the only one.  When the parent's entry was
    writable or copy-on-write, both entries end not writable and
    copy-on-write; otherwise both are the parent's entry as it was. *)
Theorem fork_shares_every_page (target : Z) (st : state) :
  wf_config → wf_state st →
  table_in_range NR_PAGEFRAMES (ptbr st) →
  (∀ p, p ∈ processes st → pid p ≠ target) →
  ∃ st' parent,
    switch_process zero_process (λ _, zero_directory) target st = Ok st' ∧
    processes st' = processes st ++ [parent] ∧
    pid parent = pid (current st) ∧
    pid (current st') = target ∧
    ∀ vpn e, lookup_pte (ptbr st) vpn = Some e → valid e = true →
      ∃ ec ep,
        lookup_pte (ptbr st') vpn = Some ec ∧
        lookup_pte (pagetable_of parent) vpn = Some ep ∧
        valid ec = true ∧ pfn ec = pfn e ∧
        valid ep = true ∧ pfn ep = pfn e ∧
        (∀ c, count_of (mapcounts st) (pfn e) = Some c →
              count_of (mapcounts st') (pfn e) =
                Some (to_uint (c + Z.of_nat (refs_table (pfn e) (ptbr st)))) ∧
              (refs_table (pfn e) (ptbr st) = 1%nat →
               count_of (mapcounts st') (pfn e) = Some (to_uint (c + 1)))) ∧
        (writable e = true ∨ private e = true →
           writable ec = false ∧ private ec = true ∧
           writable ep = false ∧ private ep = true) ∧
        (writable e = false → private e = false → ec = e ∧ ep = e).
Proof.
  intros Hc (Hlen & Hty & Hpt & _) Hrange Hfresh.
  eexists _, _. split.
  { apply switch_process_fork; try done.
    - by apply find_process_None.
    - simpl. apply length_replicate.
    - intros _. apply length_replicate.
    - by rewrite Hlen. }
  simpl. repeat split.
  intros vpn e He Hv.
  assert (0 ≤ vpn) as H0 by (unfold lookup_pte in He; by case_decide).
  assert (0 ≤ inner_index_of vpn < Z.of_nat NR_PTES_PER_PAGE) as Hi.
  { destruct Hc as [Hn _]. apply Z.mod_pos_bound. lia. }
  exists (cow_child e zero_pte), (cow_parent e). split.
  { unfold ptbr at 1. simpl. apply lookup_pte_fork_child; try done.
    - simpl. rewrite length_replicate. symmetry. apply Hpt.
    - apply lookup_replicate_2. lia. }
  split; [simpl; by rewrite lookup_pte_fork_parent, He |].
  unfold cow_child, cow_parent. rewrite Hv. simpl.
  split; [done |]. split; [done |].
  split; [by destruct (writable e || private e) |].
  split; [by destruct (writable e || private e) |].
  split.
  { intros c Hcnt.
    assert (count_of (foldl bump_slot (mapcounts st) (ptbr st)) (pfn e) =
            Some (to_uint (c + Z.of_nat (refs_table (pfn e) (ptbr st))))) as Hnew.
    { apply count_of_foldl_bump_slot; [by rewrite Hlen | done |].
      apply count_of_Some in Hcnt as [_ Hcnt].
      apply (Forall_lookup_1 _ _ _ _ Hty Hcnt). }
    split; [done |]. intros Hone. by rewrite Hnew, Hone. }
  split.
  - intros Hw.
    assert (writable e || private e = true) as ->
      by (destruct Hw as [-> | ->]; by rewrite ?orb_true_r).
    done.
  - intros Hw Hp. rewrite Hw, Hp. simpl.
    destruct e; simpl in *; by subst.
Qed.

(** C4, as amended.  Parent and child share a page copy-on-write, the share
    count of its frame is 2, and the child runs.  With a frame free, the
    child's write fault maps the page, writable, to the lowest free frame,
    which is another frame than the parent's; both frames have share count 1
    afterwards.  The ready list is as it was, so the parent's entry still
    names the old frame and is still not writable and copy-on-write.  It is
    the parent's own write fault, whenever the parent runs with these share
    counts, that makes its entry writable, on the old frame. *)
Theorem child_write_after_fork (fresh : pte_directory) (vpn : Z) (st : state)
    (parent : process) (e : pte) (f : Z) :
  wf_config → wf_state st →
  parent ∈ processes st →
  lookup_pte (ptbr st) vpn = Some e →
  lookup_pte (pagetable_of parent) vpn = Some e →
  valid e = true → writable e = false → private e = true →
  count_of (mapcounts st) (pfn e) = Some 2 →
  least_free (mapcounts st) f →
  ∃ st',
    handle_page_fault fresh vpn RW_WRITE st = Ok (Some true, st') ∧
    lookup_pte (ptbr st') vpn = Some (PTE true true f true) ∧
    f ≠ pfn e ∧
    count_of (mapcounts st') (pfn e) = Some 1 ∧
    count_of (mapcounts st') f = Some 1 ∧
    processes st' = processes st ∧
    ∀ st2, current st2 = parent → mapcounts st2 = mapcounts st' →
      ∃ st3,
        handle_page_fault fresh vpn RW_WRITE st2 = Ok (Some true, st3) ∧
        lookup_pte (ptbr st3) vpn = Some (set_writable true e) ∧
        mapcounts st3 = mapcounts st2.
Proof.
  intros Hc Hwf Hparent He Hpe Hv Hw Hp Hcnt Hf.
  destruct (cow_break_shared fresh vpn st e 2 f)
    as (st' & Hrun & Hne & Hold & Hnew & _ & Hpte & _ & Hprocs & _);
    try done.
  exists st'. repeat split; try done.
  intros st2 Hcur Hmc.
  destruct (cow_break_last fresh vpn st2 e)
    as (st3 & Hrun3 & Hmc3 & Hpte3 & _); try done.
  - unfold ptbr. by rewrite Hcur.
  - by rewrite Hmc.
  - by exists st3.
Qed.

(** C9, as amended.  For a page whose entry is valid, [free_page] takes one
    off the share count of the frame the entry names (the count is an
    [unsigned int]) and sets [valid], [writable] and [pfn] of the entry to
    zero; no other entry, no other share count and no process changes.  The
    function returns nothing. *)
Theorem free_page_clears_entry (vpn : Z) (st : state) (e : pte) (c : Z) :
  wf_config →
  lookup_pte (ptbr st) vpn = Some e → valid e = true →
  count_of (mapcounts st) (pfn e) = Some c →
  ∃ st',
    free_page vpn st = Ok st' ∧
    count_of (mapcounts st') (pfn e) = Some (to_uint (c - 1)) ∧
    (0 < c < 2 ^ 32 → count_of (mapcounts st') (pfn e) = Some (c - 1)) ∧
    (∀ g, g ≠ pfn e → count_of (mapcounts st') g = count_of (mapcounts st) g) ∧
    (∃ e', lookup_pte (ptbr st') vpn = Some e' ∧
           valid e' = false ∧ writable e' = false ∧ pfn e' = 0) ∧
    (∀ vpn', vpn' ≠ vpn →
          lookup_pte (ptbr st') vpn' = lookup_pte (ptbr st) vpn') ∧
    processes st' = processes st.
Proof.
  intros Hc He _ Hcnt.
  assert (0 ≤ vpn) as H0 by (unfold lookup_pte in He; by case_decide).
  apply lookup_pte_Some in He as (dir & Hdir & He); [| done | done].
  eexists. split; [by apply (free_page_present vpn st dir e c) |].
  pose proof (count_of_range _ _ _ Hcnt) as Hrange.
  apply load_Ok in Hdir as [? Hdir]. apply load_Ok in He as [? He].
  pose proof (lookup_lt_Some _ _ _ Hdir). pose proof (lookup_lt_Some _ _ _ He).
  simpl. split.
  { rewrite count_of_insert by lia. by rewrite decide_True. }
  split.
  { intros Hpos. rewrite count_of_insert by lia. rewrite decide_True by done.
    by rewrite to_uint_small by lia. }
  split.
  { intros g Hg. destruct (decide (0 ≤ g)).
    - rewrite count_of_insert by lia. by rewrite decide_False.
    - unfold count_of. by rewrite !decide_False. }
  split.
  { eexists. split; [unfold ptbr; simpl; by rewrite lookup_pte_insert | done]. }
  split; [| done].
  intros vpn' Hne'. unfold ptbr. simpl. unfold lookup_pte at 2.
  case_decide as Hv'.
  - rewrite lookup_pte_insert_ne; try done.
    unfold lookup_pte. by rewrite decide_True.
  - unfold lookup_pte. by rewrite decide_False.
Qed.

End Claims.

(** ** On the example systems *)

Section Examples.

#[local] Existing Instance small_vm.

(** The example states are those the commands in their comments lead to,
    when [malloc] hands out zeroed memory. *)
Lemma one_page_reached :
  alloc_page zero_directory 0 RW_WRITE boot = Ok (0, one_page).
Proof. reflexivity. Qed.

Lemma forked_reached :
  switch_process zero_process (λ _, zero_directory) 1 one_page
  = Ok forked.
Proof. reflexivity. Qed.

Lemma forked_full_reached :
  (alloc_page zero_directory 0 RW_WRITE boot ≫= λ '(_, st),
   alloc_page zero_directory 1 RW_WRITE st ≫= λ '(_, st),
   alloc_page zero_directory 2 RW_WRITE st ≫= λ '(_, st),
   alloc_page zero_directory 3 RW_WRITE st ≫= λ '(_, st),
   switch_process zero_process (λ _, zero_directory) 1 st)
  = Ok forked_full.
Proof. reflexivity. Qed.

Lemma parent_alone_reached :
  (handle_page_fault zero_directory 0 RW_WRITE forked ≫= λ '(_, st),
   switch_process zero_process (λ _, zero_directory) 0 st)
  = Ok parent_alone.
Proof. reflexivity. Qed.

(** C1, as stated, fails when no frame is free: the fault on the shared
    page 0 is reported as handled, the share count of frame 0 went down, yet
    the entry is the one it was, on frame 0 and not writable, and a write
    still faults. *)
Lemma cow_break_without_free_frame :
  let e := PTE true false 0 true in
  let st' := set_mapcounts [1; 2; 2; 2] forked_full in
  lookup_pte (ptbr forked_full) 0 = Some e ∧
  count_of (mapcounts forked_full) (pfn e) = Some 2 ∧
  handle_page_fault zero_directory 0 RW_WRITE forked_full
    = Ok (Some true, st') ∧
  lookup_pte (ptbr st') 0 = Some e ∧
  translation_fails (ptbr st') 0 RW_WRITE = true.
Proof. repeat split. Qed.

(** C1 at work: the child's write to the shared page 0 of [forked], and a
    write of a last sharer. *)
Lemma cow_write_fault_resolved_example :
  (∃ st', handle_page_fault zero_directory 0 RW_WRITE forked
            = Ok (Some true, st') ∧
          count_of (mapcounts st') 0 = Some (2 - 1) ∧
          1 ≠ 0 ∧
          count_of (mapcounts st') 1 = Some 1 ∧
          lookup_pte (ptbr st') 0 = Some (PTE true true 1 true) ∧
          translation_fails (ptbr st') 0 RW_WRITE = false) ∧
  (∃ st', handle_page_fault zero_directory 0 RW_WRITE parent_alone
            = Ok (Some true, st') ∧
          mapcounts st' = mapcounts parent_alone ∧
          lookup_pte (ptbr st') 0 = Some (PTE true true 0 true) ∧
          translation_fails (ptbr st') 0 RW_WRITE = false).
Proof.
  split.
  - refine (proj1 (cow_write_fault_resolved zero_directory 0
                     forked (PTE true false 0 true) 2 _ _ _ _ _ _) _ 1 _);
      try reflexivity; try compute_done.
    split; [reflexivity |].
    intros g Hg. assert (g = 0) as -> by lia. discriminate.
  - refine (proj2 (cow_write_fault_resolved zero_directory 0 parent_alone
                     (PTE true false 0 true) 1 _ _ _ _ _ _) _);
      try reflexivity; compute_done.
Defined.

(** C10 at work: no frame of [forked_full] is free. *)
Lemma alloc_page_out_of_memory_example :
  ∃ st', alloc_page zero_directory 3 RW_WRITE forked_full
         = Ok (to_uint (-1), st').
Proof.
  apply (proj1 (alloc_page_out_of_memory zero_directory 3
                  RW_WRITE forked_full ltac:(compute_done) ltac:(compute_done))).
  intros f c [_ Hc]%count_of_Some.
  destruct (Z.to_nat f) as [|[|[|[|]]]]; simpl in Hc; simplify_eq; lia.
Defined.

(** C5.  Page 0 of [boot] has no directory; [handle_page_fault] gives no
    answer for it, it reads through the null pointer. *)
Theorem fault_on_missing_directory :
  lookup_pte (ptbr boot) 0 = None ∧
  handle_page_fault zero_directory 0 RW_READ boot
    = Err NullDereference.
Proof. split; reflexivity. Qed.

(** C6.  Page 2 of [one_page] is unmapped, its directory is missing; the
    write fault on it is not answered with [false]. *)
Theorem unmapped_write_not_reported :
  lookup_pte (ptbr one_page) 2 = None ∧
  handle_page_fault zero_directory 2 RW_WRITE one_page
    = Err NullDereference ∧
  ¬ ∃ st', handle_page_fault zero_directory 2 RW_WRITE one_page
           = Ok (Some false, st').
Proof. repeat split. by intros [st' ?]. Qed.

(** C8.  Page 0 of [one_page] is valid, writable and not copy-on-write; the
    write fault on it changes nothing and returns no value. *)
Theorem write_fault_on_writable_page :
  lookup_pte (ptbr one_page) 0 = Some (PTE true true 0 false) ∧
  handle_page_fault zero_directory 0 RW_WRITE one_page
    = Ok (None, one_page).
Proof. split; reflexivity. Qed.

(** C3.  The fork takes the child's directory from [malloc] and writes
    [valid], [pfn] and the marker of its entries, never [writable], which it
    sets to 0 in the parent's.  Page 0 of [one_page] is writable; process 1
    is forked on a block whose first entry has the [writable] bit set.  The
    parent's entry ends not writable and copy-on-write, the child's ends
    copy-on-write and writable, on frame 0 with share count 2: a write of
    the child translates, with no fault, into the frame both share. *)
Theorem fork_on_dirty_block :
  let dirty := [PTE false true 0 false; zero_pte] in
  ∃ st' parent,
    switch_process zero_process (λ _, dirty) 1 one_page = Ok st' ∧
    processes st' = [parent] ∧
    lookup_pte (pagetable_of parent) 0 = Some (PTE true false 0 true) ∧
    lookup_pte (ptbr st') 0 = Some (PTE true true 0 true) ∧
    count_of (mapcounts st') 0 = Some 2 ∧
    translation_fails (ptbr st') 0 RW_WRITE = false.
Proof. eexists _, _. repeat split. Qed.

(** X26 at work: process 1 of [forked] forks process 2. *)
Lemma fork_shares_every_page_example :
  ∃ st' parent,
    switch_process zero_process (λ _, zero_directory) 2 forked = Ok st' ∧
    processes st' = processes forked ++ [parent] ∧
    pid parent = pid (current forked) ∧
    pid (current st') = 2 ∧
    ∀ vpn e, lookup_pte (ptbr forked) vpn = Some e → valid e = true →
      ∃ ec ep,
        lookup_pte (ptbr st') vpn = Some ec ∧
        lookup_pte (pagetable_of parent) vpn = Some ep ∧
        valid ec = true ∧ pfn ec = pfn e ∧
        valid ep = true ∧ pfn ep = pfn e ∧
        (∀ c, count_of (mapcounts forked) (pfn e) = Some c →
              count_of (mapcounts st') (pfn e) =
                Some (to_uint (c + Z.of_nat (refs_table (pfn e) (ptbr forked)))) ∧
              (refs_table (pfn e) (ptbr forked) = 1%nat →
               count_of (mapcounts st') (pfn e) = Some (to_uint (c + 1)))) ∧
        (writable e = true ∨ private e = true →
           writable ec = false ∧ private ec = true ∧
           writable ep = false ∧ private ep = true) ∧
        (writable e = false → private e = false → ec = e ∧ ep = e).
Proof.
  apply (fork_shares_every_page 2 forked);
    [compute_done | compute_done | compute_done |].
  intros p ->%list_elem_of_singleton. discriminate.
Defined.

(** C4, as stated, fails on [forked]: after the child's write fault on
    page 0 the parent's entry is not writable.  It fails on [forked_full] as
    well, where no frame is free: the child's entry stays on frame 0, the
    parent's frame. *)
Lemma parent_entry_after_child_write :
  let parent := Process 0 [Some [PTE true false 0 true; zero_pte]; None] in
  let child := Process 1 [Some [PTE true true 1 true; zero_pte]; None] in
  (processes forked = [parent] ∧
   handle_page_fault zero_directory 0 RW_WRITE forked
     = Ok (Some true, State [parent] child [1; 1; 0; 0]) ∧
   (writable <$> lookup_pte (pagetable_of parent) 0) = Some false) ∧
  (handle_page_fault zero_directory 0 RW_WRITE forked_full
     = Ok (Some true, set_mapcounts [1; 2; 2; 2] forked_full) ∧
   lookup_pte (ptbr (set_mapcounts [1; 2; 2; 2] forked_full)) 0
     = Some (PTE true false 0 true)).
Proof. repeat split. Qed.

(** C4 at work on [forked]. *)
Lemma child_write_after_fork_example :
  let parent := Process 0 [Some [PTE true false 0 true; zero_pte]; None] in
  let e := PTE true false 0 true in
  ∃ st',
    handle_page_fault zero_directory 0 RW_WRITE forked = Ok (Some true, st') ∧
    lookup_pte (ptbr st') 0 = Some (PTE true true 1 true) ∧
    1 ≠ pfn e ∧
    count_of (mapcounts st') (pfn e) = Some 1 ∧
    count_of (mapcounts st') 1 = Some 1 ∧
    processes st' = processes forked ∧
    ∀ st2, current st2 = parent → mapcounts st2 = mapcounts st' →
      ∃ st3,
        handle_page_fault zero_directory 0 RW_WRITE st2 = Ok (Some true, st3) ∧
        lookup_pte (ptbr st3) 0 = Some (set_writable true e) ∧
        mapcounts st3 = mapcounts st2.
Proof.
  intros parent e.
  apply (child_write_after_fork zero_directory 0 forked parent e 1);
    try reflexivity; try compute_done.
  - by apply list_elem_of_singleton.
  - split; [reflexivity |].
    intros g Hg. assert (g = 0) as -> by lia. discriminate.
Defined.

(** C9, as stated, fails on [forked]: freeing the shared page 0 leaves the
    copy-on-write marker of its entry set; and freeing page 1, whose entry is
    invalid, ends like any other call, after taking one off the share count
    of frame 0. *)
Lemma free_page_marker_and_invalid_entry :
  free_page 0 forked
    = Ok (State (processes forked)
                (Process 1 [Some [PTE false false 0 true; zero_pte]; None])
                [1; 0; 0; 0]) ∧
  lookup_pte (ptbr forked) 1 = Some zero_pte ∧
  free_page 1 forked = Ok (set_mapcounts [1; 0; 0; 0] forked).
Proof. repeat split. Qed.

(** What the marker left behind leads to: page 0 is freed, mapped again with
    read permission only, and the write fault on it makes it writable. *)
Lemma stale_marker_makes_page_writable :
  (free_page 0 forked ≫= λ st,
   alloc_page zero_directory 0 RW_READ st ≫= λ '(_, st),
   handle_page_fault zero_directory 0 RW_WRITE st)
  = Ok (Some true,
        State (processes forked)
              (Process 1 [Some [PTE true true 1 true; zero_pte]; None])
              [1; 1; 0; 0]).
Proof. reflexivity. Qed.

(** C9 at work on [forked]. *)
Lemma free_page_clears_entry_example :
  ∃ st',
    free_page 0 forked = Ok st' ∧
    count_of (mapcounts st') 0 = Some (to_uint (2 - 1)) ∧
    (0 < 2 < 2 ^ 32 → count_of (mapcounts st') 0 = Some (2 - 1)) ∧
    (∀ g, g ≠ 0 → count_of (mapcounts st') g = count_of (mapcounts forked) g) ∧
    (∃ e', lookup_pte (ptbr st') 0 = Some e' ∧
           valid e' = false ∧ writable e' = false ∧ pfn e' = 0) ∧
    (∀ vpn', vpn' ≠ 0 →
          lookup_pte (ptbr st') vpn' = lookup_pte (ptbr forked) vpn') ∧
    processes st' = processes forked.
Proof.
  apply (free_page_clears_entry 0 forked (PTE true false 0 true) 2);
    [compute_done | reflexivity | reflexivity | reflexivity].
Defined.

(** C7.  Page 0 of [one_page] is mapped writable.  [alloc_page] for it with
    read permission only maps it to frame 1, the lowest free one, and the
    entry stays writable. *)
Theorem alloc_page_read_only_over_writable :
  lookup_pte (ptbr one_page) 0 = Some (PTE true true 0 false) ∧
  alloc_page zero_directory 0 RW_READ one_page
    = Ok (1, State [] (Process 0 [Some [PTE true true 1 false; zero_pte]; None])
               [1; 1; 0; 0]).
Proof. split; reflexivity. Qed.

(** C2.  The share counts of [forked_full] are the numbers of valid entries
    that name the frames.  After the write fault on the shared page 0, with
    no frame free, frame 0 has share count 1 and two valid entries naming
    it.  Likewise after [alloc_page] for the mapped page 0 of [one_page]:
    frame 0 keeps its share count and no entry names it. *)
Theorem share_counts_not_conserved :
  (counts_match_refs forked_full = true ∧
   counts_sum_to_valid forked_full = true ∧
   ∃ st', handle_page_fault zero_directory 0 RW_WRITE forked_full
            = Ok (Some true, st') ∧
          count_of (mapcounts st') 0 = Some 1 ∧
          refs 0 st' = 2%nat ∧
          counts_match_refs st' = false ∧
          counts_sum_to_valid st' = false) ∧
  (counts_match_refs one_page = true ∧
   counts_sum_to_valid one_page = true ∧
   ∃ st', alloc_page zero_directory 0 RW_READ one_page = Ok (1, st') ∧
          count_of (mapcounts st') 0 = Some 1 ∧
          refs 0 st' = 0%nat ∧
          counts_match_refs st' = false ∧
          counts_sum_to_valid st' = false).
Proof.
  split; (split; [reflexivity |]); (split; [reflexivity |]);
    eexists; (split; [reflexivity |]); repeat split.
Qed.

End Examples.

(** * Further properties of the four functions *)

Section More_facts.

Context {cfg : vm_config}.

Lemma least_free_scan (mc : list Z) (f : Z) :
  scan_free (length mc) 0 mc = Ok f → f < Z.of_nat (length mc) →
  least_free mc f.
Proof.
  intros Hscan Hlt.
  destruct (scan_free_spec (length mc) 0 mc) as (r & Hr & Hb & Hl & Hfree);
    [lia | lia |].
  rewrite Hscan in Hr. injection Hr as <-.
  split; [apply Hfree; lia | done].
Qed.

Lemma consistent_check (st : state) :
  wf_state st →
  table_in_range NR_PAGEFRAMES (ptbr st) →
  Forall (λ p, table_in_range NR_PAGEFRAMES (pagetable_of p)) (processes st) →
  counts_match_refs st = true →
  consistent st.
Proof.
  intros Hwf Hrange Hprocs Hcounts. repeat split; try done; try apply Hwf.
  by apply counts_match_refs_spec.
Qed.

Lemma state_eta (st : state) :
  State (processes st) (Process (pid (current st)) (ptbr st)) (mapcounts st) = st.
Proof. by destruct st as [ps [p pt] mc]. Qed.

(** What a call of [alloc_page] that returns has done. *)
Lemma alloc_page_Ok_inv (fresh : pte_directory) (vpn rw : Z) (st st' : state) (r : Z) :
  length (mapcounts st) = NR_PAGEFRAMES →
  alloc_page fresh vpn rw st = Ok (r, st') →
  (r = to_uint (-1) ∧ st' = st ∧ ∀ g, ¬ is_free (mapcounts st) g) ∨
  (∃ slot e,
     least_free (mapcounts st) r ∧
     load (ptbr st) (outer_index_of vpn) = Ok slot ∧
     load (default fresh slot) (inner_index_of vpn) = Ok e ∧
     st' = State (processes st)
             (Process (pid (current st))
                (<[Z.to_nat (outer_index_of vpn) :=
                     Some (<[Z.to_nat (inner_index_of vpn) :=
                               alloc_entry r rw e]> (default fresh slot))]>
                   (ptbr st)))
             (<[Z.to_nat r := 1]> (mapcounts st))).
Proof.
  intros Hlen Hrun.
  destruct (alloc_page_inv _ _ _ _ _ _ Hlen Hrun) as [? | Hleast]; [by left |].
  right. pose proof Hrun as Hrun'. unfold alloc_page in Hrun'.
  rewrite (scan_free_least _ r Hlen Hleast) in Hrun'. simpl in Hrun'.
  pose proof (count_of_range _ _ _ (proj1 Hleast)) as Hrange.
  rewrite decide_False in Hrun' by lia.
  apply bind_Ok in Hrun' as (slot & Hslot & Hrun').
  apply bind_Ok in Hrun' as (e & He & _).
  exists slot, e. repeat split; try done; try apply Hleast.
  rewrite (alloc_page_installs fresh vpn rw st r slot e) in Hrun by done.
  by injection Hrun as <-.
Qed.

(** What a call of [handle_page_fault] that returns has done. *)
Lemma handle_page_fault_Ok_inv (fresh : pte_directory) (vpn rw : Z)
    (st st' : state) (r : option bool) :
  handle_page_fault fresh vpn rw st = Ok (r, st') →
  ∃ dir e,
    load (ptbr st) (outer_index_of vpn) = Ok (Some dir) ∧
    load dir (inner_index_of vpn) = Ok e ∧
    ((r ≠ Some true ∧ st' = st) ∨
     (r = Some true ∧ valid e = true ∧ private e = true ∧
      ((count_of (mapcounts st) (pfn e) = Some 1 ∧
        st' = set_ptbr (<[Z.to_nat (outer_index_of vpn) :=
                           Some (<[Z.to_nat (inner_index_of vpn) :=
                                     set_writable true e]> dir)]> (ptbr st)) st) ∨
       (∃ c st1, count_of (mapcounts st) (pfn e) = Some c ∧ 1 < c ∧
          alloc_page fresh vpn RW_WRITE
            (set_mapcounts (<[Z.to_nat (pfn e) := to_uint (c - 1)]> (mapcounts st)) st)
          = Ok (st1, st'))))).
Proof.
  intros Hrun. pose proof Hrun as Hrun'. unfold handle_page_fault in Hrun'.
  apply bind_Ok in Hrun' as (slot & Hslot & Hrun').
  apply bind_Ok in Hrun' as (dir & Hdir & Hrun').
  apply bind_Ok in Hrun' as (e & He & _).
  destruct slot as [dir'|]; [| done]. injection Hdir as ->.
  exists dir, e. split; [done |]. split; [done |].
  rewrite (handle_page_fault_present _ _ _ _ _ _ Hslot He) in Hrun.
  destruct (valid e) eqn:Hv; simpl in Hrun.
  2:{ injection Hrun as <- <-. by left. }
  case_decide as Hw.
  { injection Hrun as <- <-. by left. }
  destruct (private e) eqn:Hp.
  2:{ injection Hrun as <- <-. by left. }
  apply bind_Ok in Hrun as (c & Hc%count_of_load & Hrun).
  destruct (decide (1 < c)) as [Hc1 | Hc1].
  - apply bind_Ok in Hrun as (mc & [_ ->]%store_Ok & Hrun).
    apply bind_Ok in Hrun as ([f st1] & Halloc & Hrun).
    injection Hrun as <- <-. right. repeat split; try done.
    right. by exists c, f.
  - destruct (decide (c = 1)) as [-> | ?].
    + injection Hrun as <- <-. right. repeat split; try done. by left.
    + injection Hrun as <- <-. by left.
Qed.

Lemma count_of_insert_eq (mc : list Z) (f c : Z) :
  0 ≤ f < Z.of_nat (length mc) → count_of (<[Z.to_nat f := c]> mc) f = Some c.
Proof. intros Hf. rewrite count_of_insert by lia. by rewrite decide_True. Qed.

Lemma count_of_insert_ne (mc : list Z) (f g c : Z) :
  0 ≤ f < Z.of_nat (length mc) → g ≠ f →
  count_of (<[Z.to_nat f := c]> mc) g = count_of mc g.
Proof.
  intros Hf Hne. destruct (decide (0 ≤ g)).
  - rewrite count_of_insert by lia. by rewrite decide_False.
  - unfold count_of. by rewrite !decide_False.
Qed.

Lemma lookup_pte_insert_other (pt : pagetable) (dir : pte_directory)
    (vpn vpn' : Z) (x : pte) :
  wf_config → 0 ≤ vpn → vpn' ≠ vpn →
  pt !! Z.to_nat (outer_index_of vpn) = Some (Some dir) →
  lookup_pte (<[Z.to_nat (outer_index_of vpn) :=
                 Some (<[Z.to_nat (inner_index_of vpn) := x]> dir)]> pt) vpn'
  = lookup_pte pt vpn'.
Proof.
  intros Hc Hv Hne Hdir. destruct (decide (0 ≤ vpn')).
  - by apply lookup_pte_insert_ne.
  - unfold lookup_pte. by rewrite !decide_False.
Qed.

Lemma load_Ok_vpn (pt : pagetable) (vpn : Z) (slot : option pte_directory) :
  wf_config → load pt (outer_index_of vpn) = Ok slot → 0 ≤ vpn.
Proof.
  intros [Hn _] [Ho _]%load_Ok. unfold outer_index_of in Ho.
  destruct (decide (0 ≤ vpn)) as [? | Hneg]; [done |].
  assert (vpn / Z.of_nat NR_PTES_PER_PAGE < 0); [| lia].
  apply Z.div_lt_upper_bound; lia.
Qed.

Lemma find_process_middle (target : Z) (l1 l2 : list process) (temp : process) :
  ∀ k, pid temp = target → (∀ p, p ∈ l1 → pid p ≠ target) →
  find_process target k (l1 ++ temp :: l2) = Some ((k + length l1)%nat, temp).
Proof.
  induction l1 as [|q l1 IH]; intros k Htemp Hl1; simpl.
  - rewrite decide_True by done. by rewrite Nat.add_0_r.
  - rewrite decide_False by (apply Hl1; by left).
    rewrite IH; [| done | intros p Hp; apply Hl1; by right].
    do 2 f_equal. lia.
Qed.

(** The switch to the first process of the ready list that has the pid. *)
Lemma switch_process_at (child : process) (fresh : Z → pte_directory)
    (target : Z) (st : state) (l1 l2 : list process) (temp : process) :
  processes st = l1 ++ temp :: l2 → pid temp = target →
  (∀ p, p ∈ l1 → pid p ≠ target) →
  switch_process child fresh target st =
  Ok (State (l1 ++ l2 ++ [current st]) temp (mapcounts st)).
Proof.
  intros Hprocs Htemp Hl1. unfold switch_process.
  rewrite Hprocs, (find_process_middle _ _ _ _ 0 Htemp Hl1). simpl.
  by rewrite <- app_assoc, <- app_comm_cons, delete_middle.
Qed.

Lemma refs_table_pos (pt : pagetable) (vpn : Z) (e : pte) :
  wf_config → lookup_pte pt vpn = Some e → valid e = true →
  (1 ≤ refs_table (pfn e) pt)%nat.
Proof.
  intros Hc He Hv.
  assert (0 ≤ vpn) as H0 by (unfold lookup_pte in He; by case_decide).
  apply lookup_pte_Some in He as (dir & [_ Hdir]%load_Ok & [_ He]%load_Ok);
    [| done | done].
  pose proof (refs_table_update (pfn e) pt _ _ (Some dir) [] e zero_pte
                Hdir (λ H, eq_ind (Some dir) (λ s, if s is Some _ then True else _)
                                  I None H) He) as Hupd.
  unfold refers at 1 in Hupd. rewrite Hv, bool_decide_true in Hupd by done.
  simpl in Hupd. lia.
Qed.

(** The child's table, page by page. *)
Lemma lookup_pte_fork_child_zero (pt : pagetable) (vpn : Z) :
  wf_config → wf_pagetable pt →
  lookup_pte (fork_child (λ _, zero_directory) 0 pt
                (replicate NR_PTES_PER_PAGE None)) vpn
  = (λ e, cow_child e zero_pte) <$> lookup_pte pt vpn.
Proof.
  intros [Hn _] [Hlen Hwf]. unfold lookup_pte. case_decide as Hv; [| done].
  rewrite fork_child_lookup by by rewrite length_replicate.
  destruct (pt !! Z.to_nat (outer_index_of vpn)) as [[pdir|]|] eqn:Hslot;
    simpl; [| | done].
  - rewrite lookup_zip_with.
    pose proof (Forall_lookup_1 _ _ _ _ Hwf Hslot) as Hdir. simpl in Hdir.
    destruct (pdir !! Z.to_nat (inner_index_of vpn)) as [e|] eqn:He;
      simpl; [| done].
    apply lookup_lt_Some in He. unfold zero_directory.
    rewrite lookup_replicate_2; [done |]. unfold wf_directory in Hdir. lia.
  - apply lookup_lt_Some in Hslot.
    rewrite lookup_replicate_2 by lia. done.
Qed.

(** The state after the fork has its arrays in their sizes. *)
Lemma fork_state_wf (target : Z) (st : state) :
  wf_state st → table_in_range NR_PAGEFRAMES (ptbr st) →
  wf_state
    (State (processes st ++ [Process (pid (current st)) (fork_parent (ptbr st))])
       (Process target (fork_child (λ _, zero_directory) 0 (ptbr st)
                          (replicate NR_PTES_PER_PAGE None)))
       (foldl bump_slot (mapcounts st) (ptbr st))).
Proof.
  intros (Hlen & Hty & Hpt & Hprocs) Hrange.
  unfold wf_state, ptbr. simpl.
  assert (length (replicate NR_PTES_PER_PAGE (@None pte_directory))
          = length (pagetable_of (current st))) as Hclen.
  { rewrite length_replicate. symmetry. apply Hpt. }
  split; [by rewrite length_foldl_bump_slot |]. split; [| split].
  - apply Forall_lookup_2. intros i x Hx.
    destruct (lookup_lt_is_Some_2 (mapcounts st) i) as [c Hc'].
    { apply lookup_lt_Some in Hx. by rewrite length_foldl_bump_slot in Hx. }
    rewrite <- count_of_nat in Hx, Hc'.
    rewrite (count_of_foldl_bump_slot _ _ _ c) in Hx; try done.
    + injection Hx as <-. apply to_uint_bounds.
    + by rewrite Hlen.
    + rewrite count_of_nat in Hc'. apply (Forall_lookup_1 _ _ _ _ Hty Hc').
  - split.
    + rewrite length_fork_child by done. apply Hpt.
    + apply Forall_fork_child; [| by apply Forall_replicate].
      eapply Forall_impl; [apply Hpt |]. intros slot Hslot pdir i ->.
      simpl in *. unfold wf_directory in *.
      rewrite length_zip_with, Hslot. unfold zero_directory.
      rewrite length_replicate. lia.
  - apply Forall_app. split; [done |]. apply Forall_singleton. simpl.
    by apply wf_pagetable_fork_parent.
Qed.

(** [consistent_update] for a directory that may come from [malloc]: the
    block has the size of a directory and holds no valid entry. *)
Lemma consistent_update_block (st : state) (o i : nat)
    (slot : option pte_directory) (fresh : pte_directory) (e x : pte)
    (mc' : list Z) :
  consistent st →
  ptbr st !! o = Some slot →
  (slot = None → wf_directory fresh ∧ Forall (λ p, valid p = false) fresh) →
  default fresh slot !! i = Some e →
  (valid x = true → 0 ≤ pfn x < Z.of_nat NR_PAGEFRAMES) →
  length mc' = NR_PAGEFRAMES →
  Forall (λ c, 0 ≤ c < 2 ^ 32) mc' →
  (∀ g c', count_of mc' g = Some c' →
     ∃ c, count_of (mapcounts st) g = Some c ∧
          c' + (if refers g e then 1 else 0) = c + (if refers g x then 1 else 0)) →
  consistent
    (State (processes st)
       (Process (pid (current st))
          (<[o := Some (<[i := x]> (default fresh slot))]> (ptbr st)))
       mc').
Proof.
  unfold consistent, wf_state, wf_pagetable, refs, ptbr. simpl.
  intros ((Hlen & Hty & [Hptlen Hpt] & Hprocs) & Hrange & Hrprocs & Hcount)
    Hslot Hblock He Hx Hlen' Hty' Hmc'.
  assert (from_option wf_directory True slot) as Hwfslot
    by apply (Forall_lookup_1 _ _ _ _ Hpt Hslot).
  assert (from_option (frames_in_range NR_PAGEFRAMES) True slot) as Hrslot
    by apply (Forall_lookup_1 _ _ _ _ Hrange Hslot).
  split; [| split; [| split]].
  - repeat split; try done.
    + by rewrite length_insert.
    + apply Forall_insert; [done |]. simpl. unfold wf_directory.
      rewrite length_insert. destruct slot; simpl; [done |].
      by apply Hblock.
  - apply Forall_insert; [done |]. simpl.
    apply Forall_insert; [| done].
    destruct slot; simpl; [done |].
    destruct Hblock as [_ Hblock]; [done |].
    eapply Forall_impl; [exact Hblock |]. simpl. intros p Hp. by rewrite Hp.
  - done.
  - intros g c' Hc'. destruct (Hmc' g c' Hc') as (c & Hc & Hrel).
    apply Hcount in Hc.
    assert (slot = None → refs_dir g fresh = 0%nat) as Hzero.
    { intros Hnone. destruct (Hblock Hnone) as [_ Hinv]. unfold refs_dir.
      clear -Hinv. induction Hinv as [|p l Hp _ IH]; simpl; [done |].
      unfold refers at 1. by rewrite Hp. }
    pose proof (refs_table_update g _ o i slot fresh e x Hslot Hzero He) as Hupd.
    destruct (refers g e), (refers g x); lia.
Qed.

(** [alloc_page] for a page that is not mapped keeps the books, when the
    block it may have to take for the directory holds no valid entry. *)
Lemma alloc_page_consistent_block (fresh : pte_directory) (vpn rw : Z)
    (st : state) :
  wf_config → consistent st → in_address_space vpn →
  (∀ e, lookup_pte (ptbr st) vpn = Some e → valid e = false) →
  (load (ptbr st) (outer_index_of vpn) = Ok None →
   wf_directory fresh ∧ Forall (λ p, valid p = false) fresh) →
  ∃ r st', alloc_page fresh vpn rw st = Ok (r, st') ∧ consistent st'.
Proof.
  intros Hc Hst Hvpn Hunmapped Hblock.
  pose proof Hst as ((Hlen & Hty & [Hptlen Hpt] & _) & _ & _ & Hcount).
  destruct (least_free_or_full (mapcounts st)) as [[f Hf] | Hfull].
  2:{ exists (to_uint (-1)), st. split; [by apply alloc_page_full | done]. }
  destruct (indices_in_range vpn Hc Hvpn) as [Ho Hi].
  destruct (load_in_range (ptbr st) (outer_index_of vpn)) as (slot & Hslot & Hslot');
    [lia |].
  assert (slot = None → wf_directory fresh ∧ Forall (λ p, valid p = false) fresh)
    as Hblock' by (intros ->; by apply Hblock).
  assert (length (default fresh slot) = NR_PTES_PER_PAGE) as Hdlen.
  { pose proof (Forall_lookup_1 _ _ _ _ Hpt Hslot') as Hw.
    destruct slot; simpl in *; [done | by apply Hblock']. }
  destruct (load_in_range (default fresh slot) (inner_index_of vpn))
    as (e & He & He'); [lia |].
  assert (valid e = false) as Hv.
  { destruct slot as [dir|]; simpl in *.
    - apply Hunmapped, lookup_pte_Some; [done | apply Hvpn | eauto].
    - destruct Hblock' as [_ Hinv]; [done |].
      apply (Forall_lookup_1 _ _ _ _ Hinv He'). }
  pose proof (count_of_range _ _ _ (proj1 Hf)) as Hfrange.
  eexists _, _. split; [by eapply alloc_page_installs |].
  rewrite set_mapcounts_set_ptbr.
  apply consistent_update_block with (e := e); try done.
  - intros _. unfold alloc_entry. case_decide; simpl; lia.
  - by rewrite length_insert.
  - apply Forall_insert; [done | lia].
  - intros g c' Hc'. pose proof (count_of_range _ _ _ Hc') as Hg.
    rewrite length_insert in Hg. rewrite count_of_insert in Hc' by lia.
    assert (refers g e = false) as -> by (unfold refers; by rewrite Hv).
    assert (refers g (alloc_entry f rw e) = bool_decide (f = g)) as ->
      by (unfold refers, alloc_entry; by destruct (decide (rw = 2 ∨ rw = 3))).
    case_decide as E.
    + subst g. injection Hc' as <-. exists 0. split; [apply Hf |].
      by rewrite bool_decide_true.
    + exists c'. split; [done |]. by rewrite bool_decide_false.
Qed.

End More_facts.

Section Further.

Context {cfg : vm_config}.

(** X1.  With a frame free, [alloc_page] for a page of the address space
    returns the lowest free frame and maps the page to it: the entry is
    valid and names that frame, whose share count is 1 now, and is writable
    when [rw] is 2 or 3.  For other values of [rw] the entry keeps the
    [writable] bit it had, and it keeps its copy-on-write marker in any case.
    No other share count changes, no other page of an existing directory
    and no other process. *)
Theorem alloc_page_maps_page (fresh : pte_directory) (vpn rw : Z) (st : state) (g : Z) :
  wf_config → wf_state st → wf_directory fresh → in_address_space vpn →
  is_free (mapcounts st) g →
  ∃ f st' e',
    alloc_page fresh vpn rw st = Ok (f, st') ∧
    least_free (mapcounts st) f ∧
    count_of (mapcounts st') f = Some 1 ∧
    (∀ h, h ≠ f → count_of (mapcounts st') h = count_of (mapcounts st) h) ∧
    lookup_pte (ptbr st') vpn = Some e' ∧
    valid e' = true ∧ pfn e' = f ∧
    (rw = 2 ∨ rw = 3 → writable e' = true) ∧
    (∀ e, lookup_pte (ptbr st) vpn = Some e →
          private e' = private e ∧
          (rw ≠ 2 → rw ≠ 3 → writable e' = writable e) ∧
          ∀ vpn', vpn' ≠ vpn →
                  lookup_pte (ptbr st') vpn' = lookup_pte (ptbr st) vpn') ∧
    processes st' = processes st.
Proof.
  intros Hc (Hlen & Hty & [Hptlen Hpt] & _) Hfresh Hvpn Hg.
  destruct (least_free_exists _ _ Hg) as [f Hf].
  destruct (indices_in_range vpn Hc Hvpn) as [Ho Hi].
  destruct (load_in_range (ptbr st) (outer_index_of vpn)) as (slot & Hslot & Hslot');
    [lia |].
  assert (length (default fresh slot) = NR_PTES_PER_PAGE) as Hdlen.
  { pose proof (Forall_lookup_1 _ _ _ _ Hpt Hslot') as Hw.
    by destruct slot. }
  destruct (load_in_range (default fresh slot) (inner_index_of vpn))
    as (e0 & He0 & He0'); [lia |].
  pose proof (count_of_range _ _ _ (proj1 Hf)) as Hfrange.
  exists f. eexists. exists (alloc_entry f rw e0).
  split; [by apply alloc_page_installs |]. simpl.
  split; [done |].
  split; [by apply count_of_insert_eq |].
  split; [intros h Hh; by apply count_of_insert_ne |].
  split.
  { unfold ptbr. simpl. apply lookup_pte_insert; [done | apply Hvpn | |].
    - by apply lookup_lt_Some in Hslot'.
    - by apply lookup_lt_Some in He0'. }
  unfold alloc_entry.
  split; [by case_decide |]. split; [by case_decide |].
  split; [intros Hrw; by rewrite decide_True |].
  split; [| done].
  intros e He. apply lookup_pte_Some in He as (dir & Hdir & He); [| done | apply Hvpn].
  rewrite Hslot in Hdir. injection Hdir as ->. simpl in *.
  rewrite He0 in He. injection He as ->.
  split; [by case_decide |]. split.
  - intros ? ?. rewrite decide_False by lia. done.
  - intros vpn' Hne. unfold ptbr. simpl.
    apply lookup_pte_insert_other; [done | apply Hvpn | done | done].
Qed.

(** X2.  With a frame free, mapping a page whose entry is clear and freeing
    it again gives back the state [alloc_page] was called in: tables, share
    counts and processes. *)
Theorem alloc_then_free_restores (fresh : pte_directory) (vpn rw : Z)
    (st : state) (e : pte) (g : Z) :
  wf_config → wf_state st →
  lookup_pte (ptbr st) vpn = Some e →
  valid e = false → writable e = false → pfn e = 0 →
  is_free (mapcounts st) g →
  ∃ f st1, alloc_page fresh vpn rw st = Ok (f, st1) ∧
           lookup_pte (ptbr st1) vpn = Some (alloc_entry f rw e) ∧
           free_page vpn st1 = Ok st.
Proof.
  intros Hc (Hlen & _) He Hv Hw Hpfn Hg.
  assert (0 ≤ vpn) as H0 by (unfold lookup_pte in He; by case_decide).
  apply lookup_pte_Some in He as (dir & Hdir & He); [| done | done].
  destruct (least_free_exists _ _ Hg) as [f Hf].
  pose proof (count_of_range _ _ _ (proj1 Hf)) as Hfrange.
  pose proof Hdir as [Ho Hdir']%load_Ok. pose proof He as [Hi He']%load_Ok.
  pose proof (lookup_lt_Some _ _ _ Hdir'). pose proof (lookup_lt_Some _ _ _ He').
  exists f. eexists.
  split; [by apply (alloc_page_installs fresh vpn rw st f (Some dir) e) |].
  split; [unfold ptbr; simpl; by apply lookup_pte_insert |].
  erewrite (free_page_present vpn _ _ (alloc_entry f rw e) 1).
  - rewrite set_mapcounts_set_ptbr. simpl. unfold ptbr at 1. simpl.
    rewrite (list_insert_insert_eq (ptbr st)).
    rewrite (list_insert_insert_eq dir).
    assert (pfn (alloc_entry f rw e) = f) as ->
      by (unfold alloc_entry; by case_decide).
    assert (private (alloc_entry f rw e) = private e) as ->
      by (unfold alloc_entry; by case_decide).
    rewrite list_insert_insert_eq. change (to_uint (1 - 1)) with 0.
    rewrite (list_insert_id (mapcounts st)).
    2:{ by apply count_of_Some, Hf. }
    rewrite (list_insert_id dir).
    2:{ rewrite He'. f_equal. destruct e; simpl in *. by subst. }
    rewrite (list_insert_id (ptbr st)) by done.
    apply f_equal, state_eta.
  - unfold ptbr. simpl. apply load_Ok. split; [done |].
    by apply list_lookup_insert_eq.
  - apply load_Ok. split; [done |]. by apply list_lookup_insert_eq.
  - simpl. assert (pfn (alloc_entry f rw e) = f) as ->
      by (unfold alloc_entry; by case_decide).
    by apply count_of_insert_eq.
Qed.

(** X3.  A frame is free again once its only page is freed, and the next
    allocation does not go past it: mapping the page anew gives the lowest
    free frame, which is that frame or one below. *)
Theorem freed_frame_is_reused (fresh : pte_directory) (vpn rw : Z)
    (st : state) (e : pte) :
  wf_config → wf_state st →
  lookup_pte (ptbr st) vpn = Some e →
  count_of (mapcounts st) (pfn e) = Some 1 →
  ∃ st1 f st2,
    free_page vpn st = Ok st1 ∧
    is_free (mapcounts st1) (pfn e) ∧
    alloc_page fresh vpn rw st1 = Ok (f, st2) ∧
    least_free (mapcounts st1) f ∧ 0 ≤ f ≤ pfn e.
Proof.
  intros Hc (Hlen & _) He Hcnt.
  assert (0 ≤ vpn) as H0 by (unfold lookup_pte in He; by case_decide).
  apply lookup_pte_Some in He as (dir & Hdir & He); [| done | done].
  pose proof (count_of_range _ _ _ Hcnt) as Hrange.
  pose proof Hdir as [Ho Hdir']%load_Ok. pose proof He as [Hi He']%load_Ok.
  pose proof (lookup_lt_Some _ _ _ Hdir'). pose proof (lookup_lt_Some _ _ _ He').
  eexists. 
  assert (is_free (<[Z.to_nat (pfn e) := to_uint (1 - 1)]> (mapcounts st)) (pfn e))
    as Hfree by by apply count_of_insert_eq.
  destruct (least_free_exists _ _ Hfree) as [f Hf].
  exists f. eexists.
  split; [by apply (free_page_present vpn st dir e 1) |].
  rewrite set_mapcounts_set_ptbr. simpl.
  split; [done |]. split.
  - eapply alloc_page_installs; try done.
    + simpl. by rewrite length_insert.
    + unfold ptbr. simpl. apply load_Ok. split; [done |].
      by apply list_lookup_insert_eq.
    + simpl. apply load_Ok. split; [done |]. by apply list_lookup_insert_eq.
  - split; [done |].
    pose proof (count_of_range _ _ _ (proj1 Hf)).
    split; [lia |].
    destruct (decide (f ≤ pfn e)) as [? | Hgt]; [done |].
    destruct (proj2 Hf (pfn e)); [lia | done].
Qed.

(** X4.  On an entry with the copy-on-write marker the kind of access makes
    no difference to [handle_page_fault]: a read fault is handled like a
    write fault, share count and new frame included. *)
Theorem cow_fault_ignores_access (fresh : pte_directory) (vpn rw rw' : Z)
    (st : state) (e : pte) :
  wf_config →
  lookup_pte (ptbr st) vpn = Some e → private e = true →
  handle_page_fault fresh vpn rw st = handle_page_fault fresh vpn rw' st.
Proof.
  intros Hc He Hp.
  assert (0 ≤ vpn) as H0 by (unfold lookup_pte in He; by case_decide).
  apply lookup_pte_Some in He as (dir & Hdir & He); [| done | done].
  rewrite !(handle_page_fault_present _ _ _ _ _ _ Hdir He).
  destruct (valid e); simpl; [| done].
  rewrite Hp. by rewrite !decide_False by naive_solver.
Qed.

(** X5.  When [handle_page_fault] returns [false], or runs off its end, the
    state is the one it was called in. *)
Theorem unresolved_fault_changes_nothing (fresh : pte_directory) (vpn rw : Z)
    (st st' : state) (r : option bool) :
  handle_page_fault fresh vpn rw st = Ok (r, st') → r ≠ Some true → st' = st.
Proof.
  intros Hrun Hr.
  destruct (handle_page_fault_Ok_inv _ _ _ _ _ _ Hrun)
    as (dir & e & _ & _ & [[_ ->] | [-> _]]); done.
Qed.

(** X6.  Whatever [handle_page_fault] returns, it has left the ready list
    and the pid of the running process alone, has changed no entry of another
    page, and has changed the share count of no frame other than the one the
    faulting entry names and frames that were free. *)
Theorem handle_page_fault_frame (fresh : pte_directory) (vpn rw : Z)
    (st st' : state) (r : option bool) :
  wf_config → wf_state st →
  handle_page_fault fresh vpn rw st = Ok (r, st') →
  processes st' = processes st ∧
  pid (current st') = pid (current st) ∧
  (∀ vpn', vpn' ≠ vpn → lookup_pte (ptbr st') vpn' = lookup_pte (ptbr st) vpn') ∧
  (∀ e g, lookup_pte (ptbr st) vpn = Some e → g ≠ pfn e →
          ¬ is_free (mapcounts st) g →
          count_of (mapcounts st') g = count_of (mapcounts st) g).
Proof.
  intros Hc (Hlen & Hty & _) Hrun.
  destruct (handle_page_fault_Ok_inv _ _ _ _ _ _ Hrun)
    as (dir & e & Hdir & He & Hcases).
  pose proof (load_Ok_vpn _ _ _ Hc Hdir) as H0.
  assert (lookup_pte (ptbr st) vpn = Some e) as Hlook
    by (apply lookup_pte_Some; eauto).
  pose proof Hdir as [Ho Hdir']%load_Ok. pose proof He as [Hi He']%load_Ok.
  destruct Hcases as [[_ ->] | (-> & Hv & Hp & [[Hcnt ->] | Hshared])];
    [done | |].
  - simpl. repeat split; try done.
    intros vpn' Hne. unfold ptbr. simpl.
    by apply lookup_pte_insert_other.
  - destruct Hshared as (c & f & Hcnt & Hc1 & Halloc).
    pose proof (count_of_range _ _ _ Hcnt) as Hrange.
    assert (c < 2 ^ 32) as Hcty.
    { apply count_of_Some in Hcnt as [_ Hcnt].
      apply (Forall_lookup_1 _ _ _ _ Hty Hcnt). }
    rewrite to_uint_small in Halloc by lia.
    apply alloc_page_Ok_inv in Halloc as [(_ & -> & _) | Hinst];
      [| | simpl; by rewrite length_insert].
    + simpl. repeat split; try done.
      intros e' g He'' Hg _. rewrite Hlook in He''. injection He'' as <-.
      by apply count_of_insert_ne.
    + destruct Hinst as (slot & e0 & Hf & Hslot & He0 & ->).
      simpl in *. unfold ptbr in Hslot. simpl in Hslot.
      unfold ptbr in Hdir. rewrite Hdir in Hslot. injection Hslot as <-.
      repeat split; try done.
      * intros vpn' Hne. unfold ptbr. simpl.
        by apply lookup_pte_insert_other.
      * intros e' g He'' Hg Hnfree. rewrite Hlook in He''. injection He'' as <-.
        pose proof (count_of_range _ _ _ (proj1 Hf)) as Hfrange.
        rewrite length_insert in Hfrange.
        assert (f ≠ pfn e) as Hne.
        { intros ->. destruct Hf as [Hf _]. unfold is_free in Hf.
          rewrite count_of_insert_eq in Hf by done. injection Hf as ?. lia. }
        assert (g ≠ f) as Hgf.
        { intros ->. apply Hnfree. destruct Hf as [Hf _]. unfold is_free in *.
          by rewrite count_of_insert_ne in Hf. }
        rewrite count_of_insert_ne by (rewrite ?length_insert; done).
        by apply count_of_insert_ne.
Qed.

(** X7.  When the directory of the page is there, [handle_page_fault] returns
    [false] in two cases and no other: the entry is invalid, or the access is
    a write and the entry is neither writable nor copy-on-write. *)
Theorem fault_refused_iff (fresh : pte_directory) (vpn rw : Z) (st : state) (e : pte) :
  wf_config →
  lookup_pte (ptbr st) vpn = Some e →
  (∃ st', handle_page_fault fresh vpn rw st = Ok (Some false, st')) ↔
  valid e = false ∨ (rw = RW_WRITE ∧ writable e = false ∧ private e = false).
Proof.
  intros Hc He.
  assert (0 ≤ vpn) as H0 by (unfold lookup_pte in He; by case_decide).
  apply lookup_pte_Some in He as (dir & Hdir & He); [| done | done].
  by apply (handle_page_fault_false_iff fresh vpn rw st dir e).
Qed.

(** X8.  With no frame free, two write faults in a row on a copy-on-write
    page whose frame has share count 2 are both reported as handled, and
    after the second the entry is writable on the frame it had: the share
    count is 1 and the ready list, with whatever maps the frame there, is as
    it was. *)
Theorem two_faults_without_memory (fresh : pte_directory) (vpn : Z)
    (st : state) (e : pte) :
  wf_config → wf_state st →
  lookup_pte (ptbr st) vpn = Some e →
  valid e = true → private e = true →
  count_of (mapcounts st) (pfn e) = Some 2 →
  (∀ g, ¬ is_free (mapcounts st) g) →
  ∃ st1 st2,
    handle_page_fault fresh vpn RW_WRITE st = Ok (Some true, st1) ∧
    lookup_pte (ptbr st1) vpn = Some e ∧
    handle_page_fault fresh vpn RW_WRITE st1 = Ok (Some true, st2) ∧
    lookup_pte (ptbr st2) vpn = Some (set_writable true e) ∧
    count_of (mapcounts st2) (pfn e) = Some 1 ∧
    processes st2 = processes st.
Proof.
  intros Hc (Hlen & _) He Hv Hp Hcnt Hfull.
  assert (0 ≤ vpn) as H0 by (unfold lookup_pte in He; by case_decide).
  pose proof He as Hlook.
  apply lookup_pte_Some in He as (dir & Hdir & He); [| done | done].
  pose proof (count_of_range _ _ _ Hcnt) as Hrange.
  set (st1 := set_mapcounts (<[Z.to_nat (pfn e) := 1]> (mapcounts st)) st).
  assert (handle_page_fault fresh vpn RW_WRITE st = Ok (Some true, st1)) as Hrun1.
  { rewrite (handle_page_fault_present _ _ _ _ _ _ Hdir He).
    rewrite Hv, Hp. simpl. rewrite decide_False by naive_solver.
    rewrite (proj1 (count_of_load _ _ _) Hcnt). simpl.
    rewrite (store_in_range _ _ _ Hrange). simpl.
    change (to_uint (2 - 1)) with 1.
    rewrite alloc_page_full; [done | by simpl; rewrite length_insert |].
    simpl. intros g Hg. unfold is_free in Hg.
    destruct (decide (g = pfn e)) as [-> | Hne].
    - by rewrite count_of_insert_eq in Hg.
    - rewrite count_of_insert_ne in Hg by done. by apply (Hfull g). }
  assert (count_of (mapcounts st1) (pfn e) = Some 1) as Hcnt1
    by by apply count_of_insert_eq.
  destruct (cow_break_last fresh vpn st1 e Hc Hlook Hv Hp Hcnt1)
    as (st2 & Hrun2 & Hmc2 & Hpte2 & _ & Hprocs2 & _).
  exists st1, st2. repeat split; try done. by rewrite Hmc2.
Qed.

(** X9.  [free_page] leaves the copy-on-write marker, and this is what
    follows.  Take a page whose entry has the marker and names a frame of
    the machine, and free it.  The frame is free then when its share count
    was 1, and every other frame that was free still is.  Whenever a frame
    is free after the call, mapping the page again with read permission only
    gives an entry that is valid, not writable and marked, and the first
    write fault on it is answered [true] and makes the page writable. *)
Theorem stale_marker_grants_write (fresh : pte_directory) (vpn : Z)
    (st : state) (e : pte) (c : Z) :
  wf_config → wf_state st →
  lookup_pte (ptbr st) vpn = Some e → private e = true →
  count_of (mapcounts st) (pfn e) = Some c →
  ∃ st1,
    free_page vpn st = Ok st1 ∧
    (c = 1 → is_free (mapcounts st1) (pfn e)) ∧
    (∀ g, g ≠ pfn e → is_free (mapcounts st) g → is_free (mapcounts st1) g) ∧
    ((∃ g, is_free (mapcounts st1) g) →
     ∃ f st2 st3,
       alloc_page fresh vpn RW_READ st1 = Ok (f, st2) ∧
       lookup_pte (ptbr st2) vpn = Some (PTE true false f true) ∧
       handle_page_fault fresh vpn RW_WRITE st2 = Ok (Some true, st3) ∧
       lookup_pte (ptbr st3) vpn = Some (PTE true true f true)).
Proof.
  intros Hc (Hlen & Hty & _) He Hp Hcnt.
  assert (0 ≤ vpn) as H0 by (unfold lookup_pte in He; by case_decide).
  apply lookup_pte_Some in He as (dir & Hdir & He); [| done | done].
  pose proof (count_of_range _ _ _ Hcnt) as Hrange.
  pose proof Hdir as [Ho Hdir']%load_Ok. pose proof He as [Hi He']%load_Ok.
  pose proof (lookup_lt_Some _ _ _ Hdir') as Holt.
  pose proof (lookup_lt_Some _ _ _ He') as Hilt.
  set (mc1 := <[Z.to_nat (pfn e) := to_uint (c - 1)]> (mapcounts st)).
  set (e1 := PTE false false 0 (private e)).
  set (dir1 := <[Z.to_nat (inner_index_of vpn) := e1]> dir).
  set (pt1 := <[Z.to_nat (outer_index_of vpn) := Some dir1]> (ptbr st)).
  set (st1 := State (processes st) (Process (pid (current st)) pt1) mc1).
  exists st1.
  split; [by rewrite (free_page_present vpn st dir e c) |].
  split.
  { intros ->. unfold is_free, st1, mc1. simpl. by apply count_of_insert_eq. }
  split.
  { intros g Hne Hg. unfold is_free, st1, mc1. simpl.
    by rewrite count_of_insert_ne. }
  intros [g Hg1].
  destruct (least_free_exists _ _ Hg1) as [f Hf].
  pose proof (count_of_range _ _ _ (proj1 Hf)) as Hfrange.
  unfold st1, mc1 in Hfrange. simpl in Hfrange.
  rewrite length_insert in Hfrange.
  assert (load (ptbr st1) (outer_index_of vpn) = Ok (Some dir1)) as Hdir1.
  { apply load_Ok. split; [done |]. by apply list_lookup_insert_eq. }
  assert (load dir1 (inner_index_of vpn) = Ok e1) as He1.
  { apply load_Ok. split; [done |]. by apply list_lookup_insert_eq. }
  set (e2 := PTE true false f true).
  set (dir2 := <[Z.to_nat (inner_index_of vpn) := e2]> dir1).
  set (pt2 := <[Z.to_nat (outer_index_of vpn) := Some dir2]> pt1).
  set (st2 := State (processes st) (Process (pid (current st)) pt2)
                (<[Z.to_nat f := 1]> mc1)).
  assert (alloc_page fresh vpn RW_READ st1 = Ok (f, st2)) as Hrun2.
  { rewrite (alloc_page_installs fresh vpn RW_READ st1 f (Some dir1) e1);
      try done.
    - unfold st2, pt2, dir2, e2, alloc_entry, e1, RW_READ. simpl.
      by rewrite Hp.
    - simpl. unfold mc1. by rewrite length_insert. }
  assert (lookup_pte (ptbr st2) vpn = Some e2) as Hlook2.
  { unfold ptbr, st2, pt2, dir2. simpl. apply lookup_pte_insert; try done.
    - unfold pt1. by rewrite length_insert.
    - unfold dir1. by rewrite length_insert. }
  assert (count_of (mapcounts st2) (pfn e2) = Some 1) as Hcnt2.
  { simpl. apply count_of_insert_eq. unfold mc1. by rewrite length_insert. }
  destruct (cow_break_last fresh vpn st2 e2 Hc Hlook2 eq_refl eq_refl Hcnt2)
    as (st3 & Hrun3 & _ & Hpte3 & _).
  by exists f, st2, st3.
Qed.

(** X10.  When the ready list has a process with the pid, [switch_process]
    takes the first such process out of the list and makes it current, puts
    the process that ran at the tail, and keeps the order of the others; no
    table and no share count changes. *)
Theorem switch_process_queue (child : process) (fresh : Z → pte_directory)
    (target : Z) (st : state) (l1 l2 : list process) (temp : process) :
  processes st = l1 ++ temp :: l2 → pid temp = target →
  (∀ p, p ∈ l1 → pid p ≠ target) →
  switch_process child fresh target st =
  Ok (State (l1 ++ l2 ++ [current st]) temp (mapcounts st)).
Proof. apply switch_process_at. Qed.

(** X11.  Switching to a process of the ready list and back to the one that
    ran leaves that one running again, on the same share counts, with the
    visited process moved to the tail of the ready list; this for a running
    process whose pid no process of the list has. *)
Theorem switch_away_and_back (child : process) (fresh : Z → pte_directory)
    (st : state) (l1 l2 : list process) (temp : process) :
  processes st = l1 ++ temp :: l2 →
  (∀ p, p ∈ l1 → pid p ≠ pid temp) →
  (∀ p, p ∈ processes st → pid p ≠ pid (current st)) →
  switch_process child fresh (pid temp) st
    ≫= switch_process child fresh (pid (current st))
  = Ok (State (l1 ++ l2 ++ [temp]) (current st) (mapcounts st)).
Proof.
  intros Hprocs Hl1 Hcur.
  rewrite (switch_process_at child fresh (pid temp) st l1 l2 temp) by done.
  simpl.
  rewrite (switch_process_at child fresh (pid (current st)) _
             (l1 ++ l2) [] (current st)); simpl.
  - by rewrite <- app_assoc.
  - by rewrite <- app_assoc.
  - done.
  - intros p Hp. apply Hcur. rewrite Hprocs.
    apply elem_of_app in Hp as [? | ?]; apply elem_of_app; [by left |].
    right. by right.
Qed.

(** X12.  On zeroed blocks the fork gives the child, for every page, the
    parent's entry turned by the rule of the fork, and nothing where the
    parent has no directory.  So the child maps no page the parent does not
    map, and where the parent's entry is invalid the child's is all zero,
    whatever marker the parent's entry still has. *)
Theorem fork_copies_the_table (target : Z) (st : state) :
  wf_config → wf_state st →
  table_in_range NR_PAGEFRAMES (ptbr st) →
  (∀ p, p ∈ processes st → pid p ≠ target) →
  ∃ st',
    switch_process zero_process (λ _, zero_directory) target st = Ok st' ∧
    (∀ vpn, lookup_pte (ptbr st') vpn
            = (λ e, cow_child e zero_pte) <$> lookup_pte (ptbr st) vpn) ∧
    (∀ vpn ec, lookup_pte (ptbr st') vpn = Some ec → valid ec = true →
               ∃ e, lookup_pte (ptbr st) vpn = Some e ∧ valid e = true ∧
                    pfn ec = pfn e) ∧
    (∀ vpn e, lookup_pte (ptbr st) vpn = Some e → valid e = false →
              lookup_pte (ptbr st') vpn = Some zero_pte).
Proof.
  intros Hc (Hlen & Hty & Hpt & _) Hrange Hfresh.
  eexists. split.
  { apply switch_process_fork; try done.
    - by apply find_process_None.
    - simpl. apply length_replicate.
    - intros _. apply length_replicate.
    - by rewrite Hlen. }
  unfold ptbr at 1 3 5. simpl.
  assert (∀ vpn,
            lookup_pte (fork_child (λ _, zero_directory) 0 (ptbr st)
                          (replicate NR_PTES_PER_PAGE None)) vpn
            = (λ e, cow_child e zero_pte) <$> lookup_pte (ptbr st) vpn) as Heq
    by (intros vpn; by apply lookup_pte_fork_child_zero).
  split; [done |]. split.
  - intros vpn ec. rewrite Heq.
    destruct (lookup_pte (ptbr st) vpn) as [e|]; simpl; [| done].
    intros [= <-]. unfold cow_child.
    destruct (valid e) eqn:Hv; simpl; [| done]. intros _. by exists e.
  - intros vpn e He Hv. rewrite Heq, He. simpl. unfold cow_child. by rewrite Hv.
Qed.

(** X13.  Fork and write on both sides, end to end, whatever the blocks of
    [malloc] hold.  A process is the only one on the frame of a page that is
    writable or copy-on-write, a frame is free, and pids are distinct.
    After the fork of a child, the child's write fault on the page, the
    switch back to the parent and the parent's write fault on the page, the
    parent has the page writable on its old frame, the child, in the ready
    list, has it writable on another frame, and both frames have share
    count 1. *)
Theorem fork_and_write_both_sides (child child' : process)
    (fresh fresh' : Z → pte_directory) (block block' : pte_directory)
    (target vpn : Z) (st : state) (e : pte) (g : Z) :
  wf_config → consistent st →
  length (pagetable_of child) = NR_PTES_PER_PAGE →
  (∀ i, wf_directory (fresh i)) →
  lookup_pte (ptbr st) vpn = Some e → valid e = true →
  writable e = true ∨ private e = true →
  count_of (mapcounts st) (pfn e) = Some 1 →
  is_free (mapcounts st) g →
  (∀ p, p ∈ processes st → pid p ≠ target) →
  (∀ p, p ∈ processes st → pid p ≠ pid (current st)) →
  ∃ st1 st2 st3 st4 queued f,
    switch_process child fresh target st = Ok st1 ∧
    handle_page_fault block vpn RW_WRITE st1 = Ok (Some true, st2) ∧
    switch_process child' fresh' (pid (current st)) st2 = Ok st3 ∧
    handle_page_fault block' vpn RW_WRITE st3 = Ok (Some true, st4) ∧
    pid (current st4) = pid (current st) ∧
    lookup_pte (ptbr st4) vpn = Some (PTE true true (pfn e) true) ∧
    processes st4 = processes st ++ [queued] ∧
    pid queued = target ∧
    lookup_pte (pagetable_of queued) vpn = Some (PTE true true f true) ∧
    f ≠ pfn e ∧
    count_of (mapcounts st4) (pfn e) = Some 1 ∧
    count_of (mapcounts st4) f = Some 1.
Proof.
  intros Hc Hst Hchild Hfresh He Hv Hw Hcnt Hg Htarget Hpids.
  pose proof Hst as ((Hlen & Hty & Hpt & Hprocs) & Hrange & _ & Hcount).
  assert (0 ≤ vpn) as H0 by (unfold lookup_pte in He; by case_decide).
  assert (writable e || private e = true) as Hwp
    by (destruct Hw as [-> | ->]; by rewrite ?orb_true_r).
  (* the entry of the block that the child's entry is written over *)
  destruct (lookup_lt_is_Some_2 (fresh (outer_index_of vpn))
              (Z.to_nat (inner_index_of vpn))) as [c0 Hc0].
  { rewrite (Hfresh (outer_index_of vpn)). destruct Hc as [Hn _].
    pose proof (Z.mod_pos_bound vpn (Z.of_nat NR_PTES_PER_PAGE)).
    unfold inner_index_of. lia. }
  (* the fork *)
  set (parent := Process (pid (current st)) (fork_parent (ptbr st))).
  set (ct := fork_child fresh 0 (ptbr st) (pagetable_of child)).
  set (mc1 := foldl bump_slot (mapcounts st) (ptbr st)).
  set (st1 := State (processes st ++ [parent]) (Process target ct) mc1).
  assert (switch_process child fresh target st = Ok st1) as Hrun1.
  { apply switch_process_fork; try done.
    - by apply find_process_None.
    - by rewrite Hlen. }
  assert (length mc1 = NR_PAGEFRAMES) as Hlen1
    by (unfold mc1; by rewrite length_foldl_bump_slot).
  set (ec := PTE true (writable c0) (pfn e) true).
  assert (lookup_pte (ptbr st1) vpn = Some ec) as Hlook1.
  { unfold ptbr, st1, ct. simpl.
    rewrite (lookup_pte_fork_child fresh _ _ vpn e c0); try done.
    - unfold cow_child. by rewrite Hv, Hwp.
    - rewrite Hchild. symmetry. apply Hpt. }
  assert (lookup_pte (pagetable_of parent) vpn
          = Some (PTE true false (pfn e) true)) as Hlookp.
  { simpl. rewrite lookup_pte_fork_parent, He. simpl. unfold cow_parent.
    rewrite Hv, Hwp. clear -Hv. destruct e; simpl in *. by subst. }
  assert (refs_table (pfn e) (ptbr st) = 1%nat) as Hone.
  { pose proof (refs_table_pos _ _ _ Hc He Hv).
    pose proof (Hcount _ _ Hcnt) as Hr. unfold refs in Hr. lia. }
  assert (refs_table g (ptbr st) = 0%nat) as Hzero.
  { pose proof (Hcount _ _ Hg) as Hr. unfold refs in Hr. lia. }
  assert (count_of mc1 (pfn e) = Some 2) as Hcnt1.
  { unfold mc1. rewrite (count_of_foldl_bump_slot _ _ _ 1); try done.
    - by rewrite Hone.
    - by rewrite Hlen. }
  assert (is_free mc1 g) as Hg1.
  { unfold is_free, mc1. rewrite (count_of_foldl_bump_slot _ _ _ 0); try done.
    - by rewrite Hzero.
    - by rewrite Hlen. }
  destruct (least_free_exists _ _ Hg1) as [f Hf].
  pose proof (count_of_range _ _ _ (proj1 Hf)) as Hfrange.
  pose proof (count_of_range _ _ _ Hcnt1) as Herange.
  (* the child's write *)
  pose proof Hlook1 as (dir1 & Hdir1 & He1)%lookup_pte_Some; [| done | done].
  pose proof Hdir1 as [_ Hdir1']%load_Ok. pose proof He1 as [_ He1']%load_Ok.
  pose proof (lookup_lt_Some _ _ _ Hdir1'). pose proof (lookup_lt_Some _ _ _ He1').
  destruct (handle_page_fault_shared block vpn RW_WRITE st1 dir1 ec 2 f)
    as [Hne Hrun2]; try done.
  set (st2 := State _ _ _) in Hrun2.
  assert (lookup_pte (ptbr st2) vpn = Some (PTE true true f true)) as Hlook2.
  { unfold ptbr, st2. simpl. by rewrite lookup_pte_insert. }
  assert (count_of (mapcounts st2) (pfn e) = Some 1) as Hcnt2.
  { unfold st2. simpl. rewrite count_of_insert_ne;
      [| by rewrite length_insert | done].
    by apply count_of_insert_eq. }
  assert (count_of (mapcounts st2) f = Some 1) as Hcntf.
  { unfold st2. simpl. apply count_of_insert_eq. by rewrite length_insert. }
  (* back to the parent *)
  set (st3 := State (processes st ++ [current st2]) parent (mapcounts st2)).
  assert (switch_process child' fresh' (pid (current st)) st2 = Ok st3)
    as Hrun3.
  { by rewrite (switch_process_at _ _ _ st2 (processes st) [] parent). }
  (* the parent's write *)
  destruct (cow_break_last block' vpn st3 (PTE true false (pfn e) true))
    as (st4 & Hrun4 & Hmc4 & Hpte4 & _ & Hprocs4 & Hpid4); try done.
  exists st1, st2, st3, st4, (current st2), f.
  repeat split; try done.
  - by rewrite Hmc4.
  - by rewrite Hmc4.
Qed.

(** X14.  [alloc_page] for a page that is not mapped keeps the books: from a
    consistent state it returns in a consistent state, in which the share
    counts add up to the number of valid entries.  This when the directory
    of the page is there, whatever the block of [malloc] holds, and, when
    the directory has to be taken from [malloc], on a block that holds no
    valid entry, as a zeroed one does. *)
Theorem alloc_page_keeps_the_books (fresh : pte_directory) (vpn rw : Z)
    (st : state) :
  wf_config → consistent st → in_address_space vpn →
  (∀ e, lookup_pte (ptbr st) vpn = Some e → valid e = false) →
  (load (ptbr st) (outer_index_of vpn) = Ok None →
   wf_directory fresh ∧ Forall (λ p, valid p = false) fresh) →
  ∃ r st', alloc_page fresh vpn rw st = Ok (r, st') ∧
           consistent st' ∧
           sum_counts (mapcounts st') = Z.of_nat (valid_ptes st').
Proof.
  intros Hc Hst Hvpn Hunmapped Hblock.
  destruct (alloc_page_consistent_block fresh vpn rw st)
    as (r & st' & Hrun & Hst'); try done.
  exists r, st'. repeat split; try done; try apply Hst'.
  by apply consistent_sum.
Qed.

(** X15.  [free_page] for a mapped page keeps the books, and the share count
    it decrements was 1 at least. *)
Theorem free_page_keeps_the_books (vpn : Z) (st : state) (e : pte) :
  wf_config → consistent st →
  lookup_pte (ptbr st) vpn = Some e → valid e = true →
  ∃ c st', count_of (mapcounts st) (pfn e) = Some c ∧ 1 ≤ c ∧
           free_page vpn st = Ok st' ∧
           count_of (mapcounts st') (pfn e) = Some (c - 1) ∧
           consistent st' ∧
           sum_counts (mapcounts st') = Z.of_nat (valid_ptes st').
Proof.
  intros Hc Hst He Hv.
  destruct (free_page_consistent vpn st e) as (st' & Hrun & Hst'); try done.
  assert (0 ≤ vpn) as H0 by (unfold lookup_pte in He; by case_decide).
  apply lookup_pte_Some in He as (dir & Hdir & He); [| done | done].
  pose proof Hdir as [_ Hdir']%load_Ok. pose proof He as [_ He']%load_Ok.
  destruct (consistent_valid_entry st _ _ dir e Hst Hdir' He' Hv)
    as (c & Hcnt & Hc1 & Hpfn).
  exists c, st'. repeat split; try done; try apply Hst'; try lia.
  - rewrite (free_page_present vpn st dir e c) in Hrun by done.
    injection Hrun as <-. simpl.
    rewrite to_uint_small by lia.
    apply count_of_insert_eq. by apply count_of_range in Hcnt.
  - by apply consistent_sum.
Qed.

(** X16.  [handle_page_fault] on a page whose directory is there keeps the
    books, unless the fault is one on a shared copy-on-write page with no
    frame free. *)
Theorem handle_page_fault_keeps_the_books (fresh : pte_directory) (vpn rw : Z)
    (st : state) (e : pte) :
  wf_config → consistent st →
  lookup_pte (ptbr st) vpn = Some e →
  (valid e = true → private e = true →
   count_of (mapcounts st) (pfn e) ≠ Some 1 → ∃ f, is_free (mapcounts st) f) →
  ∃ r st', handle_page_fault fresh vpn rw st = Ok (r, st') ∧
           consistent st' ∧
           sum_counts (mapcounts st') = Z.of_nat (valid_ptes st').
Proof.
  intros Hc Hst He Hfree.
  destruct (handle_page_fault_consistent fresh vpn rw st e)
    as (r & st' & Hrun & Hst'); try done.
  exists r, st'. repeat split; try done; try apply Hst'.
  by apply consistent_sum.
Qed.

(** X17.  The switch to a process of the ready list keeps the books, whatever
    [malloc] would have handed out. *)
Theorem switch_keeps_the_books (child : process) (fresh : Z → pte_directory)
    (target : Z) (st : state) (p : process) :
  consistent st → p ∈ processes st → pid p = target →
  ∃ st', switch_process child fresh target st = Ok st' ∧
         pid (current st') = target ∧
         mapcounts st' = mapcounts st ∧
         consistent st' ∧
         sum_counts (mapcounts st') = Z.of_nat (valid_ptes st').
Proof.
  intros Hst Hp Hpid.
  destruct (switch_process_switch_consistent child fresh target st p)
    as (st' & Hrun & Hcur & Hmc & Hst'); try done.
  exists st'. repeat split; try done; try apply Hst'.
  by apply consistent_sum.
Qed.

(** X18.  The fork keeps the books, on zeroed blocks and as long as no share
    count runs over: every count is the number of valid entries naming the
    frame, the child's entries included. *)
Theorem fork_keeps_the_books (target : Z) (st : state) :
  wf_config → consistent st →
  (∀ p, p ∈ processes st → pid p ≠ target) →
  (∀ g, Z.of_nat (refs g st) + Z.of_nat (refs_table g (ptbr st)) < 2 ^ 32) →
  ∃ st', switch_process zero_process (λ _, zero_directory) target st = Ok st' ∧
         consistent st' ∧
         sum_counts (mapcounts st') = Z.of_nat (valid_ptes st').
Proof.
  intros Hc Hst Hfresh Hroom.
  destruct (switch_process_fork_consistent target st) as (st' & Hrun & Hst');
    try done.
  exists st'. repeat split; try done; try apply Hst'.
  by apply consistent_sum.
Qed.

(** X19.  No function checks the page number against the size of the table.
    For a page number past the last page, [free_page] and
    [handle_page_fault] index [outer_ptes] out of its bounds, and so does
    [alloc_page] when a frame is free; when none is free [alloc_page] has
    returned -1 before it gets to the table. *)
Theorem vpn_beyond_the_table (fresh : pte_directory) (vpn rw : Z) (st : state) :
  wf_config → wf_state st →
  Z.of_nat NR_PTES_PER_PAGE * Z.of_nat NR_PTES_PER_PAGE ≤ vpn →
  free_page vpn st = Err OutOfBounds ∧
  handle_page_fault fresh vpn rw st = Err OutOfBounds ∧
  ((∃ g, is_free (mapcounts st) g) →
   alloc_page fresh vpn rw st = Err OutOfBounds) ∧
  ((∀ g, ¬ is_free (mapcounts st) g) →
   alloc_page fresh vpn rw st = Ok (to_uint (-1), st)).
Proof.
  intros [Hn Hfr] (Hlen & _ & [Hptlen _] & _) Hvpn.
  assert (load (ptbr st) (outer_index_of vpn) = Err OutOfBounds) as Hload.
  { unfold load, outer_index_of.
    assert (Z.of_nat NR_PTES_PER_PAGE ≤ vpn / Z.of_nat NR_PTES_PER_PAGE)
      by (apply Z.div_le_lower_bound; lia).
    rewrite decide_True by lia.
    rewrite lookup_ge_None_2; [done | lia]. }
  split; [unfold free_page; by rewrite Hload |].
  split; [unfold handle_page_fault; by rewrite Hload |].
  split.
  - intros [g Hg]. destruct (least_free_exists _ _ Hg) as [f Hf].
    pose proof (count_of_range _ _ _ (proj1 Hf)) as Hrange.
    unfold alloc_page. rewrite (scan_free_least _ _ Hlen Hf). simpl.
    rewrite decide_False by lia. by rewrite Hload.
  - by apply alloc_page_full.
Qed.

(** X20.  When the directory of the page is missing, [alloc_page] takes the
    block of [malloc] for it as it comes and writes the one entry: every
    other page of that directory, unmapped before the call, now has the
    entry the block happened to hold. *)
Theorem alloc_page_new_directory (fresh : pte_directory) (vpn vpn' rw : Z)
    (st : state) (g : Z) :
  wf_config → wf_state st → wf_directory fresh → in_address_space vpn →
  is_free (mapcounts st) g →
  load (ptbr st) (outer_index_of vpn) = Ok None →
  0 ≤ vpn' → outer_index_of vpn' = outer_index_of vpn → vpn' ≠ vpn →
  ∃ f st', alloc_page fresh vpn rw st = Ok (f, st') ∧
           lookup_pte (ptbr st) vpn' = None ∧
           lookup_pte (ptbr st') vpn' = fresh !! Z.to_nat (inner_index_of vpn').
Proof.
  intros Hc (Hlen & _ & [Hptlen _] & _) Hfresh Hvpn Hg Hslot H0 Ho Hne.
  destruct (least_free_exists _ _ Hg) as [f Hf].
  destruct (indices_in_range vpn Hc Hvpn) as [Ho' Hi].
  destruct (load_in_range fresh (inner_index_of vpn)) as (e0 & He0 & He0');
    [rewrite Hfresh; lia |].
  pose proof Hslot as [_ Hslot']%load_Ok.
  pose proof (lookup_lt_Some _ _ _ Hslot') as Holt.
  exists f. eexists.
  split; [by apply (alloc_page_installs fresh vpn rw st f None e0) |].
  unfold lookup_pte. rewrite !decide_True by done. rewrite Ho.
  split; [by rewrite Hslot' |].
  unfold ptbr at 1. simpl. rewrite list_lookup_insert_eq by done. simpl.
  apply list_lookup_insert_ne. intros Heq. apply Hne.
  apply vpn_of_indices; [done | done |].
  destruct Hc as [Hn _]. unfold inner_index_of in *.
  pose proof (Z.mod_pos_bound vpn' (Z.of_nat NR_PTES_PER_PAGE)).
  lia.
Qed.

(** X21.  [alloc_page] does not look at the entry it writes.  For a page
    that is mapped already, the frame of the old mapping keeps its share
    count while one entry fewer names it: the books are off from then on. *)
Theorem alloc_page_forgets_old_frame (fresh : pte_directory) (vpn rw : Z)
    (st : state) (e : pte) (g : Z) :
  wf_config → consistent st →
  lookup_pte (ptbr st) vpn = Some e → valid e = true →
  is_free (mapcounts st) g →
  ∃ f st',
    alloc_page fresh vpn rw st = Ok (f, st') ∧
    f ≠ pfn e ∧
    count_of (mapcounts st') (pfn e) = count_of (mapcounts st) (pfn e) ∧
    S (refs (pfn e) st') = refs (pfn e) st ∧
    ¬ consistent st'.
Proof.
  intros Hc Hst He Hv Hg.
  pose proof Hst as ((Hlen & _) & _ & _ & Hcount).
  assert (0 ≤ vpn) as H0 by (unfold lookup_pte in He; by case_decide).
  apply lookup_pte_Some in He as (dir & Hdir & He); [| done | done].
  pose proof Hdir as [Ho Hdir']%load_Ok. pose proof He as [Hi He']%load_Ok.
  destruct (consistent_valid_entry st _ _ dir e Hst Hdir' He' Hv)
    as (c & Hcnt & Hc1 & Hpfn).
  destruct (least_free_exists _ _ Hg) as [f Hf].
  pose proof (count_of_range _ _ _ (proj1 Hf)) as Hfrange.
  assert (f ≠ pfn e) as Hne.
  { intros ->. destruct Hf as [Hf _]. unfold is_free in Hf.
    rewrite Hcnt in Hf. injection Hf as ?. lia. }
  assert (pfn (alloc_entry f rw e) = f) as Hpfn'
    by (unfold alloc_entry; by case_decide).
  assert (refers (pfn e) (alloc_entry f rw e) = false) as Hnew.
  { unfold refers. rewrite Hpfn', bool_decide_false by done.
    apply andb_false_r. }
  assert (refers (pfn e) e = true) as Hold.
  { unfold refers. by rewrite Hv, bool_decide_true. }
  pose proof (refs_table_update (pfn e) (ptbr st) _ _ (Some dir) fresh e
                (alloc_entry f rw e) Hdir'
                (λ H, eq_ind (Some dir) (λ s, if s is Some _ then True else _)
                             I None H) He') as Hupd.
  rewrite Hold, Hnew in Hupd. simpl in Hupd.
  exists f. eexists.
  split; [by apply (alloc_page_installs fresh vpn rw st f (Some dir) e) |].
  rewrite set_mapcounts_set_ptbr. simpl.
  split; [done |].
  split; [by apply count_of_insert_ne |].
  assert (S (refs (pfn e)
               (State (processes st)
                  (Process (pid (current st))
                     (<[Z.to_nat (outer_index_of vpn) :=
                          Some (<[Z.to_nat (inner_index_of vpn) :=
                                    alloc_entry f rw e]> dir)]> (ptbr st)))
                  (<[Z.to_nat f := 1]> (mapcounts st))))
          = refs (pfn e) st) as Hrefs.
  { unfold refs, ptbr at 1. simpl. lia. }
  split; [done |].
  intros (_ & _ & _ & Hcount').
  specialize (Hcount' (pfn e) c). simpl in Hcount'.
  rewrite count_of_insert_ne in Hcount' by done.
  specialize (Hcount' Hcnt). specialize (Hcount _ _ Hcnt). lia.
Qed.

(** X22.  [free_page] does not look at [valid] either.  On an entry that is
    not valid it takes one off the share count of the frame the entry names,
    which is frame 0 for an entry that is clear, and a count of 0 wraps
    around.  No entry fewer names the frame: the books are off afterwards. *)
Theorem free_page_of_unmapped_page (vpn : Z) (st : state) (e : pte) (c : Z) :
  wf_config → consistent st →
  lookup_pte (ptbr st) vpn = Some e → valid e = false →
  count_of (mapcounts st) (pfn e) = Some c →
  ∃ st', free_page vpn st = Ok st' ∧
         count_of (mapcounts st') (pfn e) = Some (to_uint (c - 1)) ∧
         (c = 0 → count_of (mapcounts st') (pfn e) = Some (2 ^ 32 - 1)) ∧
         refs (pfn e) st' = refs (pfn e) st ∧
         ¬ consistent st'.
Proof.
  intros Hc Hst He Hv Hcnt.
  pose proof Hst as ((Hlen & Hty & _) & _ & _ & Hcount).
  assert (0 ≤ vpn) as H0 by (unfold lookup_pte in He; by case_decide).
  apply lookup_pte_Some in He as (dir & Hdir & He); [| done | done].
  pose proof Hdir as [Ho Hdir']%load_Ok. pose proof He as [Hi He']%load_Ok.
  pose proof (count_of_range _ _ _ Hcnt) as Hrange.
  assert (0 ≤ c < 2 ^ 32) as Hcty.
  { apply count_of_Some in Hcnt as [_ Hcnt].
    apply (Forall_lookup_1 _ _ _ _ Hty Hcnt). }
  pose proof (refs_table_update (pfn e) (ptbr st) _ _ (Some dir) [] e
                (PTE false false 0 (private e)) Hdir'
                (λ H, eq_ind (Some dir) (λ s, if s is Some _ then True else _)
                             I None H) He') as Hupd.
  unfold refers in Hupd. rewrite Hv in Hupd. simpl in Hupd.
  eexists.
  split; [by apply (free_page_present vpn st dir e c) |].
  rewrite set_mapcounts_set_ptbr. simpl.
  split; [by apply count_of_insert_eq |].
  split; [intros ->; by apply count_of_insert_eq |].
  assert (refs (pfn e)
            (State (processes st)
               (Process (pid (current st))
                  (<[Z.to_nat (outer_index_of vpn) :=
                       Some (<[Z.to_nat (inner_index_of vpn) :=
                                 PTE false false 0 (private e)]> dir)]> (ptbr st)))
               (<[Z.to_nat (pfn e) := to_uint (c - 1)]> (mapcounts st)))
          = refs (pfn e) st) as Hrefs.
  { unfold refs, ptbr at 1. simpl. lia. }
  split; [done |].
  intros (_ & _ & _ & Hcount').
  specialize (Hcount' (pfn e) (to_uint (c - 1))). simpl in Hcount'.
  rewrite count_of_insert_eq in Hcount' by done.
  specialize (Hcount' eq_refl). specialize (Hcount _ _ Hcnt).
  rewrite Hrefs, <- Hcount in Hcount'.
  destruct (decide (c = 0)) as [-> | Hc0].
  - by vm_compute in Hcount'.
  - rewrite to_uint_small in Hcount' by lia. lia.
Qed.

(** X23.  The running process is not in the ready list, so [switch_process]
    with its pid finds nobody and forks, whatever the blocks of [malloc]
    hold: the child runs under the pid of its parent, which waits in the
    ready list.  The same call once more switches to the parent, and the
    copy stays behind under that pid, with its share of every count. *)
Theorem switch_to_running_pid_forks (child child' : process)
    (fresh fresh' : Z → pte_directory) (st : state) :
  wf_config → wf_state st → table_in_range NR_PAGEFRAMES (ptbr st) →
  length (pagetable_of child) = NR_PTES_PER_PAGE →
  (∀ i, wf_directory (fresh i)) →
  (∀ p, p ∈ processes st → pid p ≠ pid (current st)) →
  ∃ st1 st2,
    switch_process child fresh (pid (current st)) st = Ok st1 ∧
    pid (current st1) = pid (current st) ∧
    mapcounts st1 = foldl bump_slot (mapcounts st) (ptbr st) ∧
    switch_process child' fresh' (pid (current st)) st1 = Ok st2 ∧
    pid (current st2) = pid (current st) ∧
    ptbr st2 = fork_parent (ptbr st) ∧
    processes st2 = processes st ++ [current st1] ∧
    mapcounts st2 = mapcounts st1.
Proof.
  intros Hc (Hlen & Hty & Hpt & _) Hrange Hchild Hfresh Hpids.
  eexists. eexists. split.
  { apply switch_process_fork; try done.
    - by apply find_process_None.
    - by rewrite Hlen. }
  split; [done |]. split; [done |]. split.
  { by apply (switch_process_at _ _ _ _ (processes st) []
                (Process (pid (current st)) (fork_parent (ptbr st)))). }
  done.
Qed.

(** X24.  A page that is mapped read-only, without the marker, stays
    protected across the fork where the block of [malloc] for the child's
    directory has the [writable] bit and the marker of the page's entry
    clear, as a zeroed block has: the child gets the parent's entry, the
    parent's is left as it is, and the child's write fault on the page is
    refused with nothing changed. *)
Theorem fork_keeps_read_only (child : process) (fresh : Z → pte_directory)
    (block : pte_directory) (target vpn : Z) (st : state) (e : pte) :
  wf_config → wf_state st → table_in_range NR_PAGEFRAMES (ptbr st) →
  length (pagetable_of child) = NR_PTES_PER_PAGE →
  (∀ i, wf_directory (fresh i)) →
  (∀ c, fresh (outer_index_of vpn) !! Z.to_nat (inner_index_of vpn) = Some c →
        writable c = false ∧ private c = false) →
  (∀ p, p ∈ processes st → pid p ≠ target) →
  lookup_pte (ptbr st) vpn = Some e →
  valid e = true → writable e = false → private e = false →
  ∃ st' parent,
    switch_process child fresh target st = Ok st' ∧
    processes st' = processes st ++ [parent] ∧
    lookup_pte (ptbr st') vpn = Some e ∧
    lookup_pte (pagetable_of parent) vpn = Some e ∧
    handle_page_fault block vpn RW_WRITE st' = Ok (Some false, st').
Proof.
  intros Hc (Hlen & Hty & Hpt & _) Hrange Hchild Hfresh Hclear Hpids He Hv Hw Hp.
  assert (0 ≤ vpn) as H0 by (unfold lookup_pte in He; by case_decide).
  destruct (lookup_lt_is_Some_2 (fresh (outer_index_of vpn))
              (Z.to_nat (inner_index_of vpn))) as [c0 Hc0].
  { rewrite (Hfresh (outer_index_of vpn)). destruct Hc as [Hn _].
    pose proof (Z.mod_pos_bound vpn (Z.of_nat NR_PTES_PER_PAGE)).
    unfold inner_index_of. lia. }
  destruct (Hclear _ Hc0) as [Hw0 Hp0].
  eexists. eexists. split.
  { apply switch_process_fork; try done.
    - by apply find_process_None.
    - by rewrite Hlen. }
  split; [done |].
  assert (lookup_pte (fork_child fresh 0 (ptbr st) (pagetable_of child)) vpn
          = Some e) as Hchild'.
  { rewrite (lookup_pte_fork_child fresh _ _ vpn e c0); try done.
    - f_equal. unfold cow_child. rewrite Hv, Hw, Hp. simpl.
      clear -Hv Hw Hp Hw0 Hp0. destruct e, c0; simpl in *. by subst.
    - rewrite Hchild. symmetry. apply Hpt. }
  split; [done |]. split.
  { simpl. rewrite lookup_pte_fork_parent, He. simpl. f_equal.
    unfold cow_parent. by rewrite Hv, Hw, Hp. }
  apply lookup_pte_Some in Hchild' as (dir & Hdir & Hin); [| done | done].
  rewrite (handle_page_fault_present _ _ _ _ dir e); [| done | done].
  rewrite Hv. simpl. by rewrite decide_True.
Qed.

(** X25.  The answer of [handle_page_fault], case by case, on a state whose
    books are in order and a page whose directory is there.  It is [true]
    for every valid entry with the copy-on-write marker, [false] for an
    invalid entry and for a write to an entry that is neither writable nor
    marked, and there is no answer at all, the function running off its
    end, for every other valid entry without the marker. *)
Theorem handle_page_fault_answer (fresh : pte_directory) (vpn rw : Z)
    (st : state) (e : pte) :
  wf_config → consistent st →
  lookup_pte (ptbr st) vpn = Some e →
  ∃ r st',
    handle_page_fault fresh vpn rw st = Ok (r, st') ∧
    (r = Some true ↔ valid e = true ∧ private e = true) ∧
    (r = Some false ↔
       valid e = false ∨
       (rw = RW_WRITE ∧ writable e = false ∧ private e = false)) ∧
    (r = None ↔
       valid e = true ∧ private e = false ∧
       (rw = RW_WRITE → writable e = true)).
Proof.
  intros Hc Hst He.
  pose proof Hst as ((Hlen & Hty & _) & _).
  assert (0 ≤ vpn) as H0 by (unfold lookup_pte in He; by case_decide).
  apply lookup_pte_Some in He as (dir & Hdir & He); [| done | done].
  pose proof Hdir as [_ Hdir']%load_Ok. pose proof He as [_ He']%load_Ok.
  rewrite (handle_page_fault_present _ _ _ _ _ _ Hdir He).
  destruct (valid e) eqn:Hv; simpl.
  2:{ exists (Some false), st. intuition congruence. }
  destruct (decide (rw = RW_WRITE ∧ writable e = false ∧ private e = false))
    as [Hillegal | Hlegal].
  { exists (Some false), st. intuition congruence. }
  destruct (private e) eqn:Hp.
  2:{ exists None, st. split; [done |].
      destruct (writable e); intuition congruence. }
  destruct (consistent_valid_entry st _ _ dir e Hst Hdir' He' Hv)
    as (c & Hcnt & Hc1 & Hpfn).
  rewrite (proj1 (count_of_load _ _ _) Hcnt). simpl.
  destruct (decide (1 < c)) as [Hshared | Hlast].
  - rewrite store_in_range by lia. simpl.
    set (st1 := set_mapcounts _ st).
    assert (∃ f st', alloc_page fresh vpn RW_WRITE st1 = Ok (f, st'))
      as (f & st' & ->).
    { destruct (least_free_or_full (mapcounts st1)) as [[f Hf] | Hfull].
      - eexists _, _.
        apply (alloc_page_installs fresh vpn RW_WRITE st1 f (Some dir) e);
          try done.
        simpl. by rewrite length_insert.
      - eexists _, _. apply alloc_page_full; [| done].
        simpl. by rewrite length_insert. }
    simpl. exists (Some true), st'. intuition congruence.
  - rewrite decide_True by lia. eexists (Some true), _. intuition congruence.
Qed.

(** X27.  The fork on blocks of [malloc] as they come.  For every page valid
    in the parent the child's entry is valid and names the parent's frame,
    whose share count has gone up by one for every valid entry of the
    parent that names it (in [unsigned int] arithmetic).  When the parent's
    entry was writable or copy-on-write, the parent's ends not writable and
    marked and the child's ends marked; otherwise the parent's is left as it
    was.  The [writable] bit of the child's entry is never written: it is the
    one the block had, and so is the marker of the child's entry in the
    second case. *)
Theorem fork_on_any_block (child : process) (fresh : Z → pte_directory)
    (target : Z) (st : state) :
  wf_config → wf_state st →
  table_in_range NR_PAGEFRAMES (ptbr st) →
  length (pagetable_of child) = NR_PTES_PER_PAGE →
  (∀ i, wf_directory (fresh i)) →
  (∀ p, p ∈ processes st → pid p ≠ target) →
  ∃ st' parent,
    switch_process child fresh target st = Ok st' ∧
    processes st' = processes st ++ [parent] ∧
    pid parent = pid (current st) ∧
    pid (current st') = target ∧
    ∀ vpn e, lookup_pte (ptbr st) vpn = Some e → valid e = true →
      ∃ ec ep c0,
        fresh (outer_index_of vpn) !! Z.to_nat (inner_index_of vpn) = Some c0 ∧
        lookup_pte (ptbr st') vpn = Some ec ∧
        lookup_pte (pagetable_of parent) vpn = Some ep ∧
        valid ec = true ∧ pfn ec = pfn e ∧ writable ec = writable c0 ∧
        valid ep = true ∧ pfn ep = pfn e ∧
        (∀ c, count_of (mapcounts st) (pfn e) = Some c →
              count_of (mapcounts st') (pfn e) =
                Some (to_uint (c + Z.of_nat (refs_table (pfn e) (ptbr st))))) ∧
        (writable e = true ∨ private e = true →
           private ec = true ∧ writable ep = false ∧ private ep = true) ∧
        (writable e = false → private e = false →
           private ec = private c0 ∧ ep = e).
Proof.
  intros Hc (Hlen & Hty & Hpt & _) Hrange Hchild Hfresh Hpids.
  eexists _, _. split.
  { apply switch_process_fork; try done.
    - by apply find_process_None.
    - by rewrite Hlen. }
  simpl. repeat split.
  intros vpn e He Hv.
  assert (0 ≤ vpn) as H0 by (unfold lookup_pte in He; by case_decide).
  assert (0 ≤ inner_index_of vpn < Z.of_nat NR_PTES_PER_PAGE) as Hi.
  { destruct Hc as [Hn _]. apply Z.mod_pos_bound. lia. }
  destruct (lookup_lt_is_Some_2 (fresh (outer_index_of vpn))
              (Z.to_nat (inner_index_of vpn))) as [c0 Hc0].
  { rewrite (Hfresh (outer_index_of vpn)). lia. }
  exists (cow_child e c0), (cow_parent e), c0. split; [done |]. split.
  { unfold ptbr at 1. simpl. apply lookup_pte_fork_child; try done.
    rewrite Hchild. symmetry. apply Hpt. }
  split; [simpl; by rewrite lookup_pte_fork_parent, He |].
  unfold cow_child, cow_parent. rewrite Hv. simpl.
  split; [done |]. split; [done |].
  split; [by destruct (writable e || private e) |].
  split; [by destruct (writable e || private e) |].
  split; [by destruct (writable e || private e) |].
  split.
  { intros c Hcnt.
    apply count_of_foldl_bump_slot; [by rewrite Hlen | done |].
    apply count_of_Some in Hcnt as [_ Hcnt].
    apply (Forall_lookup_1 _ _ _ _ Hty Hcnt). }
  split.
  - intros Hw.
    assert (writable e || private e = true) as ->
      by (destruct Hw as [-> | ->]; by rewrite ?orb_true_r).
    done.
  - intros Hw Hp. rewrite Hw, Hp. simpl. split; [done |].
    destruct e; simpl in *; by subst.
Qed.

End Further.

(** * The further properties at work *)

Section Further_examples.

#[local] Existing Instance small_vm.

(** X1 at work: page 1 of [one_page] is mapped for writing. *)
Lemma alloc_page_maps_page_example :
  ∃ f st' e',
    alloc_page zero_directory 1 RW_WRITE one_page = Ok (f, st') ∧
    least_free (mapcounts one_page) f ∧
    count_of (mapcounts st') f = Some 1 ∧
    (∀ h, h ≠ f → count_of (mapcounts st') h = count_of (mapcounts one_page) h) ∧
    lookup_pte (ptbr st') 1 = Some e' ∧
    valid e' = true ∧ pfn e' = f ∧
    (RW_WRITE = 2 ∨ RW_WRITE = 3 → writable e' = true) ∧
    (∀ e, lookup_pte (ptbr one_page) 1 = Some e →
          private e' = private e ∧
          (RW_WRITE ≠ 2 → RW_WRITE ≠ 3 → writable e' = writable e) ∧
          ∀ vpn', vpn' ≠ 1 →
                  lookup_pte (ptbr st') vpn' = lookup_pte (ptbr one_page) vpn') ∧
    processes st' = processes one_page.
Proof.
  apply (alloc_page_maps_page zero_directory 1 RW_WRITE one_page 1);
    [compute_done | compute_done | reflexivity | | reflexivity].
  unfold in_address_space. simpl. lia.
Defined.

(** X2 at work: page 1 of [one_page] is mapped and freed again. *)
Lemma alloc_then_free_restores_example :
  ∃ f st1, alloc_page zero_directory 1 RW_WRITE one_page = Ok (f, st1) ∧
           lookup_pte (ptbr st1) 1 = Some (alloc_entry f RW_WRITE zero_pte) ∧
           free_page 1 st1 = Ok one_page.
Proof.
  apply (alloc_then_free_restores zero_directory 1 RW_WRITE one_page zero_pte 1);
    try reflexivity; compute_done.
Defined.

(** X3 at work: page 0 of [one_page] is freed and mapped anew. *)
Lemma freed_frame_is_reused_example :
  ∃ st1 f st2,
    free_page 0 one_page = Ok st1 ∧
    is_free (mapcounts st1) (pfn (PTE true true 0 false)) ∧
    alloc_page zero_directory 0 RW_READ st1 = Ok (f, st2) ∧
    least_free (mapcounts st1) f ∧ 0 ≤ f ≤ pfn (PTE true true 0 false).
Proof.
  apply (freed_frame_is_reused zero_directory 0 RW_READ one_page
           (PTE true true 0 false));
    try reflexivity; compute_done.
Defined.

(** X4 at work: a read fault and a write fault of the child of [forked]. *)
Lemma cow_fault_ignores_access_example :
  handle_page_fault zero_directory 0 RW_READ forked
  = handle_page_fault zero_directory 0 RW_WRITE forked.
Proof.
  apply (cow_fault_ignores_access zero_directory 0 RW_READ RW_WRITE forked
           (PTE true false 0 true));
    try reflexivity; compute_done.
Defined.

(** X5 at work: a read fault on page 1 of [one_page], which is not mapped. *)
Lemma unresolved_fault_changes_nothing_example : one_page = one_page.
Proof.
  apply (unresolved_fault_changes_nothing zero_directory 1 RW_READ
           one_page one_page (Some false)); [reflexivity | discriminate].
Defined.

(** X6 at work: the child's write fault in [forked]. *)
Lemma handle_page_fault_frame_example :
  let st' :=
    State [Process 0 [Some [PTE true false 0 true; zero_pte]; None]]
          (Process 1 [Some [PTE true true 1 true; zero_pte]; None])
          [1; 1; 0; 0] in
  processes st' = processes forked ∧
  pid (current st') = pid (current forked) ∧
  (∀ vpn', vpn' ≠ 0 →
           lookup_pte (ptbr st') vpn' = lookup_pte (ptbr forked) vpn') ∧
  (∀ e g, lookup_pte (ptbr forked) 0 = Some e → g ≠ pfn e →
          ¬ is_free (mapcounts forked) g →
          count_of (mapcounts st') g = count_of (mapcounts forked) g).
Proof.
  apply (handle_page_fault_frame zero_directory 0 RW_WRITE forked _ (Some true));
    try reflexivity; compute_done.
Defined.

(** X7 at work: a read fault on page 1 of [one_page]. *)
Lemma fault_refused_iff_example :
  (∃ st', handle_page_fault zero_directory 1 RW_READ one_page
          = Ok (Some false, st')) ↔
  valid zero_pte = false ∨
  (RW_READ = RW_WRITE ∧ writable zero_pte = false ∧ private zero_pte = false).
Proof.
  apply (fault_refused_iff zero_directory 1 RW_READ one_page zero_pte);
    try reflexivity; compute_done.
Defined.

(** X8 at work: no frame of [forked_full] is free. *)
Lemma two_faults_without_memory_example :
  let e := PTE true false 0 true in
  ∃ st1 st2,
    handle_page_fault zero_directory 0 RW_WRITE forked_full
      = Ok (Some true, st1) ∧
    lookup_pte (ptbr st1) 0 = Some e ∧
    handle_page_fault zero_directory 0 RW_WRITE st1 = Ok (Some true, st2) ∧
    lookup_pte (ptbr st2) 0 = Some (set_writable true e) ∧
    count_of (mapcounts st2) (pfn e) = Some 1 ∧
    processes st2 = processes forked_full.
Proof.
  apply (two_faults_without_memory zero_directory 0 forked_full
           (PTE true false 0 true));
    try reflexivity; try compute_done.
  intros g [_ Hc]%count_of_Some.
  destruct (Z.to_nat g) as [|[|[|[|]]]]; simpl in Hc; simplify_eq.
Defined.

(** X9 at work: the child of [forked] frees the shared page 0. *)
Lemma stale_marker_grants_write_example :
  let e := PTE true false 0 true in
  ∃ st1,
    free_page 0 forked = Ok st1 ∧
    (2 = 1 → is_free (mapcounts st1) (pfn e)) ∧
    (∀ g, g ≠ pfn e → is_free (mapcounts forked) g →
          is_free (mapcounts st1) g) ∧
    ((∃ g, is_free (mapcounts st1) g) →
     ∃ f st2 st3,
       alloc_page zero_directory 0 RW_READ st1 = Ok (f, st2) ∧
       lookup_pte (ptbr st2) 0 = Some (PTE true false f true) ∧
       handle_page_fault zero_directory 0 RW_WRITE st2 = Ok (Some true, st3) ∧
       lookup_pte (ptbr st3) 0 = Some (PTE true true f true)).
Proof.
  apply (stale_marker_grants_write zero_directory 0 forked
           (PTE true false 0 true) 2);
    [compute_done | compute_done | reflexivity | reflexivity | reflexivity].
Defined.

(** X10 at work: the child of [forked] switches to its parent. *)
Lemma switch_process_queue_example :
  let temp := Process 0 [Some [PTE true false 0 true; zero_pte]; None] in
  switch_process zero_process (λ _, zero_directory) 0 forked =
  Ok (State ([] ++ [] ++ [current forked]) temp (mapcounts forked)).
Proof.
  apply (switch_process_queue zero_process (λ _, zero_directory) 0 forked [] []);
    try reflexivity.
  intros p Hp. inversion Hp.
Defined.

(** X11 at work: from the child of [forked] to the parent and back. *)
Lemma switch_away_and_back_example :
  let temp := Process 0 [Some [PTE true false 0 true; zero_pte]; None] in
  switch_process zero_process (λ _, zero_directory) (pid temp) forked
    ≫= switch_process zero_process (λ _, zero_directory) (pid (current forked))
  = Ok (State ([] ++ [] ++ [temp]) (current forked) (mapcounts forked)).
Proof.
  apply (switch_away_and_back zero_process (λ _, zero_directory) forked [] []);
    try reflexivity.
  - intros p Hp. inversion Hp.
  - intros p ->%list_elem_of_singleton. discriminate.
Defined.

(** X12 at work: process 1 of [forked] forks process 2. *)
Lemma fork_copies_the_table_example :
  ∃ st',
    switch_process zero_process (λ _, zero_directory) 2 forked = Ok st' ∧
    (∀ vpn, lookup_pte (ptbr st') vpn
            = (λ e, cow_child e zero_pte) <$> lookup_pte (ptbr forked) vpn) ∧
    (∀ vpn ec, lookup_pte (ptbr st') vpn = Some ec → valid ec = true →
               ∃ e, lookup_pte (ptbr forked) vpn = Some e ∧ valid e = true ∧
                    pfn ec = pfn e) ∧
    (∀ vpn e, lookup_pte (ptbr forked) vpn = Some e → valid e = false →
              lookup_pte (ptbr st') vpn = Some zero_pte).
Proof.
  apply (fork_copies_the_table 2 forked);
    [compute_done | compute_done | compute_done |].
  intros p ->%list_elem_of_singleton. discriminate.
Defined.

(** X13 at work: the process of [one_page] forks process 1 on blocks that
    are not zeroed, and both write to page 0. *)
Lemma fork_and_write_both_sides_example :
  let e := PTE true true 0 false in
  let dirty := [PTE false true 3 false; PTE false true 2 true] in
  let child := Process 7 [None; Some dirty] in
  ∃ st1 st2 st3 st4 queued f,
    switch_process child (λ _, dirty) 1 one_page = Ok st1 ∧
    handle_page_fault dirty 0 RW_WRITE st1 = Ok (Some true, st2) ∧
    switch_process child (λ _, dirty) (pid (current one_page)) st2 = Ok st3 ∧
    handle_page_fault dirty 0 RW_WRITE st3 = Ok (Some true, st4) ∧
    pid (current st4) = pid (current one_page) ∧
    lookup_pte (ptbr st4) 0 = Some (PTE true true (pfn e) true) ∧
    processes st4 = processes one_page ++ [queued] ∧
    pid queued = 1 ∧
    lookup_pte (pagetable_of queued) 0 = Some (PTE true true f true) ∧
    f ≠ pfn e ∧
    count_of (mapcounts st4) (pfn e) = Some 1 ∧
    count_of (mapcounts st4) f = Some 1.
Proof.
  apply (fork_and_write_both_sides
           (Process 7 [None; Some [PTE false true 3 false; PTE false true 2 true]])
           (Process 7 [None; Some [PTE false true 3 false; PTE false true 2 true]])
           (λ _, [PTE false true 3 false; PTE false true 2 true])
           (λ _, [PTE false true 3 false; PTE false true 2 true])
           [PTE false true 3 false; PTE false true 2 true]
           [PTE false true 3 false; PTE false true 2 true]
           1 0 one_page (PTE true true 0 false) 1).
  - compute_done.
  - apply consistent_check; compute_done.
  - reflexivity.
  - intros _. reflexivity.
  - reflexivity.
  - reflexivity.
  - left. reflexivity.
  - reflexivity.
  - reflexivity.
  - intros p Hp. inversion Hp.
  - intros p Hp. inversion Hp.
Defined.

(** X14 at work: page 2 of [one_page], whose directory is missing, is
    mapped on a block that holds a stale marker and a stale frame number but
    no valid entry. *)
Lemma alloc_page_keeps_the_books_example :
  let block := [PTE false true 3 true; PTE false false 2 true] in
  ∃ r st', alloc_page block 2 RW_WRITE one_page = Ok (r, st') ∧
           consistent st' ∧
           sum_counts (mapcounts st') = Z.of_nat (valid_ptes st').
Proof.
  apply (alloc_page_keeps_the_books
           [PTE false true 3 true; PTE false false 2 true] 2 RW_WRITE one_page).
  - compute_done.
  - apply consistent_check; compute_done.
  - unfold in_address_space. simpl. lia.
  - intros e He. discriminate He.
  - intros _. split; [reflexivity | compute_done].
Defined.

(** X15 at work: the child of [forked] frees the shared page 0. *)
Lemma free_page_keeps_the_books_example :
  let e := PTE true false 0 true in
  ∃ c st', count_of (mapcounts forked) (pfn e) = Some c ∧ 1 ≤ c ∧
           free_page 0 forked = Ok st' ∧
           count_of (mapcounts st') (pfn e) = Some (c - 1) ∧
           consistent st' ∧
           sum_counts (mapcounts st') = Z.of_nat (valid_ptes st').
Proof.
  apply (free_page_keeps_the_books 0 forked (PTE true false 0 true)).
  - compute_done.
  - apply consistent_check; compute_done.
  - reflexivity.
  - reflexivity.
Defined.

(** X16 at work: the child's write fault in [forked]. *)
Lemma handle_page_fault_keeps_the_books_example :
  ∃ r st', handle_page_fault zero_directory 0 RW_WRITE forked = Ok (r, st') ∧
           consistent st' ∧
           sum_counts (mapcounts st') = Z.of_nat (valid_ptes st').
Proof.
  apply (handle_page_fault_keeps_the_books zero_directory 0 RW_WRITE forked
           (PTE true false 0 true)).
  - compute_done.
  - apply consistent_check; compute_done.
  - reflexivity.
  - intros _ _ _. exists 1. reflexivity.
Defined.

(** X17 at work: the child of [forked] switches to its parent. *)
Lemma switch_keeps_the_books_example :
  ∃ st', switch_process zero_process (λ _, zero_directory) 0 forked = Ok st' ∧
         pid (current st') = 0 ∧
         mapcounts st' = mapcounts forked ∧
         consistent st' ∧
         sum_counts (mapcounts st') = Z.of_nat (valid_ptes st').
Proof.
  apply (switch_keeps_the_books zero_process (λ _, zero_directory) 0 forked
           (Process 0 [Some [PTE true false 0 true; zero_pte]; None])).
  - apply consistent_check; compute_done.
  - constructor.
  - reflexivity.
Defined.

(** X18 at work: process 1 of [forked] forks process 2. *)
Lemma fork_keeps_the_books_example :
  ∃ st', switch_process zero_process (λ _, zero_directory) 2 forked = Ok st' ∧
         consistent st' ∧
         sum_counts (mapcounts st') = Z.of_nat (valid_ptes st').
Proof.
  apply (fork_keeps_the_books 2 forked).
  - compute_done.
  - apply consistent_check; compute_done.
  - intros p ->%list_elem_of_singleton. discriminate.
  - intros g. unfold refs. simpl. unfold refers. simpl.
    case_bool_decide; simpl; lia.
Defined.

(** X19 at work: page 4 of a system with pages 0 to 3. *)
Lemma vpn_beyond_the_table_example :
  free_page 4 one_page = Err OutOfBounds ∧
  handle_page_fault zero_directory 4 RW_READ one_page = Err OutOfBounds ∧
  ((∃ g, is_free (mapcounts one_page) g) →
   alloc_page zero_directory 4 RW_READ one_page = Err OutOfBounds) ∧
  ((∀ g, ¬ is_free (mapcounts one_page) g) →
   alloc_page zero_directory 4 RW_READ one_page = Ok (to_uint (-1), one_page)).
Proof.
  apply (vpn_beyond_the_table zero_directory 4 RW_READ one_page);
    [compute_done | compute_done | simpl; lia].
Defined.

(** X20 at work: page 2 of [one_page] is mapped on a block that holds an
    entry of an earlier use, and page 3 comes out mapped to frame 0. *)
Lemma alloc_page_new_directory_example :
  let fresh := [zero_pte; PTE true true 0 false] in
  ∃ f st', alloc_page fresh 2 RW_WRITE one_page = Ok (f, st') ∧
           lookup_pte (ptbr one_page) 3 = None ∧
           lookup_pte (ptbr st') 3 = fresh !! Z.to_nat (inner_index_of 3).
Proof.
  apply (alloc_page_new_directory [zero_pte; PTE true true 0 false] 2 3
           RW_WRITE one_page 1);
    try reflexivity; compute_done.
Defined.

(** X21 at work: page 0 of [one_page] is mapped once more. *)
Lemma alloc_page_forgets_old_frame_example :
  let e := PTE true true 0 false in
  ∃ f st',
    alloc_page zero_directory 0 RW_READ one_page = Ok (f, st') ∧
    f ≠ pfn e ∧
    count_of (mapcounts st') (pfn e) = count_of (mapcounts one_page) (pfn e) ∧
    S (refs (pfn e) st') = refs (pfn e) one_page ∧
    ¬ consistent st'.
Proof.
  apply (alloc_page_forgets_old_frame zero_directory 0 RW_READ one_page
           (PTE true true 0 false) 1).
  - compute_done.
  - apply consistent_check; compute_done.
  - reflexivity.
  - reflexivity.
  - reflexivity.
Defined.

(** X22 at work: page 1 of [one_page], never mapped, is freed. *)
Lemma free_page_of_unmapped_page_example :
  ∃ st', free_page 1 one_page = Ok st' ∧
         count_of (mapcounts st') (pfn zero_pte) = Some (to_uint (1 - 1)) ∧
         (1 = 0 → count_of (mapcounts st') (pfn zero_pte) = Some (2 ^ 32 - 1)) ∧
         refs (pfn zero_pte) st' = refs (pfn zero_pte) one_page ∧
         ¬ consistent st'.
Proof.
  apply (free_page_of_unmapped_page 1 one_page zero_pte 1).
  - compute_done.
  - apply consistent_check; compute_done.
  - reflexivity.
  - reflexivity.
  - reflexivity.
Defined.

(** X23 at work: the process of [one_page] switches to its own pid, twice,
    on blocks that are not zeroed. *)
Lemma switch_to_running_pid_forks_example :
  let dirty := [PTE false true 3 false; PTE false true 2 true] in
  let child := Process 7 [None; Some dirty] in
  ∃ st1 st2,
    switch_process child (λ _, dirty) (pid (current one_page)) one_page
      = Ok st1 ∧
    pid (current st1) = pid (current one_page) ∧
    mapcounts st1 = foldl bump_slot (mapcounts one_page) (ptbr one_page) ∧
    switch_process child (λ _, dirty) (pid (current one_page)) st1 = Ok st2 ∧
    pid (current st2) = pid (current one_page) ∧
    ptbr st2 = fork_parent (ptbr one_page) ∧
    processes st2 = processes one_page ++ [current st1] ∧
    mapcounts st2 = mapcounts st1.
Proof.
  apply (switch_to_running_pid_forks
           (Process 7 [None; Some [PTE false true 3 false; PTE false true 2 true]])
           (Process 7 [None; Some [PTE false true 3 false; PTE false true 2 true]])
           (λ _, [PTE false true 3 false; PTE false true 2 true])
           (λ _, [PTE false true 3 false; PTE false true 2 true])
           one_page).
  - compute_done.
  - compute_done.
  - compute_done.
  - reflexivity.
  - intros _. reflexivity.
  - intros p Hp. inversion Hp.
Defined.

(** X24 at work: page 0 of [read_only_page] across the fork of process 1,
    on a block that is clean under page 0 and not under page 1. *)
Lemma fork_keeps_read_only_example :
  let e := PTE true false 0 false in
  let block := [PTE true false 3 false; PTE false true 2 true] in
  let child := Process 7 [None; Some block] in
  ∃ st' parent,
    switch_process child (λ _, block) 1 read_only_page = Ok st' ∧
    processes st' = processes read_only_page ++ [parent] ∧
    lookup_pte (ptbr st') 0 = Some e ∧
    lookup_pte (pagetable_of parent) 0 = Some e ∧
    handle_page_fault block 0 RW_WRITE st' = Ok (Some false, st').
Proof.
  apply (fork_keeps_read_only
           (Process 7 [None; Some [PTE true false 3 false; PTE false true 2 true]])
           (λ _, [PTE true false 3 false; PTE false true 2 true])
           [PTE true false 3 false; PTE false true 2 true]
           1 0 read_only_page (PTE true false 0 false)).
  - compute_done.
  - compute_done.
  - compute_done.
  - reflexivity.
  - intros _. reflexivity.
  - intros c [= <-]. split; reflexivity.
  - intros p Hp. inversion Hp.
  - reflexivity.
  - reflexivity.
  - reflexivity.
  - reflexivity.
Defined.

(** X25 at work: a fault of the child of [forked] on the shared page 0. *)
Lemma handle_page_fault_answer_example :
  let e := PTE true false 0 true in
  ∃ r st',
    handle_page_fault zero_directory 0 RW_READ forked = Ok (r, st') ∧
    (r = Some true ↔ valid e = true ∧ private e = true) ∧
    (r = Some false ↔
       valid e = false ∨
       (RW_READ = RW_WRITE ∧ writable e = false ∧ private e = false)) ∧
    (r = None ↔
       valid e = true ∧ private e = false ∧
       (RW_READ = RW_WRITE → writable e = true)).
Proof.
  apply (handle_page_fault_answer zero_directory 0 RW_READ forked
           (PTE true false 0 true)).
  - compute_done.
  - apply consistent_check; compute_done.
  - reflexivity.
Defined.

(** [read_only_page] is the state that mapping page 0 of [boot] for reading
    leads to. *)
Lemma read_only_page_reached :
  alloc_page zero_directory 0 RW_READ boot = Ok (0, read_only_page).
Proof. reflexivity. Qed.

(** X27 at work: process 1 of [forked] forks process 2 on a block that is
    not zeroed. *)
Lemma fork_on_any_block_example :
  let dirty := [PTE false true 3 false; PTE false true 2 true] in
  let child := Process 7 [None; Some dirty] in
  ∃ st' parent,
    switch_process child (λ _, dirty) 2 forked = Ok st' ∧
    processes st' = processes forked ++ [parent] ∧
    pid parent = pid (current forked) ∧
    pid (current st') = 2 ∧
    ∀ vpn e, lookup_pte (ptbr forked) vpn = Some e → valid e = true →
      ∃ ec ep c0,
        (λ _ : Z, dirty) (outer_index_of vpn) !! Z.to_nat (inner_index_of vpn)
          = Some c0 ∧
        lookup_pte (ptbr st') vpn = Some ec ∧
        lookup_pte (pagetable_of parent) vpn = Some ep ∧
        valid ec = true ∧ pfn ec = pfn e ∧ writable ec = writable c0 ∧
        valid ep = true ∧ pfn ep = pfn e ∧
        (∀ c, count_of (mapcounts forked) (pfn e) = Some c →
              count_of (mapcounts st') (pfn e) =
                Some (to_uint (c + Z.of_nat (refs_table (pfn e) (ptbr forked))))) ∧
        (writable e = true ∨ private e = true →
           private ec = true ∧ writable ep = false ∧ private ep = true) ∧
        (writable e = false → private e = false →
           private ec = private c0 ∧ ep = e).
Proof.
  apply (fork_on_any_block
           (Process 7 [None; Some [PTE false true 3 false; PTE false true 2 true]])
           (λ _, [PTE false true 3 false; PTE false true 2 true]) 2 forked).
  - compute_done.
  - compute_done.
  - compute_done.
  - reflexivity.
  - intros _. reflexivity.
  - intros p ->%list_elem_of_singleton. discriminate.
Defined.

End Further_examples.
